(** * Beat-to-chart derivation engine: a shallow embedding

    This development embeds the algorithmic core of the chart pipeline:

    - [utils/beat_detection.py]: [normalize_energies],
      [combine_beats_and_onsets];
    - [utils/chart_generator.py]: [generate_chart], [validate_chart],
      [apply_density_filter];
    - [3_generate_chart.py]: the part of [generate_for_difficulty] between
      reading the analysis and writing the chart.

    Conventions of the embedding.

    - A Python float is the rational it stands for ([Q]); comparisons are
      the exact ones, [round(x, n)] is rounding half to even on the exact
      value.  Not-a-number and infinities are outside the model.
    - Arithmetic on floats is exact, with two exceptions that are
      computed as binary64 does (module [Float]): the product
      [len(notes) * target_density] of [apply_density_filter], whose
      integer part is the number of notes kept, and the difference
      [beat_time - onset] of [combine_beats_and_onsets], which decides
      whether a beat is dropped.  The differences taken by
      [generate_chart] and [validate_chart], the quotients of
      [normalize_energies] and the mean of the metadata are the exact
      ones; the binary64 results are within rounding error of them,
      which can change an outcome at an exact boundary only (two notes
      exactly 0.150 s apart, a mean exactly in the middle between two
      multiples of 0.001).
    - A JSON/YAML object is a [gmap string _]: [d[k]] is [Py.getitem]
      (raising [KeyError]), [d.get(k, v)] is [Py.get].
    - Exceptions are the [Raise] branch of [Py.result]; a Python function
      that can raise returns a [Py.result].
    - [print] calls are dropped. *)

From Stdlib Require Import QArith Qround Qabs Qpower Lqa Lia Sorting.Sorted
  Sorting.Permutation.
From stdpp Require Import gmap strings list.

Open Scope string_scope.
Open Scope list_scope.
Open Scope Q_scope.

(** ** Python primitives used by the scripts *)

Module Py.

Inductive exn : Type :=
| KeyError (key : string)
| ValueError.

Inductive result (A : Type) : Type :=
| Ok (a : A)
| Raise (e : exn).
Arguments Ok {A} a.
Arguments Raise {A} e.

#[global] Instance result_ret : MRet result := fun _ a => Ok a.
#[global] Instance result_bind : MBind result := fun _ _ f m =>
  match m with
  | Ok a => f a
  | Raise e => Raise e
  end.

(** [d[k]] *)
Definition getitem {V} (d : gmap string V) (k : string) : result V :=
  match d !! k with
  | Some v => Ok v
  | None => Raise (KeyError k)
  end.

(** [d.get(k, dflt)] *)
Definition get {V} (d : gmap string V) (k : string) (dflt : V) : V :=
  match d !! k with
  | Some v => v
  | None => dflt
  end.

(** [x < y] and [x > y] on numbers *)
Definition lt (x y : Q) : bool := negb (Qle_bool y x).
Definition gt (x y : Q) : bool := lt y x.
Definition ge (x y : Q) : bool := Qle_bool y x.

(** Truth value of a string and of a number. *)
Definition truthy_str (s : string) : bool :=
  match s with
  | EmptyString => false
  | String _ _ => true
  end.

(** [a or b] on numbers: [a] when it is non-zero, [b] otherwise. *)
Definition or_ (a b : Q) : Q := if Qeq_bool a 0 then b else a.

(** Nearest integer, ties to the even one. *)
Definition rint (x : Q) : Z :=
  let f := Qfloor x in
  match Qcompare (x - inject_Z f) (1 # 2) with
  | Lt => f
  | Gt => (f + 1)%Z
  | Eq => if Z.even f then f else (f + 1)%Z
  end.

Definition pow10 (ndigits : nat) : positive := Pos.pow 10 (Pos.of_nat ndigits).

(** [round(x, ndigits)] for [ndigits >= 1]; the result is kept in lowest
    terms, so that equal results are the same term. *)
Definition round (x : Q) (ndigits : nat) : Q :=
  Qred (rint (x * inject_Z (Zpos (pow10 ndigits))) # pow10 ndigits).

(** [int(x)]: truncation towards zero. *)
Definition int (x : Q) : Z := Z.quot (Qnum x) (Zpos (Qden x)).

(** [max(iterable)]: the first greatest element; [ValueError] on an
    empty iterable. *)
Definition max (l : list Q) : result Q :=
  match l with
  | [] => Raise ValueError
  | x :: l' => Ok (fold_left (fun m y => if gt y m then y else m) l' x)
  end.

(** [sorted(l, key=key, reverse=reverse)].  Python's sort is stable, also
    under [reverse=True]; a stable sort is determined by its input and
    the key order, so insertion sort computes the same list. *)
Section Sorted.
Context {A : Type} (key : A -> Q) (reverse : bool).

Definition key_le (a b : A) : bool :=
  if reverse then Qle_bool (key b) (key a) else Qle_bool (key a) (key b).

Fixpoint insert (x : A) (l : list A) : list A :=
  match l with
  | [] => [x]
  | y :: l' => if key_le x y then x :: y :: l' else y :: insert x l'
  end.

Fixpoint sorted (l : list A) : list A :=
  match l with
  | [] => []
  | x :: l' => insert x (sorted l')
  end.
End Sorted.

(** [set(l)] of numbers, as the list of its elements: one representative
    (the first) of each class of numerically equal elements.  The
    iteration order of a Python set is unspecified; every use below
    sorts the set at once. *)
Fixpoint set (l : list Q) : list Q :=
  match l with
  | [] => []
  | x :: l' => x :: List.filter (fun y => negb (Qeq_bool x y)) (set l')
  end.

Definition sum (l : list Q) : Q := fold_left Qplus l 0.

(** [np.mean(l)] on a non-empty list. *)
Definition mean (l : list Q) : Q := sum l / inject_Z (Z.of_nat (length l)).

Fixpoint foldM {S E} (body : S -> E -> result S) (l : list E) (s : S)
  : result S :=
  match l with
  | [] => Ok s
  | e :: l' => s' ← body s e; foldM body l' s'
  end.

End Py.

(** ** Binary64 arithmetic *)

Module Float.

Definition pow2 (e : Z) : Q := 2 ^ e.

(** The exponent [e] with [2^e <= |x| < 2^(e+1)], for [x] other than 0:
    the difference of the bit lengths of numerator and denominator, or
    one less. *)
Definition binade (x : Q) : Z :=
  let k := (Z.log2 (Z.abs (Qnum x)) - Z.log2 (Zpos (Qden x)))%Z in
  if Qle_bool (pow2 k) (Qabs x) then k else (k - 1)%Z.

(** The floats around [x] are the multiples of [2^quantum x]: a
    significand of 53 bits, and no exponent below that of the subnormal
    numbers. *)
Definition quantum (x : Q) : Z := Z.max (binade x - 52) (-1074).

(** The float nearest to [x], ties to the even significand.  Overflow to
    infinity is not modelled.  The result is in lowest terms. *)
Definition fl (x : Q) : Q :=
  Qred (inject_Z (Py.rint (x / pow2 (quantum x))) * pow2 (quantum x)).

(** [x * y] and [x - y] on floats: the float nearest to the exact result.
    An argument that is not a float itself, such as the rational 58/100
    for the literal [0.58], stands for the float nearest to it. *)
Definition mul (x y : Q) : Q := fl (fl x * fl y).
Definition sub (x y : Q) : Q := fl (fl x - fl y).

End Float.

(** ** [utils/beat_detection.py] *)

Module BeatDetection.

(** The divisor of one band: [max(e[band] for e in drum_events) or 1.0].
    The generator raises [KeyError] at the first event without the field
    and [max] raises [ValueError] when there is no event at all. *)
Definition band_max (band : string) (drum_events : list (gmap string Q))
  : Py.result Q :=
  energies ← mapM (fun e => Py.getitem e band) drum_events;
  m ← Py.max energies;
  mret (Py.or_ m 1).

(** The body of the normalising loop.  The event is updated in place;
    writing the same three fields twice gives the same dictionary, so
    an event object listed twice needs no separate store. *)
Definition normalize_event (max_kick max_snare max_hihat : Q)
    (event : gmap string Q) : Py.result (gmap string Q) :=
  k ← Py.getitem event "kick_energy";
  let event := <["kick_energy_norm" := k / max_kick]> event in
  s ← Py.getitem event "snare_energy";
  let event := <["snare_energy_norm" := s / max_snare]> event in
  h ← Py.getitem event "hihat_energy";
  let event := <["hihat_energy_norm" := h / max_hihat]> event in
  mret event.

Definition normalize_energies (drum_events : list (gmap string Q))
  : Py.result (list (gmap string Q)) :=
  max_kick ← band_max "kick_energy" drum_events;
  max_snare ← band_max "snare_energy" drum_events;
  max_hihat ← band_max "hihat_energy" drum_events;
  mapM (normalize_event max_kick max_snare max_hihat) drum_events.

(** [any(abs(beat_time - onset) < tolerance for onset in onset_times)],
    the difference being the binary64 one: 0.6 - 0.5 is below 0.1 there,
    so that a beat at 0.6 is dropped for an onset at 0.5 and a tolerance
    of 0.1. *)
Definition has_nearby_onset (onset_times : list Q) (tolerance beat_time : Q)
  : bool :=
  existsb (fun onset =>
             Py.lt (Qabs (Float.sub beat_time onset)) (Float.fl tolerance))
          onset_times.

Definition combine_beats_and_onsets (beat_times onset_times : list Q)
    (tolerance : Q) : list Q :=
  let combined_times := onset_times in
  let combined_times :=
    fold_left
      (fun combined_times beat_time =>
         if negb (has_nearby_onset onset_times tolerance beat_time)
         then combined_times ++ [beat_time]
         else combined_times)
      beat_times combined_times in
  Py.sorted (fun x => x) false
    (Py.set (map (fun x => Py.round x 3) combined_times)).

End BeatDetection.

(** ** [utils/chart_generator.py] *)

Module ChartGenerator.

Record Note : Type := mkNote {
  time : Q;
  type : string;
  velocity : Q
}.

Record Metadata : Type := mkMetadata {
  generatedBy : string;
  noteCount : nat;
  leftCount : nat;
  rightCount : nat;
  bothCount : nat;
  averageInterval : Q
}.

Record Chart : Type := mkChart {
  songId : string;
  difficulty : string;
  notes : list Note;
  metadata : Metadata
}.

(** Lines 49-61: the [if]/[elif] chain, one definition per arm so that
    the tail of the chain has a name.  [mapping[...]] is evaluated in
    the arm taken only; with no arm taken, [note_type] stays [None] and
    [velocity] stays [0]. *)
Definition hihat_arm (hihat_threshold : Q) (mapping : gmap string string)
    (hihat_norm : Q) : Py.result (option string * Q) :=
  if Py.gt hihat_norm hihat_threshold then
    note_type ← Py.getitem mapping "hihat"; mret (Some note_type, hihat_norm)
  else mret (None, 0).

Definition snare_arm (snare_threshold hihat_threshold : Q)
    (mapping : gmap string string) (snare_norm hihat_norm : Q)
  : Py.result (option string * Q) :=
  if Py.gt snare_norm snare_threshold then
    note_type ← Py.getitem mapping "snare"; mret (Some note_type, snare_norm)
  else hihat_arm hihat_threshold mapping hihat_norm.

Definition decide_note_type (kick_threshold snare_threshold hihat_threshold : Q)
    (mapping : gmap string string) (kick_norm snare_norm hihat_norm : Q)
  : Py.result (option string * Q) :=
  if Py.gt kick_norm kick_threshold then
    note_type ← Py.getitem mapping "kick"; mret (Some note_type, kick_norm)
  else snare_arm snare_threshold hihat_threshold mapping snare_norm hihat_norm.

(** One iteration of the [for event in drum_events] loop; the state is
    the pair [(notes, last_time)]. *)
Definition loop_body (kick_threshold snare_threshold hihat_threshold
    min_interval : Q) (mapping : gmap string string)
    (st : list Note * Q) (event : gmap string Q)
  : Py.result (list Note * Q) :=
  let '(notes, last_time) := st in
  time ← Py.getitem event "time";
  if Py.lt (time - last_time) min_interval then mret (notes, last_time)
  else
    let kick_norm := Py.get event "kick_energy_norm" 0 in
    let snare_norm := Py.get event "snare_energy_norm" 0 in
    let hihat_norm := Py.get event "hihat_energy_norm" 0 in
    '(note_type, velocity) ←
      decide_note_type kick_threshold snare_threshold hihat_threshold
        mapping kick_norm snare_norm hihat_norm;
    (* [if note_type:] is false for [None] and for the empty string *)
    match note_type with
    | Some ty =>
        if Py.truthy_str ty
        then mret (notes ++ [mkNote (Py.round time 3) ty (Py.round velocity 2)],
                   time)
        else mret (notes, last_time)
    | None => mret (notes, last_time)
    end.

(** [sum(1 for n in notes if n["type"] == label)] *)
Definition count_type (label : string) (notes : list Note) : nat :=
  length (List.filter (fun n => String.eqb (type n) label) notes).

(** [[notes[i]["time"] - notes[i-1]["time"] for i in range(1, len(notes))]] *)
Fixpoint intervals (notes : list Note) : list Q :=
  match notes with
  | a :: (b :: _) as rest => (time b - time a) :: intervals rest
  | _ => []
  end.

(** [round(np.mean([...]), 3) if len(notes) > 1 else 0].  The mean is the
    exact one.  numpy adds and divides in binary64, in an order and with
    a rounding of the result that depend on its version; its value is
    the one below unless the mean is within that rounding error of the
    middle between two multiples of 0.001, where it can be the other of
    the two. *)
Definition average_interval (notes : list Note) : Q :=
  if (1 <? length notes)%nat then Py.round (Py.mean (intervals notes)) 3
  else 0.

Definition generate_chart (drum_events : list (gmap string Q))
    (difficulty_config : gmap string Q) (mapping : gmap string string)
    (song_id difficulty : string) : Py.result Chart :=
  kick_threshold ← Py.getitem difficulty_config "kick_threshold";
  snare_threshold ← Py.getitem difficulty_config "snare_threshold";
  hihat_threshold ← Py.getitem difficulty_config "hihat_threshold";
  min_interval ← Py.getitem difficulty_config "min_interval";
  '(notes, _) ←
    Py.foldM (loop_body kick_threshold snare_threshold hihat_threshold
                min_interval mapping)
             drum_events ([], - (999 # 1));
  let left_count := count_type "left" notes in
  let right_count := count_type "right" notes in
  let both_count := count_type "both" notes in
  mret (mkChart song_id difficulty notes
          (mkMetadata "algorithm" (length notes) left_count right_count
             both_count (average_interval notes))).

(** The messages of [validate_chart], by kind and by the values the
    f-string interpolates; the formatting of the text is not modelled. *)
Inductive Issue : Type :=
| EmptyChart
| NegativeTime (i : nat) (t : Q)
| BeyondDuration (i : nat) (t audio_duration : Q)
| VelocityOutOfRange (i : nat) (v : Q)
| InvalidType (i : nat) (ty : string)
| IntervalTooShort (i_prev i : nat) (interval : Q).

(** [ty in ["left", "right", "both"]] *)
Definition valid_type (ty : string) : bool :=
  String.eqb ty "left" || String.eqb ty "right" || String.eqb ty "both".

(** The body of [for i, note in enumerate(notes)].  For [i > 0] the
    index [i - 1] is in range, the [None] branch is never taken.  The
    interval is the exact difference of the two times; the binary64
    difference the code compares with [0.15] is within rounding error of
    it, which matters for two times exactly 0.150 apart only. *)
Definition check_note (notes : list Note) (audio_duration : Q)
    (issues : list Issue) (i : nat) (note : Note) : list Issue :=
  let issues :=
    if Py.lt (time note) 0
    then issues ++ [NegativeTime i (time note)] else issues in
  let issues :=
    if Py.gt (time note) audio_duration
    then issues ++ [BeyondDuration i (time note) audio_duration]
    else issues in
  let issues :=
    if negb (Qle_bool 0 (velocity note) && Qle_bool (velocity note) 1)
    then issues ++ [VelocityOutOfRange i (velocity note)] else issues in
  let issues :=
    if negb (valid_type (type note))
    then issues ++ [InvalidType i (type note)] else issues in
  if (0 <? i)%nat then
    match notes !! (i - 1)%nat with
    | Some prev =>
        let interval := time note - time prev in
        if Py.lt interval (15 # 100)
        then issues ++ [IntervalTooShort (i - 1) i interval] else issues
    | None => issues
    end
  else issues.

Fixpoint validate_loop (notes : list Note) (audio_duration : Q) (i : nat)
    (rest : list Note) (issues : list Issue) : list Issue :=
  match rest with
  | [] => issues
  | note :: rest' =>
      validate_loop notes audio_duration (S i) rest'
        (check_note notes audio_duration issues i note)
  end.

Definition validate_chart (chart : Chart) (audio_duration : Q) : list Issue :=
  let issues := [] in
  match notes chart with
  | [] => issues ++ [EmptyChart]
  | _ => validate_loop (notes chart) audio_duration 0 (notes chart) issues
  end.

(** [max(1, int(len(notes) * target_density))], the product being the
    binary64 one: 50 * 0.58 is 28.999999999999996 there, and its integer
    part 28. *)
Definition target_count (notes : list Note) (target_density : Q) : Z :=
  Z.max 1
    (Py.int (Float.mul (inject_Z (Z.of_nat (length notes))) target_density)).

Definition apply_density_filter (notes : list Note) (target_density : Q)
  : list Note :=
  if Py.ge target_density 1 then notes
  else
    let sorted_notes := Py.sorted velocity true notes in
    let selected_notes :=
      take (Z.to_nat (target_count notes target_density)) sorted_notes in
    Py.sorted time false selected_notes.

End ChartGenerator.

(** ** [3_generate_chart.py] *)

Module GenerateChart.
Import ChartGenerator.

(** [generate_for_difficulty] from the call of [generate_chart] to the
    call of [validate_chart].  The values read from files
    ([analysis_data['events']], [metadata['duration']], the difficulty
    entry and the mapping of the configuration) are parameters; the
    result is the chart that is then written with [json.dump], with the
    issue list. *)
Definition generate_for_difficulty (events : list (gmap string Q))
    (audio_duration : Q) (difficulty_config : gmap string Q)
    (mapping : gmap string string) (song_id difficulty : string)
  : Py.result (Chart * list Issue) :=
  chart ← generate_chart events difficulty_config mapping song_id difficulty;
  let note_density := Py.get difficulty_config "note_density" 1 in
  let chart :=
    if Py.lt note_density 1 then
      let notes' := apply_density_filter (notes chart) note_density in
      let md := metadata chart in
      mkChart (songId chart) (ChartGenerator.difficulty chart) notes'
        (mkMetadata (generatedBy md) (length notes') (leftCount md)
           (rightCount md) (bothCount md) (averageInterval md))
    else chart in
  let issues := validate_chart chart audio_duration in
  mret (chart, issues).

End GenerateChart.

(** ** Definitions that follow the words of the specification *)

Module Spec.
Import ChartGenerator.


(** "counts must partition notes exactly by type" *)
Definition counts_partition (c : Chart) : Prop :=
  leftCount (metadata c) = count_type "left" (notes c) /\
  rightCount (metadata c) = count_type "right" (notes c) /\
  bothCount (metadata c) = count_type "both" (notes c) /\
  (leftCount (metadata c) + rightCount (metadata c)
     + bothCount (metadata c) = length (notes c))%nat.

(** "max(1, floor(len(notes)*d))" *)
Definition density_count (notes : list Note) (d : Q) : Z :=
  Z.max 1 (Qfloor (inject_Z (Z.of_nat (length notes)) * d)).

End Spec.

(** ** Concrete inputs *)

Module Examples.
Import ChartGenerator.

(** An analysed event, as stored in [drum_analysis.json] (the raw
    energies play no role in the chart and are left out). *)
Definition event (t kick_norm snare_norm hihat_norm : Q) : gmap string Q :=
  <["time" := t]>
    (<["kick_energy_norm" := kick_norm]>
       (<["snare_energy_norm" := snare_norm]>
          (<["hihat_energy_norm" := hihat_norm]> ∅))).

Definition raw_event (t kick snare hihat : Q) : gmap string Q :=
  <["time" := t]>
    (<["kick_energy" := kick]>
       (<["snare_energy" := snare]> (<["hihat_energy" := hihat]> ∅))).

Definition difficulty_config (threshold min_interval : Q) : gmap string Q :=
  <["kick_threshold" := threshold]>
    (<["snare_threshold" := threshold]>
       (<["hihat_threshold" := threshold]>
          (<["min_interval" := min_interval]> ∅))).

(** The conventional mapping. *)
Definition mapping : gmap string string :=
  <["kick" := "both"]> (<["snare" := "right"]> (<["hihat" := "left"]> ∅)).

(** The easy difficulty used below: every threshold 0.5, notes at least
    0.1 s apart, no density filter. *)
Definition config_easy : gmap string Q := difficulty_config (1 # 2) (1 # 10).

(** The same with [note_density = 0.5]. *)
Definition config_sparse : gmap string Q :=
  <["note_density" := 1 # 2]> config_easy.

(** Four hits: two kicks, a snare, a hihat. *)
Definition four_events : list (gmap string Q) :=
  [event 0 (9 # 10) (1 # 10) (1 # 10);
   event (2 # 10) (8 # 10) (1 # 10) (1 # 10);
   event (4 # 10) (1 # 10) (7 # 10) (1 # 10);
   event (8 # 10) (1 # 10) (1 # 10) (6 # 10)].

Definition four_notes : list Note :=
  [mkNote 0 "both" (9 # 10);
   mkNote (1 # 5) "both" (4 # 5);
   mkNote (2 # 5) "right" (7 # 10);
   mkNote (4 # 5) "left" (3 # 5)].

Definition four_chart : Chart :=
  mkChart "demo" "easy" four_notes
    (mkMetadata "algorithm" 4 1 1 2 (267 # 1000)).

(** The chart written for [config_sparse]: two notes are left, the counts
    and the average are those of the four notes. *)
Definition sparse_chart : Chart :=
  mkChart "demo" "easy"
    [mkNote 0 "both" (9 # 10); mkNote (1 # 5) "both" (4 # 5)]
    (mkMetadata "algorithm" 2 1 1 2 (267 # 1000)).

(** An event with all three energies above 0.5, 0.05 s after a note. *)
Definition first_note : Note := mkNote 0 "both" (9 # 10).
Definition close_event : gmap string Q :=
  event (5 # 100) (9 # 10) (9 # 10) (9 # 10).

(** Events 1 s after the last note: snare only, hihat only, nothing
    above 0.5, and one without a kick field. *)
Definition snare_event : gmap string Q := event 1 (1 # 2) (9 # 10) (9 # 10).
Definition hihat_event : gmap string Q := event 1 (1 # 10) (1 # 2) (6 # 10).
Definition quiet_event : gmap string Q := event 1 (1 # 2) (1 # 2) (1 # 2).
Definition no_kick_event : gmap string Q :=
  <["time" := 1]> (<["snare_energy_norm" := 9 # 10]> ∅).

(** A chart with a note one second after the end of a 3 s track, a
    velocity of 2, an unknown type and two notes 0.1 s apart. *)
Definition odd_chart : Chart :=
  mkChart "demo" "easy"
    [mkNote 0 "up" (9 # 10); mkNote (1 # 10) "left" 2;
     mkNote 4 "both" (7 # 10)]
    (mkMetadata "algorithm" 3 1 0 1 2).

(** An event that has a time and nothing else. *)
Definition bare_event : gmap string Q := <["time" := 0]> ∅.

(** The notes of the density scenario of the specification. *)
Definition three_notes : list Note :=
  [mkNote 0 "both" (9 # 10); mkNote 1 "right" (2 # 10);
   mkNote 2 "left" (7 # 10)].

Definition raw_events : list (gmap string Q) :=
  [raw_event 0 2 0 1; raw_event 1 4 0 3].

(** Fifty notes alike. *)
Definition fifty_notes : list Note := replicate 50 (mkNote 0 "left" 1).

End Examples.

(** ** Predicates used in the statements *)

Module Inv.
Import ChartGenerator.

(** Consecutive elements are at least [m] apart. *)
Fixpoint spaced (m : Q) (l : list Q) : Prop :=
  match l with
  | a :: (b :: _) as rest => m <= b - a /\ spaced m rest
  | _ => True
  end.

(** [t] is the time field of one of the events. *)
Definition event_time (events : list (gmap string Q)) (t : Q) : Prop :=
  exists e, In e events /\ e !! "time" = Some t.

(** The state of the scan against the unrounded times accepted so far. *)
Definition scan_inv (m : Q) (events : list (gmap string Q))
    (accepted : list Q) (st : list Note * Q) : Prop :=
  time <$> st.1 = (fun t => Py.round t 3) <$> accepted /\
  spaced m accepted /\
  (forall a, last accepted = Some a -> a = st.2) /\
  Forall (event_time events) accepted.

(** The raw field of each band with the field its normalised value is
    written to. *)
Definition bands : list (string * string) :=
  [("kick_energy", "kick_energy_norm");
   ("snare_energy", "snare_energy_norm");
   ("hihat_energy", "hihat_energy_norm")].

(** A DrumEvent of the data model before normalisation: the three raw
    energies are present and not negative. *)
Definition raw_event_ok (e : gmap string Q) : Prop :=
  forall raw norm, In (raw, norm) bands ->
    exists v, e !! raw = Some v /\ 0 <= v.

End Inv.

(** ** Preconditions and provenance of notes *)

Module Pre.
Import ChartGenerator.

(** The four entries [generate_chart] reads from a difficulty entry. *)
Definition complete_config (cfg : gmap string Q) : Prop :=
  Forall (fun k => is_Some (cfg !! k))
    ["kick_threshold"; "snare_threshold"; "hihat_threshold"; "min_interval"].

(** The three entries [generate_chart] may read from the mapping. *)
Definition complete_mapping (mapping : gmap string string) : Prop :=
  Forall (fun k => is_Some (mapping !! k)) ["kick"; "snare"; "hihat"].

(** The note [n] was emitted for the event [e]: its time is the rounded
    event time, its label is the non-empty mapping entry of a category
    whose energy in [e] is above the threshold, and its velocity is that
    energy rounded. *)
Definition note_source (kick_threshold snare_threshold hihat_threshold : Q)
    (mapping : gmap string string) (e : gmap string Q) (n : Note) : Prop :=
  exists t,
    e !! "time" = Some t /\ time n = Py.round t 3 /\ type n <> "" /\
    ((mapping !! "kick" = Some (type n) /\
      kick_threshold < Py.get e "kick_energy_norm" 0 /\
      velocity n = Py.round (Py.get e "kick_energy_norm" 0) 2) \/
     (mapping !! "snare" = Some (type n) /\
      snare_threshold < Py.get e "snare_energy_norm" 0 /\
      velocity n = Py.round (Py.get e "snare_energy_norm" 0) 2) \/
     (mapping !! "hihat" = Some (type n) /\
      hihat_threshold < Py.get e "hihat_energy_norm" 0 /\
      velocity n = Py.round (Py.get e "hihat_energy_norm" 0) 2)).

(** The normalised energies of an event, as the classifier reads them,
    are at most 1. *)
Definition norms_at_most_one (e : gmap string Q) : Prop :=
  Py.get e "kick_energy_norm" 0 <= 1 /\
  Py.get e "snare_energy_norm" 0 <= 1 /\
  Py.get e "hihat_energy_norm" 0 <= 1.

(** The normalised energies of an event, as the classifier reads them,
    are not negative. *)
Definition norms_nonneg (e : gmap string Q) : Prop :=
  0 <= Py.get e "kick_energy_norm" 0 /\
  0 <= Py.get e "snare_energy_norm" 0 /\
  0 <= Py.get e "hihat_energy_norm" 0.

(** Every label of the mapping is one the validator accepts. *)
Definition valid_mapping (mapping : gmap string string) : Prop :=
  forall cat ty, mapping !! cat = Some ty -> valid_type ty = true.

(** A note passes every check of the validator that looks at one note. *)
Definition note_in_range (audio_duration : Q) (n : Note) : Prop :=
  0 <= time n /\ time n <= audio_duration /\
  0 <= velocity n /\ velocity n <= 1 /\ valid_type (type n) = true.

(** Consecutive notes are at least 0.15 s apart. *)
Fixpoint playable_gaps (notes : list Note) : Prop :=
  match notes with
  | a :: (b :: _) as rest => 15 # 100 <= time b - time a /\ playable_gaps rest
  | _ => True
  end.

(** What an issue of the validator says about the notes. *)
Definition issue_justified (notes : list Note) (audio_duration : Q)
    (x : Issue) : Prop :=
  match x with
  | EmptyChart => notes = []
  | NegativeTime i t =>
      exists n, notes !! i = Some n /\ t = time n /\ t < 0
  | BeyondDuration i t d =>
      exists n, notes !! i = Some n /\ t = time n /\ d = audio_duration /\
                audio_duration < t
  | VelocityOutOfRange i v =>
      exists n, notes !! i = Some n /\ v = velocity n /\
                ~ (0 <= v /\ v <= 1)
  | InvalidType i ty =>
      exists n, notes !! i = Some n /\ ty = type n /\ valid_type ty = false
  | IntervalTooShort j i interval =>
      i = S j /\
      exists prev n, notes !! j = Some prev /\ notes !! i = Some n /\
                     interval = time n - time prev /\ interval < 15 # 100
  end.

End Pre.

(** ** More of Python: further exceptions, [min] and [max] of two numbers *)

Module PyX.

(** The exceptions of [Py] and those the functions below can raise. *)
Inductive error : Type :=
| Base (e : Py.exn)
| IndexError
| ZeroDivisionError
| TypeError
| AttributeError.

Inductive outcome (A : Type) : Type :=
| Done (a : A)
| Fail (e : error).
Arguments Done {A} a.
Arguments Fail {A} e.

#[global] Instance outcome_ret : MRet outcome := fun _ a => Done a.
#[global] Instance outcome_bind : MBind outcome := fun _ _ f m =>
  match m with
  | Done a => f a
  | Fail e => Fail e
  end.

Definition lift {A} (r : Py.result A) : outcome A :=
  match r with
  | Py.Ok a => Done a
  | Py.Raise e => Fail (Base e)
  end.

(** [d[k]] *)
Definition getitem {V} (d : gmap string V) (k : string) : outcome V :=
  lift (Py.getitem d k).

(** [min(a, b)] and [max(a, b)]: the first argument unless the second is
    strictly smaller, respectively greater. *)
Definition min (a b : Q) : Q := if Py.lt b a then b else a.
Definition max (a b : Q) : Q := if Py.gt b a then b else a.

End PyX.

(** ** [utils/beat_detection.py]: [analyze_drum_hits] *)

Module DrumAnalysis.

(** [S = np.abs(librosa.stft(y))]: a rectangular array, one row per
    frequency bin and one column per frame. *)
Record Spectrogram : Type := mkSpectrogram {
  n_bins : nat;
  n_frames : nat;
  magnitude : nat -> nat -> Q
}.

Section Analyze.

(** What the function gets from librosa: the magnitudes, the frequency of
    each bin ([librosa.fft_frequencies], one per row of [S]) and the
    frame of a time ([librosa.time_to_frames]). *)
Variable S : Spectrogram.
Variable freqs : nat -> Q.
Variable time_to_frames : Q -> Z.

(** [(freqs >= freq_bands[name]['min']) & (freqs <= freq_bands[name]['max'])] *)
Definition band_mask (freq_bands : gmap string (gmap string Q))
    (name : string) : PyX.outcome (nat -> bool) :=
  band ← PyX.getitem freq_bands name;
  lo ← PyX.getitem band "min";
  band ← PyX.getitem freq_bands name;
  hi ← PyX.getitem band "max";
  mret (fun i => Qle_bool lo (freqs i) && Qle_bool (freqs i) hi).

(** The column an index selects on the frame axis: from the end when it
    is negative, [IndexError] outside [-n_frames, n_frames).  (For a mask
    that selects no bin some numpy versions skip the bounds check; no
    property below is about that case.) *)
Definition column (frame : Z) : PyX.outcome nat :=
  let n := Z.of_nat (n_frames S) in
  if (0 <=? frame)%Z && (frame <? n)%Z then mret (Z.to_nat frame)
  else if (- n <=? frame)%Z && (frame <? 0)%Z then mret (Z.to_nat (frame + n))
  else PyX.Fail PyX.IndexError.

(** [np.sum(S[mask, frame])] *)
Definition band_energy (mask : nat -> bool) (col : nat) : Q :=
  Py.sum (map (fun i => magnitude S i col)
              (List.filter mask (seq 0 (n_bins S)))).

(** The body of [for beat_time in beat_times]. *)
Definition analyze_beat (kick_mask snare_mask hihat_mask : nat -> bool)
    (beat_time : Q) : PyX.outcome (gmap string Q) :=
  let frame := time_to_frames beat_time in
  let frame :=
    if (Z.of_nat (n_frames S) <=? frame)%Z
    then (Z.of_nat (n_frames S) - 1)%Z else frame in
  col ← column frame;
  let kick_energy := band_energy kick_mask col in
  let snare_energy := band_energy snare_mask col in
  let hihat_energy := band_energy hihat_mask col in
  mret (<["time" := beat_time]>
          (<["kick_energy" := kick_energy]>
             (<["snare_energy" := snare_energy]>
                (<["hihat_energy" := hihat_energy]> ∅)))).

Definition analyze_drum_hits (beat_times : list Q)
    (freq_bands : gmap string (gmap string Q))
  : PyX.outcome (list (gmap string Q)) :=
  kick_mask ← band_mask freq_bands "kick";
  snare_mask ← band_mask freq_bands "snare";
  hihat_mask ← band_mask freq_bands "hihat";
  mapM (analyze_beat kick_mask snare_mask hihat_mask) beat_times.

End Analyze.

(** The three bands are configured, each with its two bounds. *)
Definition complete_bands (freq_bands : gmap string (gmap string Q)) : Prop :=
  Forall (fun name => exists band lo hi,
            freq_bands !! name = Some band /\
            band !! "min" = Some lo /\ band !! "max" = Some hi)
    ["kick"; "snare"; "hihat"].

End DrumAnalysis.

(** ** [render_chart_audio.py] *)

Module RenderChartAudio.

(** [velocity_gain_db(velocity)]; [None] is a note without velocity. *)
Definition velocity_gain_db (velocity : option Q) : Q :=
  match velocity with
  | None => 0
  | Some velocity =>
      let v := PyX.max 0 (PyX.min 1 velocity) in
      - (12 # 1) * (1 - v)
  end.

(** [start_ms = max(0, int(t_s * 1000))] *)
Definition start_ms (t_s : Q) : Z := Z.max 0 (Py.int (t_s * 1000)).

End RenderChartAudio.

(** ** [generate_drum_chart_llm.py]: cleaning the notes of the answer *)

Module LlmChart.

(** What [json.loads] returns.  Numbers are exact; NaN and the
    infinities that [json.loads] also accepts are outside the model. *)
#[warnings="-register-all"] Inductive json : Type :=
| JNull
| JBool (b : bool)
| JNum (q : Q)
| JStr (s : string)
| JArr (l : list json)
| JObj (o : gmap string json).

(** A cleaned note: [velocity] is a key only when the answer gave one. *)
Record Note : Type := mkNote {
  time : Q;
  drum : string;
  hand : string;
  velocity : option Q
}.

Definition allowed_drums : list string :=
  ["kick"; "snare"; "hihat"; "crash"; "ride"; "tom"].

Section Clean.

(** Three builtins on values this model leaves abstract: [float(s)] on a
    string ([None] where it raises [ValueError]), [str(v)] and
    [str.lower]. *)
Variable parse_float : string -> option Q.
Variable str : json -> string.
Variable lower : string -> string.

(** [float(v)]; [None] where it raises ([TypeError] on null, lists and
    objects, [ValueError] on a string that is no number). *)
Definition float (v : json) : option Q :=
  match v with
  | JNum q => Some q
  | JBool b => Some (if b then 1 else 0)
  | JStr s => parse_float s
  | JNull | JArr _ | JObj _ => None
  end.

(** [n.get(key, dflt)] on an object. *)
Definition get (o : gmap string json) (key : string) (dflt : json) : json :=
  match o !! key with
  | Some v => v
  | None => dflt
  end.

(** The body of [for n in notes]; [None] stands for [continue], reached
    by the test on the drum and by [except Exception].  A value that is
    no object has no [get]: [AttributeError], caught. *)
Definition clean_note (duration : Q) (n : json) : option Note :=
  match n with
  | JObj o =>
      t ← float (get o "time" (JNum 0));
      let t := PyX.max 0 (PyX.min duration t) in
      let drum := lower (str (get o "drum" (JStr ""))) in
      if negb (existsb (String.eqb drum) allowed_drums) then None
      else
        let hand := str (get o "hand" (JStr "right")) in
        match get o "velocity" JNull with
        | JNull => Some (mkNote t drum hand None)
        | vel =>
            vel ← float vel;
            let vel := PyX.max 0 (PyX.min 1 vel) in
            Some (mkNote t drum hand (Some vel))
        end
  | _ => None
  end.

(** Lines 123-145: from the parsed answer to the sorted, cleaned notes.
    [data.get] needs an object; iterating over a string or an object
    gives strings, which the loop skips; null, booleans and numbers are
    not iterable. *)
Definition post_process (duration : Q) (data : json)
  : PyX.outcome (list Note) :=
  match data with
  | JObj o =>
      match get o "notes" (JArr []) with
      | JArr notes =>
          mret (Py.sorted time false (omap (clean_note duration) notes))
      | JStr _ | JObj _ => mret (Py.sorted time false [])
      | JNull | JBool _ | JNum _ => PyX.Fail PyX.TypeError
      end
  | _ => PyX.Fail PyX.AttributeError
  end.

End Clean.

End LlmChart.

(** ** [visualize_chart.py]: the statistics *)

Module VisualizeChart.

(** The numbers the function prints after the figure is saved. *)
Record Stats : Type := mkStats {
  total : nat;
  duration : Q;
  density : Q;
  left_share : Q;
  right_share : Q;
  both_share : Q;
  interval_stats : option (Q * Q * Q)
}.

(** [color_map[t]] *)
Definition color (t : string) : PyX.outcome string :=
  if String.eqb t "left" then mret "#4facfe"
  else if String.eqb t "right" then mret "#ff6b9d"
  else if String.eqb t "both" then mret "#00ff88"
  else PyX.Fail (PyX.Base (Py.KeyError t)).

(** [max] and [min] of a list with a first element. *)
Definition max_of (x : Q) (l : list Q) : Q :=
  fold_left (fun m y => if Py.gt y m then y else m) l x.
Definition min_of (x : Q) (l : list Q) : Q :=
  fold_left (fun m y => if Py.lt y m then y else m) l x.

(** [a / b] on floats. *)
Definition div (a b : Q) : PyX.outcome Q :=
  if Qeq_bool b 0 then PyX.Fail PyX.ZeroDivisionError else mret (a / b).

Definition share (part whole : nat) : Q :=
  inject_Z (Z.of_nat part) / inject_Z (Z.of_nat whole) * 100.

(** [visualize_chart] on the notes of the chart it has read.  The calls
    into matplotlib are taken to return; [None] is the early return on a
    chart without notes. *)
Definition visualize_chart (notes : list ChartGenerator.Note)
  : PyX.outcome (option Stats) :=
  match notes with
  | [] => mret None
  | first :: others =>
      let times := map ChartGenerator.time notes in
      let types := map ChartGenerator.type notes in
      _ ← mapM color types;
      let n_left := ChartGenerator.count_type "left" notes in
      let n_right := ChartGenerator.count_type "right" notes in
      let n_both := ChartGenerator.count_type "both" notes in
      let latest :=
        max_of (ChartGenerator.time first) (map ChartGenerator.time others) in
      density ← div (inject_Z (Z.of_nat (length notes))) latest;
      let intervals := ChartGenerator.intervals notes in
      let interval_stats :=
        match intervals with
        | [] => None
        | i :: rest =>
            Some (min_of i rest, max_of i rest,
                  Py.sum intervals / inject_Z (Z.of_nat (length intervals)))
        end in
      mret (Some (mkStats (length notes) latest density
                    (share n_left (length notes))
                    (share n_right (length notes))
                    (share n_both (length notes)) interval_stats))
  end.

End VisualizeChart.

(** ** More concrete inputs *)

Module MoreExamples.

(** A difficulty with notes at least 0.2 s apart. *)
Definition config_spaced : gmap string Q :=
  Examples.difficulty_config (1 # 2) (2 # 10).

(** Three frequency bins at 100, 200 and 300 Hz over two frames. *)
Definition spectrogram : DrumAnalysis.Spectrogram :=
  DrumAnalysis.mkSpectrogram 3 2
    (fun i j => inject_Z (Z.of_nat (i + 2 * j))).

Definition bin_frequency (i : nat) : Q := inject_Z (Z.of_nat (100 * (i + 1))).

(** Two frames per second. *)
Definition frame_of (t : Q) : Z := Qfloor (t * 2).

Definition band (lo hi : Q) : gmap string Q :=
  <["min" := lo]> (<["max" := hi]> ∅).

Definition freq_bands : gmap string (gmap string Q) :=
  <["kick" := band 0 150]>
    (<["snare" := band 150 250]> (<["hihat" := band 250 1000]> ∅)).

(** The last beat lies after the last frame. *)
Definition beat_times : list Q := [0; 1 # 2; 3].

(** Stand-ins for the three builtins of the cleaning: no string is a
    number, [str] of a string is the string, [lower] changes nothing. *)
Definition parse_float (s : string) : option Q := None.
Definition str (v : LlmChart.json) : string :=
  match v with
  | LlmChart.JStr s => s
  | _ => ""
  end.
Definition lower (s : string) : string := s.

(** An answer with a late and loud snare, an early kick, a string in the
    place of a note and a drum that is not known. *)
Definition answer_notes : list LlmChart.json :=
  [LlmChart.JObj (<["time" := LlmChart.JNum 2]>
                    (<["drum" := LlmChart.JStr "snare"]>
                       (<["velocity" := LlmChart.JNum (3 # 2)]> ∅)));
   LlmChart.JObj (<["time" := LlmChart.JNum (- (1))]>
                    (<["drum" := LlmChart.JStr "kick"]> ∅));
   LlmChart.JStr "kick";
   LlmChart.JObj (<["drum" := LlmChart.JStr "cowbell"]> ∅)].

Definition answer_object : gmap string LlmChart.json :=
  <["notes" := LlmChart.JArr answer_notes]> ∅.

Definition answer_cleaned : list LlmChart.Note :=
  [LlmChart.mkNote 0 "kick" "right" None;
   LlmChart.mkNote 1 "snare" "right" (Some 1)].

(** The events [normalize_energies] returns for [Examples.raw_events]. *)
Definition normalized_events : list (gmap string Q) :=
  Eval vm_compute in
    match BeatDetection.normalize_energies Examples.raw_events with
    | Py.Ok events => events
    | Py.Raise _ => []
    end.

End MoreExamples.

(** * Properties *)

(** ** Comparisons and rounding *)

Section Numbers.

Lemma lt_true (x y : Q) : Py.lt x y = true <-> x < y.
Proof.
  unfold Py.lt. rewrite negb_true_iff, <- not_true_iff_false, Qle_bool_iff.
  split; [apply Qnot_le_lt | apply Qlt_not_le].
Qed.

Lemma lt_false (x y : Q) : Py.lt x y = false <-> y <= x.
Proof.
  unfold Py.lt. rewrite negb_false_iff. apply Qle_bool_iff.
Qed.

Lemma gt_true (x y : Q) : Py.gt x y = true <-> y < x.
Proof. apply lt_true. Qed.

Lemma gt_false (x y : Q) : Py.gt x y = false <-> x <= y.
Proof. apply lt_false. Qed.

Lemma ge_true (x y : Q) : Py.ge x y = true <-> y <= x.
Proof. apply Qle_bool_iff. Qed.

Lemma ge_false (x y : Q) : Py.ge x y = false <-> x < y.
Proof.
  unfold Py.ge. rewrite <- not_true_iff_false, Qle_bool_iff.
  split; [apply Qnot_le_lt | apply Qlt_not_le].
Qed.

(** The nearest integer is at distance at most one half. *)
Lemma rint_error (x : Q) :
  - (1 # 2) <= inject_Z (Py.rint x) - x <= 1 # 2.
Proof.
  pose proof (Qfloor_le x) as Hlo.
  pose proof (Qlt_floor x) as Hhi.
  rewrite inject_Z_plus in Hhi.
  change (inject_Z 1) with 1 in Hhi.
  unfold Py.rint.
  destruct (Qcompare_spec (x - inject_Z (Qfloor x)) (1 # 2)) as [He | Hl | Hg].
  - destruct (Z.even (Qfloor x)).
    + lra.
    + rewrite inject_Z_plus. change (inject_Z 1) with 1. lra.
  - lra.
  - rewrite inject_Z_plus. change (inject_Z 1) with 1. lra.
Qed.

Lemma rint_comp (x y : Q) : x == y -> Py.rint x = Py.rint y.
Proof.
  intros H. unfold Py.rint.
  rewrite (Qfloor_comp _ _ H).
  assert (x - inject_Z (Qfloor y) == y - inject_Z (Qfloor y)) as E
    by (rewrite H; reflexivity).
  rewrite (Qcompare_comp _ _ E _ _ (Qeq_refl (1 # 2))). reflexivity.
Qed.

Lemma rint_inject_Z (z : Z) : Py.rint (inject_Z z) = z.
Proof.
  unfold Py.rint. rewrite Qfloor_Z.
  assert (inject_Z z - inject_Z z == 0) as E by ring.
  rewrite (Qcompare_comp _ _ E _ _ (Qeq_refl (1 # 2))). reflexivity.
Qed.

Lemma Qmake_scaled (z : Z) (p : positive) :
  (z # p) * inject_Z (Zpos p) == inject_Z z.
Proof.
  unfold Qeq, Qmult, inject_Z. simpl. lia.
Qed.

(** Rounding twice is rounding once: a rounded value is the same term. *)
Lemma round_idempotent (x : Q) (n : nat) :
  Py.round (Py.round x n) n = Py.round x n.
Proof.
  unfold Py.round at 1 3.
  set (z := Py.rint (x * inject_Z (Z.pos (Py.pow10 n)))).
  apply Qred_complete.
  assert (Py.rint (Py.round x n * inject_Z (Z.pos (Py.pow10 n))) = z) as ->;
    [| reflexivity].
  rewrite <- (rint_inject_Z z). apply rint_comp.
  unfold Py.round. fold z. rewrite Qred_correct. apply Qmake_scaled.
Qed.

Lemma round_comp (x y : Q) (n : nat) : x == y -> Py.round x n = Py.round y n.
Proof.
  intros H. unfold Py.round. f_equal. f_equal.
  apply rint_comp. rewrite H. reflexivity.
Qed.

(** Millisecond rounding moves a time by at most half a millisecond. *)
Lemma round3_error (x : Q) :
  - (1 # 2000) <= Py.round x 3 - x <= 1 # 2000.
Proof.
  unfold Py.round. rewrite Qred_correct.
  change (Py.pow10 3) with 1000%positive.
  pose proof (rint_error (x * inject_Z 1000)) as H.
  pose proof (Qmake_scaled (Py.rint (x * inject_Z 1000)) 1000) as E.
  set (r := Py.rint (x * inject_Z 1000) # 1000) in *.
  rewrite <- E in H.
  change (inject_Z 1000) with 1000 in H. lra.
Qed.

End Numbers.

(** ** The classifier: one event *)

Section Classifier.
Import ChartGenerator.

Variables (kick_threshold snare_threshold hihat_threshold min_interval : Q).
Variable mapping : gmap string string.

Local Abbreviation body :=
  (loop_body kick_threshold snare_threshold hihat_threshold min_interval
     mapping).

Lemma truthy_str_true (s : string) : s <> "" -> Py.truthy_str s = true.
Proof. destruct s; [congruence | reflexivity]. Qed.

Lemma getitem_Some {V} (d : gmap string V) (k : string) (v : V) :
  d !! k = Some v -> Py.getitem d k = Py.Ok v.
Proof. unfold Py.getitem. intros ->. reflexivity. Qed.

Lemma getitem_None {V} (d : gmap string V) (k : string) :
  d !! k = None -> Py.getitem d k = Py.Raise (Py.KeyError k).
Proof. unfold Py.getitem. intros ->. reflexivity. Qed.

Lemma get_None {V} (d : gmap string V) (k : string) (dflt : V) :
  d !! k = None -> Py.get d k dflt = dflt.
Proof. unfold Py.get. intros ->. reflexivity. Qed.

(** An event that passes the interval test is handled by the chain. *)
Lemma loop_body_gate_open (notes : list Note) (last_time t : Q)
    (event : gmap string Q) :
  event !! "time" = Some t ->
  min_interval <= t - last_time ->
  body (notes, last_time) event =
    ('(note_type, velocity) ←
       decide_note_type kick_threshold snare_threshold hihat_threshold
         mapping (Py.get event "kick_energy_norm" 0)
         (Py.get event "snare_energy_norm" 0)
         (Py.get event "hihat_energy_norm" 0);
     match note_type with
     | Some ty =>
         if Py.truthy_str ty
         then mret (notes ++ [mkNote (Py.round t 3) ty (Py.round velocity 2)], t)
         else mret (notes, last_time)
     | None => mret (notes, last_time)
     end).
Proof.
  intros Ht Hgate. unfold loop_body.
  rewrite (getitem_Some _ _ _ Ht). simpl.
  apply lt_false in Hgate. rewrite Hgate. reflexivity.
Qed.

(** An event too close to the last accepted one is skipped. *)
Lemma loop_body_gate_closed (notes : list Note) (last_time t : Q)
    (event : gmap string Q) :
  event !! "time" = Some t ->
  t - last_time < min_interval ->
  body (notes, last_time) event = Py.Ok (notes, last_time).
Proof.
  intros Ht Hgate. unfold loop_body.
  rewrite (getitem_Some _ _ _ Ht). simpl.
  apply lt_true in Hgate. rewrite Hgate. reflexivity.
Qed.

(** Every step either keeps the state or appends one note whose time is
    the rounded event time, the event being at least [min_interval]
    after the last accepted one. *)
Lemma loop_body_cases (notes : list Note) (last_time : Q)
    (event : gmap string Q) (st' : list Note * Q) :
  body (notes, last_time) event = Py.Ok st' ->
  st' = (notes, last_time) \/
  exists t ty v,
    event !! "time" = Some t /\ min_interval <= t - last_time /\
    st' = (notes ++ [mkNote (Py.round t 3) ty v], t).
Proof.
  unfold loop_body. unfold Py.getitem at 1.
  destruct (event !! "time") as [t |] eqn:Ht; simpl; [| discriminate].
  destruct (Py.lt (t - last_time) min_interval) eqn:Hgate.
  - intros [= <-]. left. reflexivity.
  - apply lt_false in Hgate.
    destruct (decide_note_type _ _ _ _ _ _ _) as [[[ty |] v] | e]; simpl;
      try discriminate.
    + destruct (Py.truthy_str ty).
      * intros [= <-]. right. exists t, ty, (Py.round v 2). auto.
      * intros [= <-]. left. reflexivity.
    + intros [= <-]. left. reflexivity.
Qed.

(** C1, as amended.  For an event that passes the minimum-interval test,
    the thresholds are tried in the order kick, snare, hihat with strict
    comparisons: a kick energy above its threshold gives a note of the
    kick label whatever the snare and hihat energies are (so in particular
    when all three are above their thresholds); the snare label needs the
    kick energy not above its threshold; the hihat label needs neither kick
    nor snare above theirs.  The note carries the event time rounded to
    three decimals and the matched energy rounded to two, and the last
    accepted time becomes the unrounded event time.  The label must be
    present in the mapping and non-empty.  An event above no threshold
    adds no note and keeps the last accepted time. *)
Theorem classification_priority (notes : list Note) (last_time t : Q)
    (event : gmap string Q)
    (Htime : event !! "time" = Some t)
    (Hgate : min_interval <= t - last_time) :
  let kick_norm := Py.get event "kick_energy_norm" 0 in
  let snare_norm := Py.get event "snare_energy_norm" 0 in
  let hihat_norm := Py.get event "hihat_energy_norm" 0 in
  let emit ty v :=
    Py.Ok (notes ++ [mkNote (Py.round t 3) ty (Py.round v 2)], t) in
  (forall ty, kick_threshold < kick_norm ->
     mapping !! "kick" = Some ty -> ty <> "" ->
     body (notes, last_time) event = emit ty kick_norm) /\
  (forall ty, kick_norm <= kick_threshold -> snare_threshold < snare_norm ->
     mapping !! "snare" = Some ty -> ty <> "" ->
     body (notes, last_time) event = emit ty snare_norm) /\
  (forall ty, kick_norm <= kick_threshold -> snare_norm <= snare_threshold ->
     hihat_threshold < hihat_norm ->
     mapping !! "hihat" = Some ty -> ty <> "" ->
     body (notes, last_time) event = emit ty hihat_norm) /\
  (kick_norm <= kick_threshold -> snare_norm <= snare_threshold ->
     hihat_norm <= hihat_threshold ->
     body (notes, last_time) event = Py.Ok (notes, last_time)).
Proof.
  intros kick_norm snare_norm hihat_norm emit.
  rewrite (loop_body_gate_open _ _ _ _ Htime Hgate).
  fold kick_norm snare_norm hihat_norm.
  unfold decide_note_type, snare_arm, hihat_arm.
  repeat split.
  - intros ty Hk Hm Hty. apply gt_true in Hk. rewrite Hk.
    rewrite (getitem_Some _ _ _ Hm). simpl.
    rewrite (truthy_str_true _ Hty). reflexivity.
  - intros ty Hk Hs Hm Hty. apply gt_false in Hk. apply gt_true in Hs.
    rewrite Hk, Hs, (getitem_Some _ _ _ Hm). simpl.
    rewrite (truthy_str_true _ Hty). reflexivity.
  - intros ty Hk Hs Hh Hm Hty.
    apply gt_false in Hk. apply gt_false in Hs. apply gt_true in Hh.
    rewrite Hk, Hs, Hh, (getitem_Some _ _ _ Hm). simpl.
    rewrite (truthy_str_true _ Hty). reflexivity.
  - intros Hk Hs Hh.
    apply gt_false in Hk. apply gt_false in Hs. apply gt_false in Hh.
    rewrite Hk, Hs, Hh. reflexivity.
Qed.

(** A missing field and the same field set to the default read alike. *)
Lemma get_insert_default {V} (d : gmap string V) (field k : string) (dflt : V) :
  d !! field = None -> Py.get (<[field := dflt]> d) k dflt = Py.get d k dflt.
Proof.
  intros Hnone. unfold Py.get. destruct (decide (field = k)) as [<- | Hne].
  - rewrite lookup_insert_eq, Hnone. reflexivity.
  - rewrite lookup_insert_ne by exact Hne. reflexivity.
Qed.

(** An energy above a threshold that is not negative is not the default:
    the field is present. *)
Lemma get_above (event : gmap string Q) (field : string) (threshold : Q) :
  0 <= threshold ->
  Py.gt (Py.get event field 0) threshold = true ->
  exists v, event !! field = Some v /\ threshold < v /\
            Py.get event field 0 = v.
Proof.
  intros Hth Hgt. apply gt_true in Hgt. unfold Py.get in *.
  destruct (event !! field) as [v |]; [exists v; auto |]. lra.
Qed.

(** C10.  A missing normalised energy is read as [0]: the loop body does
    on the event what it does on the event with that field set to [0].
    With thresholds that are not negative the category of a missing
    field never matches: when the body adds a note, the note has the
    label of a category whose field is present in the event with a value
    strictly above the threshold of that category, and that value,
    rounded, is its velocity.  An event without any of the three fields
    leaves the notes and the last accepted time as they were (the event
    still needs its time). *)
Theorem missing_energy_is_zero (notes : list Note) (last_time : Q)
    (event : gmap string Q)
    (Hkick : 0 <= kick_threshold)
    (Hsnare : 0 <= snare_threshold)
    (Hhihat : 0 <= hihat_threshold) :
  (forall field,
     In field ["kick_energy_norm"; "snare_energy_norm"; "hihat_energy_norm"] ->
     event !! field = None ->
     body (notes, last_time) event
     = body (notes, last_time) (<[field := 0]> event)) /\
  (forall st', body (notes, last_time) event = Py.Ok st' ->
     st' = (notes, last_time) \/
     exists t cat field threshold ty v,
       In (cat, field, threshold)
          [("kick", "kick_energy_norm", kick_threshold);
           ("snare", "snare_energy_norm", snare_threshold);
           ("hihat", "hihat_energy_norm", hihat_threshold)] /\
       event !! "time" = Some t /\
       event !! field = Some v /\ threshold < v /\
       mapping !! cat = Some ty /\
       st' = (notes ++ [mkNote (Py.round t 3) ty (Py.round v 2)], t)) /\
  (event !! "kick_energy_norm" = None ->
   event !! "snare_energy_norm" = None ->
   event !! "hihat_energy_norm" = None ->
     body (notes, last_time) event =
       (_ ← Py.getitem event "time"; mret (notes, last_time))).
Proof.
  split; [| split].
  - intros field Hfield Hnone.
    assert (field <> "time") as Hne
      by (intros ->; simpl in Hfield;
          repeat (destruct Hfield as [Hfield | Hfield];
                  [discriminate Hfield |]); exact Hfield).
    unfold loop_body, Py.getitem.
    rewrite (lookup_insert_ne event field "time" 0 Hne).
    rewrite !(get_insert_default event field _ 0 Hnone). reflexivity.
  - intros st'. unfold loop_body. unfold Py.getitem at 1.
    destruct (event !! "time") as [t |] eqn:Ht; simpl; [| discriminate].
    destruct (Py.lt (t - last_time) min_interval);
      [intros [= <-]; left; reflexivity |].
    unfold decide_note_type, snare_arm, hihat_arm.
    destruct (Py.gt (Py.get event "kick_energy_norm" 0) kick_threshold)
      eqn:Ek;
      [| destruct (Py.gt (Py.get event "snare_energy_norm" 0)
                     snare_threshold) eqn:Es;
         [| destruct (Py.gt (Py.get event "hihat_energy_norm" 0)
                        hihat_threshold) eqn:Eh]].
    + destruct (get_above _ _ _ Hkick Ek) as (v & Hv & Hlt & ->).
      unfold Py.getitem. destruct (mapping !! "kick") as [ty |] eqn:Hm;
        simpl; [| discriminate].
      destruct (Py.truthy_str ty); intros [= <-];
        [right | left; reflexivity].
      exists t, "kick", "kick_energy_norm", kick_threshold, ty, v.
      simpl. auto 10.
    + destruct (get_above _ _ _ Hsnare Es) as (v & Hv & Hlt & ->).
      unfold Py.getitem. destruct (mapping !! "snare") as [ty |] eqn:Hm;
        simpl; [| discriminate].
      destruct (Py.truthy_str ty); intros [= <-];
        [right | left; reflexivity].
      exists t, "snare", "snare_energy_norm", snare_threshold, ty, v.
      simpl. auto 10.
    + destruct (get_above _ _ _ Hhihat Eh) as (v & Hv & Hlt & ->).
      unfold Py.getitem. destruct (mapping !! "hihat") as [ty |] eqn:Hm;
        simpl; [| discriminate].
      destruct (Py.truthy_str ty); intros [= <-];
        [right | left; reflexivity].
      exists t, "hihat", "hihat_energy_norm", hihat_threshold, ty, v.
      simpl. auto 10.
    + simpl. intros [= <-]. left. reflexivity.
  - intros Hk Hs Hh.
    assert (forall th, 0 <= th -> Py.gt 0 th = false) as Hgt
      by (intros th Hth; apply gt_false; exact Hth).
    unfold loop_body. destruct (Py.getitem event "time") as [t | e]; simpl;
      [| reflexivity].
    destruct (Py.lt (t - last_time) min_interval); [reflexivity |].
    rewrite (get_None _ _ _ Hk), (get_None _ _ _ Hs), (get_None _ _ _ Hh).
    unfold decide_note_type, snare_arm, hihat_arm.
    rewrite (Hgt _ Hkick), (Hgt _ Hsnare), (Hgt _ Hhihat). reflexivity.
Qed.

End Classifier.

(** ** The classifier: the whole scan *)

Section Scan.
Import ChartGenerator Inv.

Lemma spaced_snoc (m t : Q) (l : list Q) :
  spaced m l ->
  (forall a, last l = Some a -> m <= t - a) ->
  spaced m (l ++ [t]).
Proof.
  induction l as [| a l IH]; intros Hsp Hlast; [exact I |].
  destruct l as [| b l].
  - simpl. split; [apply Hlast; reflexivity | exact I].
  - destruct Hsp as [Hab Hsp]. split; [exact Hab |].
    apply IH; [exact Hsp |]. intros c Hc. apply Hlast. exact Hc.
Qed.

Lemma spaced_lookup (m : Q) (l : list Q) (i : nat) (a b : Q) :
  spaced m l -> l !! i = Some a -> l !! S i = Some b -> m <= b - a.
Proof.
  revert i. induction l as [| x l IH]; intros i Hsp Ha Hb; [discriminate |].
  destruct l as [| y l]; [discriminate |].
  destruct Hsp as [Hxy Hsp].
  destruct i as [| i].
  - simpl in Ha, Hb. injection Ha as <-. injection Hb as <-. exact Hxy.
  - apply (IH i Hsp); assumption.
Qed.

Lemma scan_inv_step (kt st ht m : Q) (mapping : gmap string string)
    (events : list (gmap string Q)) (accepted : list Q)
    (s s' : list Note * Q) (event : gmap string Q) :
  In event events ->
  scan_inv m events accepted s ->
  loop_body kt st ht m mapping s event = Py.Ok s' ->
  exists accepted', scan_inv m events accepted' s'.
Proof.
  destruct s as [notes last_time]. intros Hin (Hmap & Hsp & Hlast & Hev) Hstep.
  destruct (loop_body_cases _ _ _ _ _ _ _ _ _ Hstep)
    as [-> | (t & ty & v & Ht & Hgate & ->)].
  - exists accepted. repeat split; assumption.
  - exists (accepted ++ [t]). repeat split.
    + simpl. rewrite !fmap_app. simpl in Hmap. rewrite Hmap. reflexivity.
    + apply spaced_snoc; [exact Hsp |].
      intros a Ha. rewrite (Hlast a Ha). exact Hgate.
    + intros a. rewrite last_snoc. simpl. congruence.
    + apply Forall_app. split; [exact Hev |].
      constructor; [| constructor]. exists event. split; assumption.
Qed.

Lemma scan_inv_foldM (kt st ht m : Q) (mapping : gmap string string)
    (events rest : list (gmap string Q)) :
  (forall e, In e rest -> In e events) ->
  forall accepted s s',
    scan_inv m events accepted s ->
    Py.foldM (loop_body kt st ht m mapping) rest s = Py.Ok s' ->
    exists accepted', scan_inv m events accepted' s'.
Proof.
  induction rest as [| event rest IH]; intros Hsub accepted s s' Hinv Hrun.
  - injection Hrun as <-. exists accepted. exact Hinv.
  - simpl in Hrun.
    destruct (loop_body kt st ht m mapping s event) as [s1 | e] eqn:Hstep;
      simpl in Hrun; [| discriminate].
    destruct (scan_inv_step _ _ _ _ _ events _ _ _ _
                (Hsub event (or_introl eq_refl)) Hinv Hstep)
      as [accepted1 Hinv1].
    apply (IH (fun e He => Hsub e (or_intror He)) accepted1 s1 s' Hinv1 Hrun).
Qed.

(** What [generate_chart] returns, in terms of the scan. *)
Lemma generate_chart_Ok (events : list (gmap string Q))
    (cfg : gmap string Q) (mapping : gmap string string)
    (song_id difficulty : string) (chart : Chart) :
  generate_chart events cfg mapping song_id difficulty = Py.Ok chart ->
  exists kt st ht m last_time,
    cfg !! "kick_threshold" = Some kt /\
    cfg !! "snare_threshold" = Some st /\
    cfg !! "hihat_threshold" = Some ht /\
    cfg !! "min_interval" = Some m /\
    Py.foldM (loop_body kt st ht m mapping) events ([], - (999 # 1))
      = Py.Ok (notes chart, last_time) /\
    chart = mkChart song_id difficulty (notes chart)
              (mkMetadata "algorithm" (length (notes chart))
                 (count_type "left" (notes chart))
                 (count_type "right" (notes chart))
                 (count_type "both" (notes chart))
                 (average_interval (notes chart))).
Proof.
  unfold generate_chart, Py.getitem.
  destruct (cfg !! "kick_threshold") as [kt |]; simpl; [| discriminate].
  destruct (cfg !! "snare_threshold") as [st |]; simpl; [| discriminate].
  destruct (cfg !! "hihat_threshold") as [ht |]; simpl; [| discriminate].
  destruct (cfg !! "min_interval") as [m |]; simpl; [| discriminate].
  destruct (Py.foldM _ events _) as [[ns last_time] | e] eqn:Hrun; simpl;
    [| discriminate].
  intros [= <-]. simpl. exists kt, st, ht, m, last_time.
  repeat split; try reflexivity. exact Hrun.
Qed.

(** C2.  In every chart that [generate_chart] returns, the times of the
    notes are the millisecond roundings of accepted event times (the
    unrounded [time] fields of input events) that are pairwise at least
    [min_interval] apart, the test being made on the unrounded times;
    hence adjacent notes are at least [min_interval - 0.001] apart.  The
    order of the input plays no role. *)
Theorem minimum_interval (events : list (gmap string Q))
    (cfg : gmap string Q) (mapping : gmap string string)
    (song_id difficulty : string) (chart : Chart) (min_interval : Q)
    (Hrun : generate_chart events cfg mapping song_id difficulty = Py.Ok chart)
    (Hmin : cfg !! "min_interval" = Some min_interval) :
  (exists accepted : list Q,
     time <$> notes chart = (fun t => Py.round t 3) <$> accepted /\
     (forall t, In t accepted ->
        exists e, In e events /\ e !! "time" = Some t) /\
     forall i a b, accepted !! i = Some a -> accepted !! S i = Some b ->
                   min_interval <= b - a) /\
  (forall i a b, notes chart !! i = Some a -> notes chart !! S i = Some b ->
                 min_interval - (1 # 1000) <= time b - time a).
Proof.
  destruct (generate_chart_Ok _ _ _ _ _ _ Hrun)
    as (kt & st & ht & m & last_time & _ & _ & _ & Hm & Hfold & _).
  rewrite Hmin in Hm. injection Hm as <-.
  assert (scan_inv min_interval events [] ([], - (999 # 1))) as Hinit.
  { repeat split; [| constructor]. intros a Ha. discriminate. }
  destruct (scan_inv_foldM _ _ _ _ _ events events (fun e He => He)
              _ _ _ Hinit Hfold)
    as (accepted & Hmap & Hsp & _ & Hev).
  simpl in Hmap.
  assert (forall i a b, accepted !! i = Some a -> accepted !! S i = Some b ->
                        min_interval <= b - a) as Hacc
    by (intros i a b; apply spaced_lookup; exact Hsp).
  split.
  { exists accepted. split; [exact Hmap |]. split; [| exact Hacc].
    apply List.Forall_forall. exact Hev. }
  intros i a b Ha Hb.
  assert ((time <$> notes chart) !! i = Some (time a)) as Ha'
    by (rewrite list_lookup_fmap, Ha; reflexivity).
  assert ((time <$> notes chart) !! S i = Some (time b)) as Hb'
    by (rewrite list_lookup_fmap, Hb; reflexivity).
  rewrite Hmap, list_lookup_fmap in Ha', Hb'.
  destruct (accepted !! i) as [ta |] eqn:Eta; [| discriminate].
  destruct (accepted !! S i) as [tb |] eqn:Etb; [| discriminate].
  simpl in Ha', Hb'. injection Ha' as Ha'. injection Hb' as Hb'.
  pose proof (Hacc i ta tb Eta Etb) as Hgap.
  pose proof (round3_error ta) as Hra. pose proof (round3_error tb) as Hrb.
  rewrite <- Ha', <- Hb'. lra.
Qed.

End Scan.

(** ** Normalisation *)

Section Normalisation.
Import BeatDetection Inv.

Lemma mapM_Ok {A B} (f : A -> Py.result B) (l : list A) :
  Forall (fun x => exists y, f x = Py.Ok y) l ->
  exists k, mapM f l = Py.Ok k /\ Forall2 (fun x y => f x = Py.Ok y) l k.
Proof.
  induction 1 as [| x l [y Hy] _ (k & Hk & Hall)].
  - exists []. split; [reflexivity | constructor].
  - exists (y :: k). split.
    + simpl. rewrite Hy. simpl. rewrite Hk. reflexivity.
    + constructor; assumption.
Qed.

Lemma max_fold_spec (l : list Q) :
  forall a,
    let m := fold_left (fun m y => if Py.gt y m then y else m) l a in
    (m = a \/ In m l) /\ a <= m /\ Forall (fun y => y <= m) l.
Proof.
  induction l as [| y l IH]; intros a; simpl.
  - repeat split; [left; reflexivity | apply Qle_refl | constructor].
  - destruct (Py.gt y a) eqn:Hya.
    + apply gt_true in Hya.
      destruct (IH y) as (Hin & Hle & Hall). repeat split.
      * destruct Hin as [-> | Hin]; right; [left; reflexivity | right; exact Hin].
      * lra.
      * constructor; assumption.
    + apply gt_false in Hya.
      destruct (IH a) as (Hin & Hle & Hall). repeat split.
      * destruct Hin as [-> | Hin]; [left; reflexivity | right; right; exact Hin].
      * exact Hle.
      * constructor; [lra | assumption].
Qed.

Lemma max_spec (x : Q) (l : list Q) :
  exists m, Py.max (x :: l) = Py.Ok m /\ In m (x :: l) /\
            Forall (fun y => y <= m) (x :: l).
Proof.
  destruct (max_fold_spec l x) as (Hin & Hle & Hall).
  eexists. split; [reflexivity |]. split.
  - destruct Hin as [-> | Hin]; [left; reflexivity | right; exact Hin].
  - constructor; assumption.
Qed.

Lemma or_spec (m : Q) :
  (m == 0 /\ Py.or_ m 1 = 1) \/ (~ m == 0 /\ Py.or_ m 1 = m).
Proof.
  unfold Py.or_. destruct (Qeq_bool m 0) eqn:E.
  - left. split; [apply Qeq_bool_eq; exact E | reflexivity].
  - right. split; [apply Qeq_bool_neq; exact E | reflexivity].
Qed.

(** The divisor of a band: positive, above every raw energy, attained by
    an event unless the greatest raw energy is zero, where it is [1]. *)
Lemma band_max_spec (raw : string) (events : list (gmap string Q)) :
  events <> [] ->
  Forall (fun e => exists v, e !! raw = Some v /\ 0 <= v) events ->
  exists d,
    band_max raw events = Py.Ok d /\ 0 < d /\
    (forall e v, In e events -> e !! raw = Some v -> v <= d) /\
    ((exists e v, In e events /\ e !! raw = Some v /\ ~ v == 0) ->
       exists e v, In e events /\ e !! raw = Some v /\ v == d) /\
    ((forall e v, In e events -> e !! raw = Some v -> v == 0) -> d = 1).
Proof.
  intros Hne Hraw.
  assert (Forall (fun e => exists y, Py.getitem e raw = Py.Ok y) events) as Hget.
  { eapply List.Forall_impl; [| exact Hraw]. intros e (v & Hv & _).
    exists v. unfold Py.getitem. rewrite Hv. reflexivity. }
  destruct (mapM_Ok _ _ Hget) as (energies & Hmap & Hall).
  assert (forall e v, In e events -> e !! raw = Some v -> In v energies) as Hfwd.
  { clear -Hall. induction Hall as [| e y es ys Hy _ IH]; intros e0 v Hin Hv.
    - destruct Hin.
    - destruct Hin as [<- | Hin].
      + unfold Py.getitem in Hy. rewrite Hv in Hy. injection Hy as <-.
        left. reflexivity.
      + right. eapply IH; eassumption. }
  assert (forall v, In v energies ->
                    exists e, In e events /\ e !! raw = Some v) as Hbwd.
  { clear -Hall. induction Hall as [| e y es ys Hy _ IH]; intros v Hin.
    - destruct Hin.
    - destruct Hin as [<- | Hin].
      + exists e. split; [left; reflexivity |].
        unfold Py.getitem in Hy. destruct (e !! raw); congruence.
      + destruct (IH v Hin) as (e0 & He0 & Hv). exists e0.
        split; [right; exact He0 | exact Hv]. }
  destruct energies as [| x energies].
  { inversion Hall; subst. congruence. }
  destruct (max_spec x energies) as (m & Hmax & Hin & Hle).
  assert (0 <= m) as Hm0.
  { destruct (Hbwd m Hin) as (e & He & Hv).
    rewrite List.Forall_forall in Hraw.
    destruct (Hraw e He) as (v & Hv' & Hpos). congruence. }
  unfold band_max. rewrite Hmap. cbn [mbind Py.result_bind]. rewrite Hmax.
  cbn [mbind Py.result_bind mret Py.result_ret].
  rewrite List.Forall_forall in Hle.
  exists (Py.or_ m 1). split; [reflexivity |].
  destruct (or_spec m) as [[Hz ->] | [Hnz ->]].
  - repeat split.
    + intros e v He Hv. pose proof (Hle v (Hfwd e v He Hv)). lra.
    + intros (e & v & He & Hv & Hnz). exfalso. apply Hnz.
      pose proof (Hle v (Hfwd e v He Hv)).
      rewrite List.Forall_forall in Hraw.
      destruct (Hraw e He) as (v' & Hv' & Hpos).
      assert (v' = v) as -> by congruence. lra.
  - repeat split.
    + destruct (Qlt_le_dec 0 m) as [Hlt | Hge]; [exact Hlt |].
      exfalso. apply Hnz. lra.
    + intros e v He Hv. apply Hle. eapply Hfwd; eassumption.
    + intros _. destruct (Hbwd m Hin) as (e & He & Hv).
      exists e, m. split; [exact He |]. split; [exact Hv | apply Qeq_refl].
    + intros Hzero. exfalso. apply Hnz.
      destruct (Hbwd m Hin) as (e & He & Hv). eapply Hzero; eassumption.
Qed.

(** The loop body writes the three quotients and keeps the raw fields. *)
Lemma normalize_event_Ok (max_kick max_snare max_hihat k s h : Q)
    (event : gmap string Q) :
  event !! "kick_energy" = Some k ->
  event !! "snare_energy" = Some s ->
  event !! "hihat_energy" = Some h ->
  exists event',
    normalize_event max_kick max_snare max_hihat event = Py.Ok event' /\
    event' !! "kick_energy_norm" = Some (k / max_kick) /\
    event' !! "snare_energy_norm" = Some (s / max_snare) /\
    event' !! "hihat_energy_norm" = Some (h / max_hihat).
Proof.
  intros Hk Hs Hh. unfold normalize_event, Py.getitem.
  rewrite Hk. simpl.
  rewrite lookup_insert_ne by discriminate. rewrite Hs. simpl.
  rewrite !lookup_insert_ne by discriminate. rewrite Hh. simpl.
  eexists. split; [reflexivity |].
  rewrite !lookup_insert_ne by discriminate.
  rewrite lookup_insert_eq.
  rewrite lookup_insert_ne by discriminate.
  rewrite !lookup_insert_eq. auto.
Qed.

Lemma Forall2_In_r {A B} (R : A -> B -> Prop) (l : list A) (k : list B) :
  Forall2 R l k -> forall y, In y k -> exists x, In x l /\ R x y.
Proof.
  induction 1 as [| x y l k Hxy _ IH]; intros y0 Hin; [destruct Hin |].
  destruct Hin as [<- | Hin].
  - exists x. split; [left; reflexivity | exact Hxy].
  - destruct (IH y0 Hin) as (x0 & Hx0 & HR). exists x0.
    split; [right; exact Hx0 | exact HR].
Qed.

Lemma Forall2_In_l {A B} (R : A -> B -> Prop) (l : list A) (k : list B) :
  Forall2 R l k -> forall x, In x l -> exists y, In y k /\ R x y.
Proof.
  induction 1 as [| x y l k Hxy _ IH]; intros x0 Hin; [destruct Hin |].
  destruct Hin as [<- | Hin].
  - exists y. split; [left; reflexivity | exact Hxy].
  - destruct (IH x0 Hin) as (y0 & Hy0 & HR). exists y0.
    split; [right; exact Hy0 | exact HR].
Qed.

Lemma raw_event_ok_fields (e : gmap string Q) :
  raw_event_ok e ->
  exists k s h,
    (e !! "kick_energy" = Some k /\ 0 <= k) /\
    (e !! "snare_energy" = Some s /\ 0 <= s) /\
    (e !! "hihat_energy" = Some h /\ 0 <= h).
Proof.
  intros H.
  destruct (H "kick_energy" "kick_energy_norm") as (k & Hk); [simpl; auto |].
  destruct (H "snare_energy" "snare_energy_norm") as (s & Hs); [simpl; auto |].
  destruct (H "hihat_energy" "hihat_energy_norm") as (h & Hh); [simpl; auto |].
  exists k, s, h. auto.
Qed.

Lemma raw_event_ok_band (events : list (gmap string Q)) (raw norm : string) :
  Forall raw_event_ok events -> In (raw, norm) bands ->
  Forall (fun e => exists v, e !! raw = Some v /\ 0 <= v) events.
Proof.
  intros Hraw Hband. eapply List.Forall_impl; [| exact Hraw].
  intros e He. exact (He raw norm Hband).
Qed.

(** One band after the loop, from the facts on its divisor. *)
Lemma band_normalised (raw norm : string) (d : Q)
    (events events' : list (gmap string Q)) :
  0 < d ->
  Forall (fun e => exists v, e !! raw = Some v /\ 0 <= v) events ->
  (forall e v, In e events -> e !! raw = Some v -> v <= d) ->
  ((exists e v, In e events /\ e !! raw = Some v /\ ~ v == 0) ->
     exists e v, In e events /\ e !! raw = Some v /\ v == d) ->
  Forall2 (fun e e' => exists v, e !! raw = Some v /\
                                 e' !! norm = Some (v / d)) events events' ->
  (forall e', In e' events' ->
     exists v, e' !! norm = Some v /\ 0 <= v <= 1) /\
  ((exists e v, In e events /\ e !! raw = Some v /\ ~ v == 0) ->
     exists e' v, In e' events' /\ e' !! norm = Some v /\ v == 1) /\
  ((forall e v, In e events -> e !! raw = Some v -> v == 0) ->
     forall e' v, In e' events' -> e' !! norm = Some v -> v == 0).
Proof.
  intros Hd Hraw Hle Hatt Hrel. rewrite List.Forall_forall in Hraw.
  assert (~ d == 0) as Hd0 by lra.
  repeat split.
  - intros e' He'.
    destruct (Forall2_In_r _ _ _ Hrel e' He') as (e & He & v & Hv & Hn).
    exists (v / d). split; [exact Hn |].
    destruct (Hraw e He) as (v' & Hv' & Hpos).
    assert (v' = v) as -> by congruence.
    pose proof (Hle e v He Hv) as Hvd. split.
    + apply Qle_shift_div_l; [exact Hd | lra].
    + apply Qle_shift_div_r; [exact Hd | lra].
  - intros Hnz. destruct (Hatt Hnz) as (e & v & He & Hv & Hvd).
    destruct (Forall2_In_l _ _ _ Hrel e He) as (e' & He' & v' & Hv' & Hn).
    assert (v' = v) as -> by congruence.
    exists e', (v / d). split; [exact He' |]. split; [exact Hn |].
    rewrite Hvd. field. exact Hd0.
  - intros Hzero e' v' He' Hn'.
    destruct (Forall2_In_r _ _ _ Hrel e' He') as (e & He & v & Hv & Hn).
    assert (v' = v / d) as -> by congruence.
    rewrite (Hzero e v He Hv). field. exact Hd0.
Qed.

(** C4.  On an empty list of events the first [max(...)] raises
    [ValueError]: [normalize_energies] does not return. *)
Theorem normalize_energies_empty_raises :
  normalize_energies [] = Py.Raise Py.ValueError.
Proof. reflexivity. Qed.

(** C7.  For a non-empty list of events whose raw energies are present and
    not negative, [normalize_energies] returns a list of the same length
    and, for each band on its own: every normalised energy is in [0, 1];
    an event attains exactly 1 unless all raw energies of the band are
    zero; in that case the divisor is 1 and every normalised energy is
    0. *)
Theorem normalization_bound (events : list (gmap string Q))
    (Hne : events <> [])
    (Hraw : Forall raw_event_ok events) :
  exists events',
    normalize_energies events = Py.Ok events' /\
    length events' = length events /\
    forall raw norm, In (raw, norm) bands ->
      (forall e', In e' events' ->
         exists v, e' !! norm = Some v /\ 0 <= v <= 1) /\
      ((exists e v, In e events /\ e !! raw = Some v /\ ~ v == 0) ->
         exists e' v, In e' events' /\ e' !! norm = Some v /\ v == 1) /\
      ((forall e v, In e events -> e !! raw = Some v -> v == 0) ->
         band_max raw events = Py.Ok 1 /\
         forall e' v, In e' events' -> e' !! norm = Some v -> v == 0).
Proof.
  pose proof (raw_event_ok_band events "kick_energy" "kick_energy_norm" Hraw
                ltac:(simpl; auto)) as Rk.
  pose proof (raw_event_ok_band events "snare_energy" "snare_energy_norm" Hraw
                ltac:(simpl; auto)) as Rs.
  pose proof (raw_event_ok_band events "hihat_energy" "hihat_energy_norm" Hraw
                ltac:(simpl; auto)) as Rh.
  destruct (band_max_spec _ _ Hne Rk) as (mk & Ek & Pk & Lk & Ak & Zk).
  destruct (band_max_spec _ _ Hne Rs) as (ms & Es & Ps & Ls & As & Zs).
  destruct (band_max_spec _ _ Hne Rh) as (mh & Eh & Ph & Lh & Ah & Zh).
  assert (Forall (fun e => exists y, normalize_event mk ms mh e = Py.Ok y)
            events) as Hbody.
  { eapply List.Forall_impl; [| exact Hraw]. intros e He.
    destruct (raw_event_ok_fields e He) as (k & s & h & [Hk _] & [Hs _] & [Hh _]).
    destruct (normalize_event_Ok mk ms mh k s h e Hk Hs Hh) as (e' & He' & _).
    exists e'. exact He'. }
  destruct (mapM_Ok _ _ Hbody) as (events' & Hrun & Hall).
  assert (Forall2 (fun e e' =>
            (exists v, e !! "kick_energy" = Some v /\
                       e' !! "kick_energy_norm" = Some (v / mk)) /\
            (exists v, e !! "snare_energy" = Some v /\
                       e' !! "snare_energy_norm" = Some (v / ms)) /\
            (exists v, e !! "hihat_energy" = Some v /\
                       e' !! "hihat_energy_norm" = Some (v / mh)))
            events events') as Hrel.
  { clear -Hall Hraw. induction Hall as [| e e' es es' He _ IH];
      [constructor |].
    inversion Hraw as [| ? ? Hok Hoks]; subst.
    constructor; [| apply IH; exact Hoks].
    destruct (raw_event_ok_fields e Hok) as (k & s & h & [Hk _] & [Hs _] & [Hh _]).
    destruct (normalize_event_Ok mk ms mh k s h e Hk Hs Hh)
      as (e'' & He'' & Nk & Ns & Nh).
    assert (e'' = e') as -> by congruence.
    repeat split; eexists; split; eassumption. }
  exists events'. split.
  { unfold normalize_energies. rewrite Ek, Es, Eh. exact Hrun. }
  split.
  { symmetry. eapply Forall2_length. exact Hall. }
  intros raw norm Hband.
  destruct Hband as [[= <- <-] | [[= <- <-] | [[= <- <-] | []]]].
  - destruct (band_normalised "kick_energy" "kick_energy_norm" mk events
                events' Pk Rk Lk Ak) as (B1 & B2 & B3).
    { eapply Forall2_impl; [exact Hrel |]. intros e e' (H & _). exact H. }
    split; [exact B1 |]. split; [exact B2 |]. intros Hzero.
    split; [rewrite Ek, (Zk Hzero); reflexivity | apply B3; exact Hzero].
  - destruct (band_normalised "snare_energy" "snare_energy_norm" ms events
                events' Ps Rs Ls As) as (B1 & B2 & B3).
    { eapply Forall2_impl; [exact Hrel |]. intros e e' (_ & H & _). exact H. }
    split; [exact B1 |]. split; [exact B2 |]. intros Hzero.
    split; [rewrite Es, (Zs Hzero); reflexivity | apply B3; exact Hzero].
  - destruct (band_normalised "hihat_energy" "hihat_energy_norm" mh events
                events' Ph Rh Lh Ah) as (B1 & B2 & B3).
    { eapply Forall2_impl; [exact Hrel |]. intros e e' (_ & _ & H). exact H. }
    split; [exact B1 |]. split; [exact B2 |]. intros Hzero.
    split; [rewrite Eh, (Zh Hzero); reflexivity | apply B3; exact Hzero].
Qed.

End Normalisation.

(** ** Python's [sorted] *)

Section SortedFacts.
Context {A : Type} (key : A -> Q) (reverse : bool).

Local Abbreviation le := (fun a b : A => Py.key_le key reverse a b = true).
Local Abbreviation ins := (Py.insert key reverse).
Local Abbreviation srt := (Py.sorted key reverse).

Lemma key_le_total (a b : A) :
  Py.key_le key reverse a b = true \/ Py.key_le key reverse b a = true.
Proof.
  unfold Py.key_le. destruct reverse; rewrite !Qle_bool_iff;
    destruct (Qlt_le_dec (key a) (key b)); auto using Qlt_le_weak.
Qed.

Lemma key_le_trans (a b c : A) : le a b -> le b c -> le a c.
Proof.
  unfold Py.key_le. destruct reverse; rewrite !Qle_bool_iff; intros; lra.
Qed.

Lemma key_le_false (a b : A) :
  Py.key_le key reverse a b = false -> ~ key a == key b.
Proof.
  unfold Py.key_le. intros H E.
  destruct reverse; rewrite <- not_true_iff_false, Qle_bool_iff in H;
    apply H; lra.
Qed.

Lemma insert_In (x y : A) (l : list A) : In y (ins x l) <-> y = x \/ In y l.
Proof.
  induction l as [| z l IH]; simpl.
  - split; intros [H | H]; auto.
  - destruct (Py.key_le key reverse x z); simpl; [| rewrite IH]; intuition.
Qed.

Lemma insert_Permutation (x : A) (l : list A) : Permutation (ins x l) (x :: l).
Proof.
  induction l as [| z l IH]; simpl; [reflexivity |].
  destruct (Py.key_le key reverse x z); [reflexivity |].
  rewrite IH. apply perm_swap.
Qed.

Lemma sorted_Permutation (l : list A) : Permutation (srt l) l.
Proof.
  induction l as [| x l IH]; simpl; [reflexivity |].
  rewrite insert_Permutation, IH. reflexivity.
Qed.

Lemma sorted_In (x : A) (l : list A) : In x (srt l) <-> In x l.
Proof.
  split; apply Permutation_in;
    [apply sorted_Permutation | symmetry; apply sorted_Permutation].
Qed.

Lemma sorted_length (l : list A) : length (srt l) = length l.
Proof. apply Permutation_length, sorted_Permutation. Qed.

Lemma insert_StronglySorted (x : A) (l : list A) :
  StronglySorted le l -> StronglySorted le (ins x l).
Proof.
  induction 1 as [| z l Hs IH Hz]; simpl.
  - constructor; constructor.
  - destruct (Py.key_le key reverse x z) eqn:E.
    + constructor; [constructor; assumption |].
      constructor; [exact E |].
      eapply List.Forall_impl; [| exact Hz].
      intros c Hc. exact (key_le_trans _ _ _ E Hc).
    + constructor; [exact IH |].
      apply List.Forall_forall. intros c Hc. apply insert_In in Hc.
      destruct Hc as [-> | Hc].
      * destruct (key_le_total x z) as [H | H]; [congruence | exact H].
      * rewrite List.Forall_forall in Hz. apply Hz. exact Hc.
Qed.

Lemma sorted_StronglySorted (l : list A) : StronglySorted le (srt l).
Proof.
  induction l as [| x l IH]; simpl; [constructor |].
  apply insert_StronglySorted. exact IH.
Qed.

(** A list that is in order already is returned as it is. *)
Lemma sorted_fixed (l : list A) : StronglySorted le l -> srt l = l.
Proof.
  induction 1 as [| x l Hs IH Hx]; simpl; [reflexivity |].
  rewrite IH. destruct l as [| y l]; [reflexivity |].
  simpl. inversion Hx as [| ? ? Hxy _]; subst. rewrite Hxy. reflexivity.
Qed.

(** Stability: the elements of one key value keep their order. *)
Lemma insert_stable (v : Q) (x : A) (l : list A) :
  List.filter (fun a => Qeq_bool (key a) v) (ins x l) =
  List.filter (fun a => Qeq_bool (key a) v) (x :: l).
Proof.
  induction l as [| z l IH]; [reflexivity |].
  simpl ins. destruct (Py.key_le key reverse x z) eqn:E; [reflexivity |].
  simpl. simpl in IH. rewrite IH.
  destruct (Qeq_bool (key x) v) eqn:Ex; [| reflexivity].
  destruct (Qeq_bool (key z) v) eqn:Ez; [| reflexivity].
  exfalso. apply (key_le_false _ _ E).
  apply Qeq_bool_eq in Ex. apply Qeq_bool_eq in Ez. rewrite Ex, Ez. reflexivity.
Qed.

Lemma sorted_stable (v : Q) (l : list A) :
  List.filter (fun a => Qeq_bool (key a) v) (srt l) =
  List.filter (fun a => Qeq_bool (key a) v) l.
Proof.
  induction l as [| x l IH]; [reflexivity |].
  simpl srt. rewrite insert_stable. simpl. rewrite IH. reflexivity.
Qed.

End SortedFacts.

(** ** The time-base fuser *)

Section Fuser.
Import BeatDetection.

Local Abbreviation neq := (fun a b : Q => ~ a == b).
Local Abbreviation id_le := (fun a b : Q => Py.key_le (fun x => x) false a b = true).
Local Abbreviation round3 := (fun x : Q => Py.round x 3).

Lemma StronglySorted_filter {A} (R : A -> A -> Prop) (f : A -> bool)
    (l : list A) :
  StronglySorted R l -> StronglySorted R (List.filter f l).
Proof.
  induction 1 as [| x l Hs IH Hx]; simpl; [constructor |].
  destruct (f x); [| exact IH].
  constructor; [exact IH |].
  apply List.Forall_forall. intros y Hy. apply List.filter_In in Hy.
  rewrite List.Forall_forall in Hx. apply Hx. tauto.
Qed.

Lemma filter_all {A} (f : A -> bool) (l : list A) :
  (forall y, In y l -> f y = true) -> List.filter f l = l.
Proof.
  induction l as [| x l IH]; intros H; simpl; [reflexivity |].
  rewrite (H x) by (left; reflexivity).
  rewrite IH; [reflexivity |]. intros y Hy. apply H. right. exact Hy.
Qed.

Lemma set_In (x : Q) (l : list Q) : In x (Py.set l) -> In x l.
Proof.
  revert x. induction l as [| y l IH]; intros x; simpl; [tauto |].
  intros [-> | Hin]; [left; reflexivity |].
  apply List.filter_In in Hin. right. apply IH. tauto.
Qed.

Lemma set_representative (x : Q) (l : list Q) :
  In x l -> exists y, In y (Py.set l) /\ y == x.
Proof.
  induction l as [| z l IH]; intros Hin; [destruct Hin |].
  destruct Hin as [-> | Hin].
  - exists x. split; [left; reflexivity | reflexivity].
  - destruct (IH Hin) as (y & Hy & Hyx).
    destruct (Qeq_bool z y) eqn:E.
    + exists z. split; [left; reflexivity |].
      apply Qeq_bool_eq in E. rewrite E. exact Hyx.
    + exists y. split; [| exact Hyx].
      simpl. right. apply List.filter_In. rewrite E. auto.
Qed.

Lemma set_length (l : list Q) : (length (Py.set l) <= length l)%nat.
Proof.
  induction l as [| x l IH]; simpl; [lia |].
  pose proof (List.filter_length_le
                (fun y => negb (Qeq_bool x y)) (Py.set l)). lia.
Qed.

(** No two elements of a set are numerically equal. *)
Lemma set_distinct (l : list Q) : StronglySorted neq (Py.set l).
Proof.
  induction l as [| x l IH]; simpl; constructor.
  - apply StronglySorted_filter. exact IH.
  - apply List.Forall_forall. intros y Hy. apply List.filter_In in Hy.
    destruct Hy as [_ Hy]. apply negb_true_iff in Hy.
    apply Qeq_bool_neq. exact Hy.
Qed.

Lemma set_fixed (l : list Q) : StronglySorted Qlt l -> Py.set l = l.
Proof.
  induction 1 as [| x l Hs IH Hx]; simpl; [reflexivity |].
  rewrite IH. f_equal. apply filter_all. intros y Hy.
  rewrite List.Forall_forall in Hx. specialize (Hx y Hy).
  apply negb_true_iff. destruct (Qeq_bool x y) eqn:E; [| reflexivity].
  apply Qeq_bool_eq in E. lra.
Qed.

Lemma insert_strict (x : Q) (l : list Q) :
  StronglySorted Qlt l -> Forall (neq x) l ->
  StronglySorted Qlt (Py.insert (fun x => x) false x l).
Proof.
  induction 1 as [| z l Hs IH Hz]; intros Hx; simpl.
  - constructor; constructor.
  - inversion Hx as [| ? ? Hxz Hxl]; subst.
    unfold Py.key_le. destruct (Qle_bool x z) eqn:E.
    + apply Qle_bool_iff in E. assert (x < z) as Hlt.
      { destruct (Qlt_le_dec x z) as [H | H]; [exact H |].
        exfalso. apply Hxz. lra. }
      constructor; [constructor; assumption |].
      constructor; [exact Hlt |].
      eapply List.Forall_impl; [| exact Hz]. intros c Hc. simpl in Hc. lra.
    + assert (z < x) as Hlt.
      { apply Qnot_le_lt. rewrite <- Qle_bool_iff. congruence. }
      constructor; [apply IH; exact Hxl |].
      apply List.Forall_forall. intros c Hc. apply insert_In in Hc.
      destruct Hc as [-> | Hc]; [exact Hlt |].
      rewrite List.Forall_forall in Hz. apply Hz. exact Hc.
Qed.

Lemma sorted_strict (l : list Q) :
  StronglySorted neq l -> StronglySorted Qlt (Py.sorted (fun x => x) false l).
Proof.
  induction 1 as [| x l Hs IH Hx]; simpl; [constructor |].
  apply insert_strict; [exact IH |].
  apply List.Forall_forall. intros y Hy. apply sorted_In in Hy.
  rewrite List.Forall_forall in Hx. apply Hx. exact Hy.
Qed.

Lemma strict_id_le (l : list Q) : StronglySorted Qlt l -> StronglySorted id_le l.
Proof.
  induction 1 as [| x l Hs IH Hx]; constructor; [exact IH |].
  eapply List.Forall_impl; [| exact Hx]. intros y Hy.
  unfold Py.key_le. apply Qle_bool_iff. lra.
Qed.

Lemma round_canonical (x y : Q) (n : nat) :
  Py.round x n == Py.round y n -> Py.round x n = Py.round y n.
Proof.
  intros H. apply Qred_complete in H.
  unfold Py.round in *.
  rewrite !(fun q => Qred_complete _ _ (Qred_correct q)) in H. exact H.
Qed.

(** The beats that are kept are appended after the onsets. *)
Lemma keep_beats (onset_times : list Q) (tolerance : Q) (beat_times : list Q) :
  forall combined_times,
    fold_left
      (fun combined_times beat_time =>
         if negb (has_nearby_onset onset_times tolerance beat_time)
         then combined_times ++ [beat_time]
         else combined_times)
      beat_times combined_times
    = combined_times ++
      List.filter (fun b => negb (has_nearby_onset onset_times tolerance b))
        beat_times.
Proof.
  induction beat_times as [| b bs IH]; intros acc; simpl.
  - rewrite app_nil_r. reflexivity.
  - rewrite IH. destruct (negb (has_nearby_onset onset_times tolerance b)).
    + rewrite <- app_assoc. reflexivity.
    + reflexivity.
Qed.

Lemma combine_unfold (beat_times onset_times : list Q) (tolerance : Q) :
  combine_beats_and_onsets beat_times onset_times tolerance =
  Py.sorted (fun x => x) false
    (Py.set (map round3
       (onset_times ++
        List.filter (fun b => negb (has_nearby_onset onset_times tolerance b))
          beat_times))).
Proof.
  unfold combine_beats_and_onsets. rewrite keep_beats. reflexivity.
Qed.

Lemma combine_strict (beat_times onset_times : list Q) (tolerance : Q) :
  StronglySorted Qlt (combine_beats_and_onsets beat_times onset_times tolerance).
Proof.
  rewrite combine_unfold. apply sorted_strict, set_distinct.
Qed.

Lemma combine_rounded (beat_times onset_times : list Q) (tolerance x : Q) :
  In x (combine_beats_and_onsets beat_times onset_times tolerance) ->
  exists y, In y (onset_times ++ beat_times) /\ x = Py.round y 3.
Proof.
  rewrite combine_unfold. intros H.
  apply sorted_In, set_In, List.in_map_iff in H.
  destruct H as (y & <- & Hy). exists y. split; [| reflexivity].
  apply List.in_app_iff in Hy. apply List.in_app_iff.
  destruct Hy as [Hy | Hy]; [left; exact Hy | right].
  apply List.filter_In in Hy. tauto.
Qed.

(** With no onset, the result is the sorted set of the rounded beats. *)
Lemma combine_no_onset (beat_times : list Q) (tolerance : Q) :
  combine_beats_and_onsets beat_times [] tolerance =
  Py.sorted (fun x => x) false (Py.set (map round3 beat_times)).
Proof.
  rewrite combine_unfold. simpl.
  rewrite filter_all; [reflexivity |]. intros y _. reflexivity.
Qed.

Lemma combine_fixed (beat_times : list Q) (tolerance : Q) :
  StronglySorted Qlt beat_times ->
  (forall b, In b beat_times -> Py.round b 3 = b) ->
  combine_beats_and_onsets beat_times [] tolerance = beat_times.
Proof.
  intros Hs Hr. rewrite combine_no_onset.
  assert (map round3 beat_times = beat_times) as ->.
  { clear Hs. induction beat_times as [| b bs IH]; [reflexivity |].
    simpl. rewrite Hr by (left; reflexivity).
    rewrite IH; [reflexivity |]. intros c Hc. apply Hr. right. exact Hc. }
  rewrite (set_fixed _ Hs). apply sorted_fixed, strict_id_le. exact Hs.
Qed.

(** C5, as amended.  Every onset time, rounded to the millisecond, is in
    the fused result; the result is no longer than the two inputs
    together; every element of it is the millisecond rounding of an input
    time; it is strictly ascending, hence without duplicates. *)
Theorem fusion_superset (beat_times onset_times : list Q) (tolerance : Q) :
  let fused := combine_beats_and_onsets beat_times onset_times tolerance in
  (forall o, In o onset_times -> In (Py.round o 3) fused) /\
  (length fused <= length onset_times + length beat_times)%nat /\
  (forall x, In x fused ->
     exists y, In y (onset_times ++ beat_times) /\ x = Py.round y 3) /\
  StronglySorted Qlt fused.
Proof.
  intros fused. repeat split.
  - intros o Ho. unfold fused. rewrite combine_unfold. apply sorted_In.
    assert (In (round3 o)
              (map round3
                 (onset_times ++
                  List.filter
                    (fun b => negb (has_nearby_onset onset_times tolerance b))
                    beat_times))) as Hin.
    { apply List.in_map_iff. exists o. split; [reflexivity |].
      apply List.in_app_iff. left. exact Ho. }
    destruct (set_representative _ _ Hin) as (y & Hy & Hyo).
    pose proof (set_In _ _ Hy) as Hy'. apply List.in_map_iff in Hy'.
    destruct Hy' as (y0 & <- & _).
    simpl in Hyo. rewrite <- (round_canonical _ _ _ Hyo). exact Hy.
  - unfold fused. rewrite combine_unfold, sorted_length.
    etransitivity; [apply set_length |].
    rewrite length_map, length_app.
    pose proof (List.filter_length_le
                  (fun b => negb (has_nearby_onset onset_times tolerance b))
                  beat_times). lia.
  - apply combine_rounded.
  - apply combine_strict.
Qed.

(** C8.  Fusing a fused result with no onset gives the fused result
    again, for every tolerance.  With no onset the result is the sorted
    set of the rounded beat times, which is the list of beat times itself
    when that list is strictly ascending and in milliseconds. *)
Theorem fusion_idempotent (beat_times onset_times : list Q) (tolerance : Q) :
  combine_beats_and_onsets
    (combine_beats_and_onsets beat_times onset_times tolerance) [] tolerance
  = combine_beats_and_onsets beat_times onset_times tolerance /\
  combine_beats_and_onsets beat_times [] tolerance
  = Py.sorted (fun x => x) false
      (Py.set (map (fun b => Py.round b 3) beat_times)) /\
  (StronglySorted Qlt beat_times ->
   (forall b, In b beat_times -> Py.round b 3 = b) ->
   combine_beats_and_onsets beat_times [] tolerance = beat_times).
Proof.
  split; [| split].
  - apply combine_fixed; [apply combine_strict |].
    intros b Hb. apply combine_rounded in Hb.
    destruct Hb as (y & _ & ->). apply round_idempotent.
  - apply combine_no_onset.
  - apply combine_fixed.
Qed.

End Fuser.

(** ** The density filter *)

Section Density.
Import ChartGenerator.

Lemma StronglySorted_impl {A} (R S : A -> A -> Prop) (l : list A) :
  (forall a b, R a b -> S a b) -> StronglySorted R l -> StronglySorted S l.
Proof.
  intros HRS. induction 1 as [| x l Hs IH Hx]; constructor; [exact IH |].
  eapply List.Forall_impl; [| exact Hx]. intros y. apply HRS.
Qed.

Lemma StronglySorted_app_cross {A} (R : A -> A -> Prop) (l k : list A) :
  StronglySorted R (l ++ k) -> forall a b, In a l -> In b k -> R a b.
Proof.
  induction l as [| x l IH]; intros Hs a b Ha Hb; [destruct Ha |].
  simpl in Hs. inversion Hs as [| ? ? Hs' Hx]; subst.
  destruct Ha as [<- | Ha].
  - rewrite List.Forall_forall in Hx. apply Hx.
    apply List.in_app_iff. right. exact Hb.
  - apply (IH Hs' a b Ha Hb).
Qed.

(** C6, as amended.  For a density of at least 1 the notes are returned
    as they are.  For a density [d] with [0 < d < 1] the result has
    [min(len(notes), max(1, int(len(notes) * d)))] notes, the product
    being the binary64 one; it is empty for the empty list only; it is
    ascending in time; and it is a rearrangement of the first notes of
    the ranking of all notes by velocity, descending, in which notes of
    equal velocity keep their order, so that no dropped note has a
    greater velocity than a kept one. *)
Theorem density_filter_spec (notes : list Note) (d : Q) :
  (1 <= d -> apply_density_filter notes d = notes) /\
  (0 < d -> d < 1 ->
   let out := apply_density_filter notes d in
   let count :=
     Z.max 1 (Py.int (Float.mul (inject_Z (Z.of_nat (length notes))) d)) in
   length out = Nat.min (length notes) (Z.to_nat count) /\
   (notes <> [] -> out <> []) /\
   (notes = [] -> out = []) /\
   StronglySorted (fun a b => time a <= time b) out /\
   exists kept dropped,
     Permutation out kept /\
     Permutation (kept ++ dropped) notes /\
     StronglySorted (fun a b => velocity b <= velocity a) (kept ++ dropped) /\
     (forall a b, In a kept -> In b dropped -> velocity b <= velocity a) /\
     (forall v,
        List.filter (fun n => Qeq_bool (velocity n) v) (kept ++ dropped) =
        List.filter (fun n => Qeq_bool (velocity n) v) notes)).
Proof.
  split.
  - intros Hd. unfold apply_density_filter.
    apply ge_true in Hd. rewrite Hd. reflexivity.
  - intros Hd0 Hd1 out count.
    assert (out = Py.sorted time false
                    (take (Z.to_nat count) (Py.sorted velocity true notes)))
      as Hout.
    { unfold out, apply_density_filter.
      apply ge_false in Hd1. rewrite Hd1. reflexivity. }
    assert (1 <= count)%Z as Hk1 by apply Z.le_max_l.
    clearbody count out.
    assert (length out = Nat.min (length notes) (Z.to_nat count)) as Hlen.
    { rewrite Hout, sorted_length, length_take, sorted_length. lia. }
    assert (StronglySorted (fun a b => velocity b <= velocity a)
              (Py.sorted velocity true notes)) as Hdesc.
    { eapply StronglySorted_impl; [| apply sorted_StronglySorted].
      intros a b. unfold Py.key_le. apply Qle_bool_iff. }
    split; [exact Hlen |]. split; [| split; [| split]].
    + intros Hne E.
      assert (1 <= length notes)%nat
        by (destruct notes; [congruence | simpl; lia]).
      rewrite E in Hlen. change (length (@nil Note)) with 0%nat in Hlen. lia.
    + intros ->. rewrite Hout. simpl. rewrite take_nil. reflexivity.
    + rewrite Hout.
      eapply StronglySorted_impl; [| apply sorted_StronglySorted].
      intros a b. unfold Py.key_le. apply Qle_bool_iff.
    + exists (take (Z.to_nat count) (Py.sorted velocity true notes)),
             (drop (Z.to_nat count) (Py.sorted velocity true notes)).
      rewrite take_drop. repeat split.
      * rewrite Hout. apply sorted_Permutation.
      * apply sorted_Permutation.
      * exact Hdesc.
      * intros a b Ha Hb.
        rewrite <- (take_drop (Z.to_nat count)) in Hdesc.
        apply (StronglySorted_app_cross _ _ _ Hdesc a b Ha Hb).
      * intros v. apply sorted_stable.
Qed.

End Density.

(** ** The validator *)

Section Validator.
Import ChartGenerator.

Variables (notes : list Note) (audio_duration : Q).

Ltac split_checks :=
  repeat match goal with
         | |- context [if ?b then _ else _] => destruct b
         | |- context [match ?o with Some _ => _ | None => _ end] => destruct o
         end.

(** The checks only append to the list they are given. *)
Lemma check_note_app (issues : list Issue) (i : nat) (note : Note) :
  check_note notes audio_duration issues i note =
  issues ++ check_note notes audio_duration [] i note.
Proof.
  unfold check_note. split_checks; simpl;
    rewrite ?app_nil_r, <- ?app_assoc; reflexivity.
Qed.

Lemma validate_loop_keeps (rest : list Note) :
  forall i issues x,
    In x issues -> In x (validate_loop notes audio_duration i rest issues).
Proof.
  induction rest as [| note rest IH]; intros i issues x Hx; simpl; [exact Hx |].
  apply IH. rewrite check_note_app. apply List.in_app_iff. left. exact Hx.
Qed.

Lemma validate_loop_reports (rest : list Note) :
  forall i issues j note x,
    rest !! j = Some note ->
    In x (check_note notes audio_duration [] (i + j) note) ->
    In x (validate_loop notes audio_duration i rest issues).
Proof.
  induction rest as [| n rest IH]; intros i issues j note x Hj Hx;
    [discriminate |].
  destruct j as [| j]; simpl in Hj |- *.
  - injection Hj as ->. apply validate_loop_keeps.
    rewrite check_note_app. apply List.in_app_iff. right.
    rewrite Nat.add_0_r in Hx. exact Hx.
  - apply (IH (S i) _ j note x Hj).
    replace (S i + j)%nat with (i + S j)%nat by lia. exact Hx.
Qed.

Ltac report :=
  split_checks; rewrite ?List.in_app_iff; simpl; tauto.

Lemma check_negative_time (i : nat) (note : Note) :
  time note < 0 ->
  In (NegativeTime i (time note)) (check_note notes audio_duration [] i note).
Proof.
  intros H. apply lt_true in H. unfold check_note. rewrite H. report.
Qed.

Lemma check_beyond_duration (i : nat) (note : Note) :
  audio_duration < time note ->
  In (BeyondDuration i (time note) audio_duration)
     (check_note notes audio_duration [] i note).
Proof.
  intros H. apply gt_true in H. unfold check_note. rewrite H. report.
Qed.

Lemma check_velocity (i : nat) (note : Note) :
  ~ (0 <= velocity note /\ velocity note <= 1) ->
  In (VelocityOutOfRange i (velocity note))
     (check_note notes audio_duration [] i note).
Proof.
  intros H.
  assert (negb (Qle_bool 0 (velocity note) && Qle_bool (velocity note) 1)
          = true) as E.
  { apply negb_true_iff, not_true_iff_false. intros E. apply H.
    apply andb_true_iff in E. rewrite !Qle_bool_iff in E. exact E. }
  unfold check_note. rewrite E. report.
Qed.

Lemma check_type (i : nat) (note : Note) :
  valid_type (type note) = false ->
  In (InvalidType i (type note)) (check_note notes audio_duration [] i note).
Proof.
  intros H. unfold check_note. rewrite H. cbn [negb].
  report.
Qed.

Lemma check_interval (j : nat) (prev note : Note) :
  notes !! j = Some prev ->
  time note - time prev < 15 # 100 ->
  In (IntervalTooShort j (S j) (time note - time prev))
     (check_note notes audio_duration [] (S j) note).
Proof.
  intros Hp H. apply lt_true in H. unfold check_note.
  change (0 <? S j)%nat with true. cbn iota.
  replace (S j - 1)%nat with j by lia. rewrite Hp, H. report.
Qed.

End Validator.

(** C9.  [validate_chart] is a total function to issue lists.  On a chart
    without notes it returns the single issue [EmptyChart].  Otherwise
    every check that fails on a note, or on a note and its predecessor,
    has its issue in the list, whatever the other checks give: a
    negative time, a time after the audio duration, a velocity outside
    [0, 1], a type outside left/right/both, and an interval to the
    previous note under 0.15 s. *)
Theorem validator_complete (chart : ChartGenerator.Chart) (audio_duration : Q) :
  let issues := ChartGenerator.validate_chart chart audio_duration in
  (ChartGenerator.notes chart = [] -> issues = [ChartGenerator.EmptyChart]) /\
  (forall i note, ChartGenerator.notes chart !! i = Some note ->
     (ChartGenerator.time note < 0 ->
        In (ChartGenerator.NegativeTime i (ChartGenerator.time note)) issues) /\
     (audio_duration < ChartGenerator.time note ->
        In (ChartGenerator.BeyondDuration i (ChartGenerator.time note)
              audio_duration) issues) /\
     (~ (0 <= ChartGenerator.velocity note /\
         ChartGenerator.velocity note <= 1) ->
        In (ChartGenerator.VelocityOutOfRange i (ChartGenerator.velocity note))
           issues) /\
     (ChartGenerator.valid_type (ChartGenerator.type note) = false ->
        In (ChartGenerator.InvalidType i (ChartGenerator.type note)) issues) /\
     (forall j prev, i = S j -> ChartGenerator.notes chart !! j = Some prev ->
        ChartGenerator.time note - ChartGenerator.time prev < 15 # 100 ->
        In (ChartGenerator.IntervalTooShort j i
              (ChartGenerator.time note - ChartGenerator.time prev)) issues)).
Proof.
  intros issues. split.
  - intros Hempty. unfold issues, ChartGenerator.validate_chart.
    rewrite Hempty. reflexivity.
  - intros i note Hi.
    assert (forall x,
              In x (ChartGenerator.check_note (ChartGenerator.notes chart)
                      audio_duration [] i note) -> In x issues) as Hrep.
    { intros x Hx. unfold issues, ChartGenerator.validate_chart.
      destruct (ChartGenerator.notes chart) as [| n ns] eqn:E;
        [discriminate |].
      rewrite <- E in *.
      apply (validate_loop_reports _ _ _ 0 [] i note x Hi). exact Hx. }
    repeat split.
    + intros H. apply Hrep, check_negative_time, H.
    + intros H. apply Hrep, check_beyond_duration, H.
    + intros H. apply Hrep, check_velocity, H.
    + intros H. apply Hrep, check_type, H.
    + intros j prev -> Hp H. apply Hrep, check_interval; assumption.
Qed.

(** ** Chart metadata *)

Section MetadataFacts.
Import ChartGenerator GenerateChart.






End MetadataFacts.

(** ** Concrete runs *)

Section Runs.
Import ChartGenerator GenerateChart BeatDetection Inv Examples.

Example four_events_chart :
  generate_chart four_events config_easy mapping "demo" "easy"
  = Py.Ok four_chart.
Proof. vm_compute. reflexivity. Qed.


Example four_events_sparse :
  generate_for_difficulty four_events 1 config_sparse mapping "demo" "easy"
  = Py.Ok (sparse_chart, []).
Proof. vm_compute. reflexivity. Qed.

(** The first scenario of the specification: the second event comes
    0.05 s after the first and is dropped. *)
Example scenario_min_interval :
  (c ← generate_chart
         [event 0 (9 # 10) (1 # 10) (1 # 10);
          event (5 # 100) (9 # 10) (1 # 10) (1 # 10)]
         config_easy mapping "demo" "easy";
   mret (notes c))
  = Py.Ok [mkNote 0 "both" (9 # 10)].
Proof. vm_compute. reflexivity. Qed.

(** The second scenario of the specification. *)
Example scenario_density :
  apply_density_filter three_notes (2 # 3)
  = [mkNote 0 "both" (9 # 10); mkNote 2 "left" (7 # 10)].
Proof. vm_compute. reflexivity. Qed.

(** After the density filter only [noteCount] is refreshed: the three
    counts and the average still describe the unfiltered notes. *)
Example sparse_counts_are_stale :
  exists chart issues,
    generate_for_difficulty four_events 1 config_sparse mapping "demo" "easy"
    = Py.Ok (chart, issues) /\
    length (notes chart) = 2%nat /\
    (leftCount (metadata chart) + rightCount (metadata chart)
     + bothCount (metadata chart) = 4)%nat /\
    ~ Spec.counts_partition chart.
Proof.
  exists sparse_chart, []. split; [exact four_events_sparse |].
  split; [reflexivity |]. split; [reflexivity |].
  intros (H & _). vm_compute in H. discriminate.
Qed.

(** C1: the claim as stated fails.  An event with all three energies above
    their thresholds that comes 0.05 s after the last accepted note, with
    a minimum interval of 0.1 s, adds no note. *)
Lemma classification_gate_counterexample :
  ~ (forall (kt st ht mi : Q) (mapping : gmap string string)
       (notes : list Note) (last_time : Q) (event : gmap string Q) (ty : string),
       is_Some (event !! "time") ->
       mapping !! "kick" = Some ty ->
       kt < Py.get event "kick_energy_norm" 0 ->
       st < Py.get event "snare_energy_norm" 0 ->
       ht < Py.get event "hihat_energy_norm" 0 ->
       exists note last_time',
         loop_body kt st ht mi mapping (notes, last_time) event
         = Py.Ok (notes ++ [note], last_time') /\
         type note = ty).
Proof.
  intros H.
  destruct (H (1 # 2) (1 # 2) (1 # 2) (1 # 10) mapping [first_note] 0
              close_event "both")
    as (note & last_time' & Hrun & _);
    try reflexivity.
  - exists (5 # 100). reflexivity.
  - vm_compute in Hrun. discriminate Hrun.
Qed.

Lemma classification_priority_witness :
  close_event !! "time" = Some (5 # 100) /\
  1 # 10 <= (5 # 100) - - (999 # 1) /\
  loop_body (1 # 2) (1 # 2) (1 # 2) (1 # 10) mapping ([], - (999 # 1))
    close_event
  = Py.Ok ([mkNote (1 # 20) "both" (9 # 10)], 5 # 100) /\
  loop_body (1 # 2) (1 # 2) (1 # 2) (1 # 10) mapping ([first_note], 0)
    snare_event
  = Py.Ok ([first_note; mkNote 1 "right" (9 # 10)], 1) /\
  loop_body (1 # 2) (1 # 2) (1 # 2) (1 # 10) mapping ([first_note], 0)
    hihat_event
  = Py.Ok ([first_note; mkNote 1 "left" (3 # 5)], 1) /\
  loop_body (1 # 2) (1 # 2) (1 # 2) (1 # 10) mapping ([first_note], 0)
    quiet_event
  = Py.Ok ([first_note], 0).
Proof.
  assert (close_event !! "time" = Some (5 # 100)) as Htime by reflexivity.
  assert (1 # 10 <= (5 # 100) - - (999 # 1)) as Hgate
    by (vm_compute; discriminate).
  assert (1 # 10 <= 1 - 0) as Hgate1 by (vm_compute; discriminate).
  split; [exact Htime |]. split; [exact Hgate |]. split; [| split; [| split]].
  - apply (proj1 (classification_priority (1 # 2) (1 # 2) (1 # 2) (1 # 10)
                    mapping [] (- (999 # 1)) (5 # 100) close_event Htime Hgate)
             "both"); [reflexivity | reflexivity | discriminate].
  - destruct (classification_priority (1 # 2) (1 # 2) (1 # 2) (1 # 10)
                mapping [first_note] 0 1 snare_event eq_refl Hgate1)
      as (_ & Hsnare & _).
    apply (Hsnare "right");
      [vm_compute; discriminate | reflexivity | reflexivity | discriminate].
  - destruct (classification_priority (1 # 2) (1 # 2) (1 # 2) (1 # 10)
                mapping [first_note] 0 1 hihat_event eq_refl Hgate1)
      as (_ & _ & Hhihat & _).
    apply (Hhihat "left");
      [vm_compute; discriminate | vm_compute; discriminate | reflexivity
      | reflexivity | discriminate].
  - destruct (classification_priority (1 # 2) (1 # 2) (1 # 2) (1 # 10)
                mapping [first_note] 0 1 quiet_event eq_refl Hgate1)
      as (_ & _ & _ & Hnone).
    apply Hnone; vm_compute; discriminate.
Defined.

Lemma minimum_interval_witness :
  generate_chart four_events config_easy mapping "demo" "easy"
    = Py.Ok four_chart /\
  config_easy !! "min_interval" = Some (1 # 10) /\
  forall i a b, four_notes !! i = Some a -> four_notes !! S i = Some b ->
                (1 # 10) - (1 # 1000) <= time b - time a.
Proof.
  assert (generate_chart four_events config_easy mapping "demo" "easy"
          = Py.Ok four_chart) as Hrun by (vm_compute; reflexivity).
  assert (config_easy !! "min_interval" = Some (1 # 10)) as Hmin
    by reflexivity.
  split; [exact Hrun |]. split; [exact Hmin |].
  exact (proj2 (minimum_interval four_events config_easy mapping "demo" "easy"
                  four_chart (1 # 10) Hrun Hmin)).
Defined.



(** C5: the claim as stated fails.  An onset at 0.0232 s is in the result
    as 0.023, no element of the result equals 0.0232. *)
Lemma onset_time_counterexample :
  combine_beats_and_onsets [] [232 # 10000] (1 # 10) = [23 # 1000] /\
  ~ (exists x, In x (combine_beats_and_onsets [] [232 # 10000] (1 # 10)) /\
               x == 232 # 10000).
Proof.
  split; [vm_compute; reflexivity |].
  intros (x & Hx & E). vm_compute in Hx. destruct Hx as [<- | []].
  vm_compute in E. discriminate E.
Qed.

(** C6: the claim as stated fails on the empty list, where the result is
    empty and [max(1, floor(0 * d))] is 1. *)
Lemma density_empty_counterexample :
  ~ (forall (notes : list Note) (d : Q), 0 < d -> d < 1 ->
       Z.of_nat (length (apply_density_filter notes d))
       = Spec.density_count notes d).
Proof.
  intros H. specialize (H [] (1 # 2) eq_refl eq_refl).
  vm_compute in H. discriminate H.
Qed.

Lemma density_filter_witness :
  0 < 2 # 3 /\ 2 # 3 < 1 /\
  length (apply_density_filter three_notes (2 # 3)) = 2%nat.
Proof.
  assert (0 < 2 # 3) as H0 by reflexivity.
  assert (2 # 3 < 1) as H1 by reflexivity.
  split; [exact H0 |]. split; [exact H1 |].
  destruct (proj2 (density_filter_spec three_notes (2 # 3)) H0 H1)
    as (Hcount & _).
  vm_compute in Hcount |- *. exact Hcount.
Defined.

(** The product is rounded: of fifty notes a density of 0.58 keeps 28,
    where [max(1, floor(50 * 0.58))] is 29; of ten notes a density of 0.7
    keeps 7. *)
Example density_rounding :
  length (apply_density_filter fifty_notes (58 # 100)) = 28%nat /\
  Spec.density_count fifty_notes (58 # 100) = 29%Z /\
  length (apply_density_filter (take 10 fifty_notes) (7 # 10)) = 7%nat.
Proof. vm_compute. auto. Qed.

Lemma normalization_bound_witness :
  raw_events <> [] /\ Forall raw_event_ok raw_events /\
  exists events',
    normalize_energies raw_events = Py.Ok events' /\
    length events' = length raw_events.
Proof.
  assert (raw_events <> []) as Hne by discriminate.
  assert (Forall raw_event_ok raw_events) as Hraw.
  { repeat constructor;
      intros raw norm [[= <- <-] | [[= <- <-] | [[= <- <-] | []]]];
      eexists; (split; [reflexivity | vm_compute; discriminate]). }
  split; [exact Hne |]. split; [exact Hraw |].
  destruct (normalization_bound raw_events Hne Hraw)
    as (events' & Hrun & Hlen & _).
  exists events'. split; assumption.
Defined.

Lemma missing_energy_witness :
  0 <= 1 # 2 /\
  loop_body (1 # 2) (1 # 2) (1 # 2) (1 # 10) mapping ([], - (999 # 1))
    bare_event
  = Py.Ok ([], - (999 # 1)) /\
  loop_body (1 # 2) (1 # 2) (1 # 2) (1 # 10) mapping ([], - (999 # 1))
    no_kick_event
  = loop_body (1 # 2) (1 # 2) (1 # 2) (1 # 10) mapping ([], - (999 # 1))
      (<["kick_energy_norm" := 0]> no_kick_event).
Proof.
  assert (0 <= 1 # 2) as Hth by (vm_compute; discriminate).
  split; [exact Hth |]. split.
  - destruct (missing_energy_is_zero (1 # 2) (1 # 2) (1 # 2) (1 # 10) mapping
                [] (- (999 # 1)) bare_event Hth Hth Hth)
      as (_ & _ & Hall).
    rewrite Hall; reflexivity.
  - destruct (missing_energy_is_zero (1 # 2) (1 # 2) (1 # 2) (1 # 10) mapping
                [] (- (999 # 1)) no_kick_event Hth Hth Hth)
      as (Hzero & _).
    apply Hzero; [left; reflexivity | reflexivity].
Defined.

(** An event without a kick energy and a snare energy of 0.9 gives the
    snare note. *)
Example no_kick_event_note :
  loop_body (1 # 2) (1 # 2) (1 # 2) (1 # 10) mapping ([], - (999 # 1))
    no_kick_event
  = Py.Ok ([mkNote 1 "right" (9 # 10)], 1).
Proof. vm_compute. reflexivity. Qed.

(** The validator on a chart with four defects: all four are reported,
    in the order of the checks. *)
Example odd_chart_issues :
  validate_chart odd_chart 3
  = [InvalidType 0 "up"; VelocityOutOfRange 1 2;
     IntervalTooShort 0 1 (1 # 10); BeyondDuration 2 4 3].
Proof. vm_compute. reflexivity. Qed.

Example empty_chart_issues :
  validate_chart (mkChart "demo" "easy" [] (mkMetadata "algorithm" 0 0 0 0 0)) 3
  = [EmptyChart].
Proof. reflexivity. Qed.

End Runs.

(** * Further properties of the code *)

(** ** Rounding is monotone *)

Section RoundingOrder.

Lemma rint_mono (x y : Q) : x <= y -> (Py.rint x <= Py.rint y)%Z.
Proof.
  intros Hxy. destruct (Qeq_dec x y) as [E | N].
  - rewrite (rint_comp _ _ E). lia.
  - assert (x < y) as Hlt.
    { destruct (Qlt_le_dec x y) as [H | H]; [exact H |].
      exfalso. apply N. lra. }
    pose proof (rint_error x) as Hx. pose proof (rint_error y) as Hy.
    assert (inject_Z (Py.rint x) < inject_Z (Py.rint y + 1)) as H.
    { rewrite inject_Z_plus. change (inject_Z 1) with 1. lra. }
    rewrite <- Zlt_Qlt in H. lia.
Qed.

Lemma round_mono (x y : Q) (n : nat) :
  x <= y -> Py.round x n <= Py.round y n.
Proof.
  intros Hxy. unfold Py.round. rewrite !Qred_correct.
  assert (x * inject_Z (Z.pos (Py.pow10 n))
          <= y * inject_Z (Z.pos (Py.pow10 n))) as H.
  { apply Qmult_le_compat_r; [exact Hxy |].
    change 0 with (inject_Z 0). rewrite <- Zle_Qle. lia. }
  apply rint_mono in H. unfold Qle. simpl. nia.
Qed.

(** A rounded value is an integer number of units. *)
Lemma round_units (x : Q) (n : nat) :
  Py.round x n
  == inject_Z (Py.rint (x * inject_Z (Z.pos (Py.pow10 n))))
     / inject_Z (Z.pos (Py.pow10 n)).
Proof.
  unfold Py.round. rewrite Qred_correct. apply Qmake_Qdiv.
Qed.

Lemma round2_unit_interval (v : Q) :
  0 <= v -> v <= 1 -> 0 <= Py.round v 2 /\ Py.round v 2 <= 1.
Proof.
  intros H0 H1. split.
  - change 0 with (Py.round 0 2). apply round_mono. exact H0.
  - change 1 with (Py.round 1 2). apply round_mono. exact H1.
Qed.

Lemma round3_nonneg (t : Q) : 0 <= t -> 0 <= Py.round t 3.
Proof.
  intros H. change 0 with (Py.round 0 3). apply round_mono. exact H.
Qed.

End RoundingOrder.

(** ** Binary64 rounding keeps the sign *)

Section FloatFacts.

Lemma pow2_pos (e : Z) : 0 < Float.pow2 e.
Proof. unfold Float.pow2. apply Qpower_0_lt. reflexivity. Qed.

Lemma fl_nonneg (x : Q) : 0 <= x -> 0 <= Float.fl x.
Proof.
  intros Hx. unfold Float.fl. rewrite Qred_correct.
  pose proof (pow2_pos (Float.quantum x)) as Hq.
  set (q := Float.pow2 (Float.quantum x)) in *. clearbody q.
  assert (0 <= x / q) as H by (apply Qle_shift_div_l; [exact Hq | lra]).
  apply rint_mono in H. change (Py.rint 0) with 0%Z in H.
  apply Qmult_le_0_compat; [| lra].
  change 0 with (inject_Z 0). rewrite <- Zle_Qle. exact H.
Qed.

Lemma fl_nonpos (x : Q) : x <= 0 -> Float.fl x <= 0.
Proof.
  intros Hx. unfold Float.fl. rewrite Qred_correct.
  pose proof (pow2_pos (Float.quantum x)) as Hq.
  set (q := Float.pow2 (Float.quantum x)) in *. clearbody q.
  assert (x / q <= 0) as H by (apply Qle_shift_div_r; [exact Hq | lra]).
  apply rint_mono in H. change (Py.rint 0) with 0%Z in H.
  assert (inject_Z (Py.rint (x / q)) <= 0) as Hz
    by (change 0 with (inject_Z 0); rewrite <- Zle_Qle; exact H).
  set (z := inject_Z (Py.rint (x / q))) in *. clearbody z. nra.
Qed.

(** The product of a number that is not negative with one that is not
    positive is not positive. *)
Lemma float_mul_nonpos (x y : Q) : 0 <= x -> y <= 0 -> Float.mul x y <= 0.
Proof.
  intros Hx Hy. unfold Float.mul. apply fl_nonpos.
  pose proof (fl_nonneg x Hx). pose proof (fl_nonpos y Hy).
  set (a := Float.fl x) in *. set (b := Float.fl y) in *.
  clearbody a b. nra.
Qed.

(** The floats of three decimal literals, and the products and
    differences that decide the examples further down. *)
Example float_literals :
  Float.fl (1 # 10) = 3602879701896397 # 36028797018963968 /\
  Float.fl (58 # 100) = 5224175567749775 # 9007199254740992 /\
  Float.fl (1 # 2) = 1 # 2 /\
  Float.mul 50 (58 # 100) = 8162774324609023 # 281474976710656 /\
  Float.mul 10 (7 # 10) = 7 /\
  Float.sub (6 # 10) (5 # 10) = 900719925474099 # 9007199254740992 /\
  Float.sub (108 # 1000) (8 # 1000) = Float.fl (1 # 10).
Proof. vm_compute. auto 10. Qed.

End FloatFacts.

(** ** [generate_chart]: when it returns, and what the notes are *)

Section ChartRuns.
Import ChartGenerator Inv Pre.

Variables (kt st ht m : Q) (mapping : gmap string string).

Local Abbreviation body := (loop_body kt st ht m mapping).

Lemma complete_mapping_lookup :
  complete_mapping mapping ->
  exists lk ls lh,
    mapping !! "kick" = Some lk /\ mapping !! "snare" = Some ls /\
    mapping !! "hihat" = Some lh.
Proof.
  intros H. unfold complete_mapping in H.
  inversion H as [| ? ? [lk Hk] H1]; subst.
  inversion H1 as [| ? ? [ls Hs] H2]; subst.
  inversion H2 as [| ? ? [lh Hh] _]; subst.
  exists lk, ls, lh. auto.
Qed.

Lemma decide_note_type_returns (k s h : Q) :
  complete_mapping mapping ->
  exists r, decide_note_type kt st ht mapping k s h = Py.Ok r.
Proof.
  intros H. destruct (complete_mapping_lookup H) as (lk & ls & lh & Hk & Hs & Hh).
  unfold decide_note_type, snare_arm, hihat_arm, Py.getitem.
  rewrite Hk, Hs, Hh.
  destruct (Py.gt k kt); [eexists; reflexivity |].
  destruct (Py.gt s st); [eexists; reflexivity |].
  destruct (Py.gt h ht); eexists; reflexivity.
Qed.

Lemma decide_note_type_source (k s h v : Q) (ty : string) :
  decide_note_type kt st ht mapping k s h = Py.Ok (Some ty, v) ->
  (mapping !! "kick" = Some ty /\ kt < k /\ v = k) \/
  (mapping !! "snare" = Some ty /\ st < s /\ v = s) \/
  (mapping !! "hihat" = Some ty /\ ht < h /\ v = h).
Proof.
  unfold decide_note_type, snare_arm, hihat_arm, Py.getitem.
  destruct (Py.gt k kt) eqn:Ek.
  { apply gt_true in Ek. destruct (mapping !! "kick") as [l |]; simpl;
      [| discriminate]. intros [= -> ->]. left. auto. }
  destruct (Py.gt s st) eqn:Es.
  { apply gt_true in Es. destruct (mapping !! "snare") as [l |]; simpl;
      [| discriminate]. intros [= -> ->]. right. left. auto. }
  destruct (Py.gt h ht) eqn:Eh.
  { apply gt_true in Eh. destruct (mapping !! "hihat") as [l |]; simpl;
      [| discriminate]. intros [= -> ->]. right. right. auto. }
  discriminate.
Qed.

Lemma loop_body_no_time (s : list Note * Q) (e : gmap string Q) :
  e !! "time" = None -> body s e = Py.Raise (Py.KeyError "time").
Proof.
  intros H. destruct s as [notes last_time]. unfold loop_body, Py.getitem.
  rewrite H. reflexivity.
Qed.

Lemma loop_body_returns (s : list Note * Q) (e : gmap string Q) :
  complete_mapping mapping -> is_Some (e !! "time") ->
  exists s', body s e = Py.Ok s'.
Proof.
  intros Hmap [t Ht]. destruct s as [notes last_time].
  unfold loop_body, Py.getitem. rewrite Ht. simpl.
  destruct (Py.lt (t - last_time) m); [eexists; reflexivity |].
  destruct (decide_note_type_returns
              (Py.get e "kick_energy_norm" 0) (Py.get e "snare_energy_norm" 0)
              (Py.get e "hihat_energy_norm" 0) Hmap) as [[[ty |] v] ->]; simpl.
  - destruct (Py.truthy_str ty); eexists; reflexivity.
  - eexists; reflexivity.
Qed.

(** A step keeps the state or appends one note with its source. *)
Lemma loop_body_source (notes : list Note) (last_time : Q)
    (e : gmap string Q) (s' : list Note * Q) :
  body (notes, last_time) e = Py.Ok s' ->
  s' = (notes, last_time) \/
  exists n t, s' = (notes ++ [n], t) /\ note_source kt st ht mapping e n.
Proof.
  unfold loop_body. unfold Py.getitem at 1.
  destruct (e !! "time") as [t |] eqn:Ht; simpl; [| discriminate].
  destruct (Py.lt (t - last_time) m); [intros [= <-]; left; reflexivity |].
  destruct (decide_note_type _ _ _ _ _ _ _) as [[[ty |] v] | err] eqn:Hd;
    simpl; try discriminate.
  - destruct (Py.truthy_str ty) eqn:Hty.
    + intros [= <-]. right.
      exists (mkNote (Py.round t 3) ty (Py.round v 2)), t.
      split; [reflexivity |]. exists t. simpl.
      split; [exact Ht |]. split; [reflexivity |].
      split; [intros ->; discriminate |].
      destruct (decide_note_type_source _ _ _ _ _ Hd)
        as [(H1 & H2 & ->) | [(H1 & H2 & ->) | (H1 & H2 & ->)]]; auto.
    + intros [= <-]. left. reflexivity.
  - intros [= <-]. left. reflexivity.
Qed.

Lemma foldM_returns (rest : list (gmap string Q)) :
  complete_mapping mapping -> Forall (fun e => is_Some (e !! "time")) rest ->
  forall s, exists s', Py.foldM body rest s = Py.Ok s'.
Proof.
  intros Hmap. induction 1 as [| e rest He _ IH]; intros s; simpl.
  - eexists; reflexivity.
  - destruct (loop_body_returns s e Hmap He) as [s1 ->]. simpl. apply IH.
Qed.

Lemma foldM_raises (rest : list (gmap string Q)) :
  complete_mapping mapping -> Exists (fun e => e !! "time" = None) rest ->
  forall s, Py.foldM body rest s = Py.Raise (Py.KeyError "time").
Proof.
  intros Hmap. induction rest as [| e rest IH]; intros Hex s.
  - inversion Hex.
  - simpl. destruct (e !! "time") as [t |] eqn:Ht.
    + destruct (loop_body_returns s e Hmap (ex_intro _ t Ht)) as [s1 ->].
      simpl. apply IH. inversion Hex as [? ? H | ? ? H]; subst;
        [congruence | exact H].
    + rewrite (loop_body_no_time s e Ht). reflexivity.
Qed.

Lemma foldM_sources (events rest : list (gmap string Q)) :
  (forall e, In e rest -> In e events) ->
  forall s s',
    Forall (fun n => exists e, In e events /\ note_source kt st ht mapping e n)
      s.1 ->
    Py.foldM body rest s = Py.Ok s' ->
    Forall (fun n => exists e, In e events /\ note_source kt st ht mapping e n)
      s'.1 /\
    (length s'.1 <= length s.1 + length rest)%nat.
Proof.
  induction rest as [| e rest IH]; intros Hsub s s' Hs Hrun.
  - injection Hrun as <-. split; [exact Hs | lia].
  - simpl in Hrun. destruct (body s e) as [s1 | err] eqn:Hstep;
      simpl in Hrun; [| discriminate].
    destruct s as [notes last_time].
    destruct (loop_body_source _ _ _ _ Hstep) as [-> | (n & t & -> & Hn)].
    + destruct (IH (fun x Hx => Hsub x (or_intror Hx)) (notes, last_time) s'
                  Hs Hrun)
        as [H1 H2]. split; [exact H1 | simpl in *; lia].
    + assert (Forall
                (fun n => exists e, In e events /\
                                    note_source kt st ht mapping e n)
                (notes ++ [n])) as Hs1.
      { apply Forall_app. split; [exact Hs |].
        constructor; [| constructor]. exists e.
        split; [apply Hsub; left; reflexivity | exact Hn]. }
      destruct (IH (fun x Hx => Hsub x (or_intror Hx)) (notes ++ [n], t) s'
                  Hs1 Hrun)
        as [H1 H2]. split; [exact H1 |].
      simpl in *. rewrite length_app in H2. simpl in H2. lia.
Qed.

End ChartRuns.

Section ChartFacts.
Import ChartGenerator Inv Pre.

Lemma complete_config_lookup (cfg : gmap string Q) :
  complete_config cfg ->
  exists kt st ht m,
    cfg !! "kick_threshold" = Some kt /\ cfg !! "snare_threshold" = Some st /\
    cfg !! "hihat_threshold" = Some ht /\ cfg !! "min_interval" = Some m.
Proof.
  intros H. unfold complete_config in H.
  inversion H as [| ? ? [kt Hk] H1]; subst.
  inversion H1 as [| ? ? [st Hs] H2]; subst.
  inversion H2 as [| ? ? [ht Hh] H3]; subst.
  inversion H3 as [| ? ? [m Hm] _]; subst.
  exists kt, st, ht, m. auto.
Qed.

(** X1.  With the four entries of the difficulty and the three labels of
    the mapping present, [generate_chart] returns a chart when every
    event has a [time], and raises [KeyError('time')] as soon as one event
    has none: it raises nothing else. *)
Theorem generate_chart_returns (events : list (gmap string Q))
    (cfg : gmap string Q) (mapping : gmap string string)
    (song_id difficulty : string)
    (Hcfg : complete_config cfg) (Hmap : complete_mapping mapping) :
  (Forall (fun e => is_Some (e !! "time")) events ->
   exists chart,
     generate_chart events cfg mapping song_id difficulty = Py.Ok chart) /\
  (Exists (fun e => e !! "time" = None) events ->
   generate_chart events cfg mapping song_id difficulty
   = Py.Raise (Py.KeyError "time")).
Proof.
  destruct (complete_config_lookup cfg Hcfg)
    as (kt & st & ht & m & Hk & Hs & Hh & Hm).
  unfold generate_chart, Py.getitem. rewrite Hk, Hs, Hh, Hm. simpl. split.
  - intros Htimed.
    destruct (foldM_returns kt st ht m mapping events Hmap Htimed
                ([], - (999 # 1))) as [[notes last_time] ->].
    simpl. eexists. reflexivity.
  - intros Hex.
    rewrite (foldM_raises kt st ht m mapping events Hmap Hex). reflexivity.
Qed.

Lemma spaced_ascending (m : Q) (l : list Q) :
  0 <= m -> spaced m l -> StronglySorted Qle l.
Proof.
  intros Hm. induction l as [| a l IH]; intros Hsp; [constructor |].
  destruct l as [| b l]; [constructor; constructor |].
  destruct Hsp as [Hab Hsp]. specialize (IH Hsp).
  constructor; [exact IH |].
  inversion IH as [| ? ? _ Hb]; subst.
  constructor; [lra |].
  eapply List.Forall_impl; [| exact Hb]. intros c Hc. simpl in Hc. lra.
Qed.

Lemma StronglySorted_fmap_inv {A B} (R : B -> B -> Prop) (f : A -> B)
    (l : list A) :
  StronglySorted R (f <$> l) -> StronglySorted (fun a b => R (f a) (f b)) l.
Proof.
  induction l as [| x l IH]; intros H; [constructor |].
  simpl in H. inversion H as [| ? ? Hs Hx]; subst.
  constructor; [apply IH; exact Hs |].
  apply List.Forall_forall. intros y Hy.
  rewrite List.Forall_forall in Hx. apply Hx.
  apply list_elem_of_In, list_elem_of_fmap. exists y.
  split; [reflexivity | apply list_elem_of_In; exact Hy].
Qed.

Lemma StronglySorted_fmap {A B} (R : A -> A -> Prop) (S : B -> B -> Prop)
    (f : A -> B) (l : list A) :
  (forall a b, R a b -> S (f a) (f b)) ->
  StronglySorted R l -> StronglySorted S (f <$> l).
Proof.
  intros HRS. induction 1 as [| x l Hs IH Hx]; simpl; constructor;
    [exact IH |].
  apply List.Forall_forall. intros y Hy.
  apply list_elem_of_In, list_elem_of_fmap in Hy.
  destruct Hy as (z & -> & Hz). apply HRS.
  rewrite List.Forall_forall in Hx. apply Hx, list_elem_of_In. exact Hz.
Qed.

(** The scan of [generate_chart], with its invariant at the end. *)
Lemma generate_chart_scan (events : list (gmap string Q))
    (cfg : gmap string Q) (mapping : gmap string string)
    (song_id difficulty : string) (chart : Chart) (m : Q) :
  generate_chart events cfg mapping song_id difficulty = Py.Ok chart ->
  cfg !! "min_interval" = Some m ->
  exists accepted last_time,
    scan_inv m events accepted (notes chart, last_time).
Proof.
  intros Hrun Hmin.
  destruct (generate_chart_Ok _ _ _ _ _ _ Hrun)
    as (kt & st & ht & m' & last_time & _ & _ & _ & Hm & Hfold & _).
  rewrite Hmin in Hm. injection Hm as <-.
  assert (scan_inv m events [] ([], - (999 # 1))) as Hinit.
  { repeat split; [| constructor]. intros a Ha. discriminate. }
  destruct (scan_inv_foldM _ _ _ _ _ events events (fun e He => He)
              _ _ _ Hinit Hfold) as (accepted & Hinv).
  exists accepted, last_time. exact Hinv.
Qed.

(** X2.  With a minimum interval that is not negative, the notes of a
    generated chart are in ascending order of time, whatever the order of
    the events: an event earlier than the last accepted one is skipped. *)
Theorem notes_ascending (events : list (gmap string Q))
    (cfg : gmap string Q) (mapping : gmap string string)
    (song_id difficulty : string) (chart : Chart) (min_interval : Q)
    (Hrun : generate_chart events cfg mapping song_id difficulty = Py.Ok chart)
    (Hmin : cfg !! "min_interval" = Some min_interval)
    (Hpos : 0 <= min_interval) :
  StronglySorted (fun a b => time a <= time b) (notes chart).
Proof.
  destruct (generate_chart_scan _ _ _ _ _ _ _ Hrun Hmin)
    as (accepted & last_time & Hmap & Hsp & _).
  simpl in Hmap. apply StronglySorted_fmap_inv. rewrite Hmap.
  eapply StronglySorted_fmap; [| apply (spaced_ascending _ _ Hpos Hsp)].
  intros a b Hab. apply round_mono. exact Hab.
Qed.

(** X3.  Every note of a generated chart has a source among the events:
    an event with a time, whose rounded time is the note's, with a
    category whose normalised energy is strictly above its threshold,
    whose non-empty label is the note's type and whose rounded energy is
    the note's velocity.  There are at most as many notes as events. *)
Theorem note_provenance (events : list (gmap string Q))
    (cfg : gmap string Q) (mapping : gmap string string)
    (song_id difficulty : string) (chart : Chart) (kt st ht : Q)
    (Hrun : generate_chart events cfg mapping song_id difficulty = Py.Ok chart)
    (Hkick : cfg !! "kick_threshold" = Some kt)
    (Hsnare : cfg !! "snare_threshold" = Some st)
    (Hhihat : cfg !! "hihat_threshold" = Some ht) :
  (forall n, In n (notes chart) ->
     exists e, In e events /\ note_source kt st ht mapping e n) /\
  (length (notes chart) <= length events)%nat.
Proof.
  destruct (generate_chart_Ok _ _ _ _ _ _ Hrun)
    as (kt' & st' & ht' & m & last_time & Hk & Hs & Hh & _ & Hfold & _).
  assert (kt' = kt) as -> by congruence.
  assert (st' = st) as -> by congruence.
  assert (ht' = ht) as -> by congruence.
  destruct (foldM_sources kt st ht m mapping events events (fun e He => He)
              ([], - (999 # 1)) _ (List.Forall_nil _) Hfold) as [Hall Hlen].
  split; [| exact Hlen].
  apply List.Forall_forall. exact Hall.
Qed.

End ChartFacts.

(** ** The validator reports nothing else *)

Section ValidatorExact.
Import ChartGenerator Pre.

Variables (notes : list Note) (audio_duration : Q).

(** The five checks of one note, each with at most one issue. *)
Lemma check_note_parts (i : nat) (note : Note) :
  check_note notes audio_duration [] i note =
  (if Py.lt (time note) 0 then [NegativeTime i (time note)] else []) ++
  (if Py.gt (time note) audio_duration
   then [BeyondDuration i (time note) audio_duration] else []) ++
  (if negb (Qle_bool 0 (velocity note) && Qle_bool (velocity note) 1)
   then [VelocityOutOfRange i (velocity note)] else []) ++
  (if negb (valid_type (type note)) then [InvalidType i (type note)] else []) ++
  (if (0 <? i)%nat then
     match notes !! (i - 1)%nat with
     | Some prev =>
         if Py.lt (time note - time prev) (15 # 100)
         then [IntervalTooShort (i - 1) i (time note - time prev)] else []
     | None => []
     end
   else []).
Proof.
  unfold check_note.
  destruct (Py.lt (time note) 0); destruct (Py.gt (time note) audio_duration);
    destruct (negb (Qle_bool 0 (velocity note) && Qle_bool (velocity note) 1));
    destruct (negb (valid_type (type note))); destruct (0 <? i)%nat;
    try destruct (notes !! (i - 1)%nat) as [prev |];
    try destruct (Py.lt (time note - time prev) (15 # 100));
    reflexivity.
Qed.

Lemma check_note_sound (i : nat) (note : Note) (x : Issue) :
  notes !! i = Some note ->
  In x (check_note notes audio_duration [] i note) ->
  issue_justified notes audio_duration x.
Proof.
  intros Hi. rewrite check_note_parts, !List.in_app_iff.
  intros [H | [H | [H | [H | H]]]].
  - destruct (Py.lt (time note) 0) eqn:E; [| destruct H].
    destruct H as [<- | []]. apply lt_true in E. exists note. auto.
  - destruct (Py.gt (time note) audio_duration) eqn:E; [| destruct H].
    destruct H as [<- | []]. apply gt_true in E. exists note. auto.
  - destruct (negb _) eqn:E; [| destruct H].
    destruct H as [<- | []]. exists note. split; [exact Hi |].
    split; [reflexivity |]. intros [H0 H1].
    apply Qle_bool_iff in H0. apply Qle_bool_iff in H1.
    rewrite H0, H1 in E. discriminate.
  - destruct (negb _) eqn:E; [| destruct H].
    destruct H as [<- | []]. apply negb_true_iff in E. exists note. auto.
  - destruct i as [| j]; [destruct H |]. simpl in H.
    rewrite Nat.sub_0_r in H.
    destruct (notes !! j) as [prev |] eqn:Hj; [| destruct H].
    destruct (Py.lt (time note - time prev) (15 # 100)) eqn:E; [| destruct H].
    destruct H as [<- | []]. apply lt_true in E. split; [reflexivity |].
    exists prev, note. auto.
Qed.

Lemma check_note_length (i : nat) (note : Note) :
  (length (check_note notes audio_duration [] i note) <= 5)%nat /\
  (i = 0%nat -> (length (check_note notes audio_duration [] i note) <= 4)%nat).
Proof.
  rewrite check_note_parts, !length_app.
  destruct (Py.lt (time note) 0); destruct (Py.gt (time note) audio_duration);
    destruct (negb (Qle_bool 0 (velocity note) && Qle_bool (velocity note) 1));
    destruct (negb (valid_type (type note))); destruct i as [| j]; simpl;
    try destruct (notes !! (j - 0)%nat) as [prev |];
    try destruct (Py.lt (time note - time prev) (15 # 100));
    simpl; split; intros; try discriminate; lia.
Qed.

Lemma validate_loop_sound (rest : list Note) :
  forall i issues x,
    In x (validate_loop notes audio_duration i rest issues) ->
    In x issues \/
    exists j note, rest !! j = Some note /\
                   In x (check_note notes audio_duration [] (i + j) note).
Proof.
  induction rest as [| n rest IH]; intros i issues x Hx; simpl in Hx;
    [left; exact Hx |].
  destruct (IH _ _ _ Hx) as [H | (j & note & Hj & H)].
  - rewrite check_note_app in H. apply List.in_app_iff in H.
    destruct H as [H | H]; [left; exact H | right].
    exists 0%nat, n. rewrite Nat.add_0_r. auto.
  - right. exists (S j), note. split; [exact Hj |].
    replace (i + S j)%nat with (S i + j)%nat by lia. exact H.
Qed.

Lemma validate_loop_length (rest : list Note) :
  forall i issues,
    (length (validate_loop notes audio_duration i rest issues)
     <= length issues + 5 * length rest)%nat.
Proof.
  induction rest as [| n rest IH]; intros i issues; simpl; [lia |].
  etransitivity; [apply IH |].
  rewrite check_note_app, length_app.
  pose proof (proj1 (check_note_length i n)). lia.
Qed.

End ValidatorExact.

Section ValidatorFacts.
Import ChartGenerator Pre.

Lemma validate_chart_sound (chart : Chart) (audio_duration : Q) (x : Issue) :
  In x (validate_chart chart audio_duration) ->
  issue_justified (notes chart) audio_duration x.
Proof.
  unfold validate_chart. destruct (notes chart) as [| n ns] eqn:E.
  - intros [<- | []]. reflexivity.
  - rewrite <- E. intros H.
    destruct (validate_loop_sound _ _ _ _ _ _ H) as [[] | (j & note & Hj & Hx)].
    apply (check_note_sound _ _ _ _ _ Hj Hx).
Qed.

Lemma validate_chart_reports (chart : Chart) (audio_duration : Q) (i : nat)
    (note : Note) (x : Issue) :
  notes chart !! i = Some note ->
  In x (check_note (notes chart) audio_duration [] i note) ->
  In x (validate_chart chart audio_duration).
Proof.
  intros Hi Hx. unfold validate_chart.
  destruct (notes chart) as [| n ns] eqn:E; [discriminate |].
  rewrite <- E in *.
  apply (validate_loop_reports _ _ _ 0 [] i note x Hi). exact Hx.
Qed.

Lemma playable_gaps_lookup (ns : list Note) :
  playable_gaps ns <->
  forall j prev n, ns !! j = Some prev -> ns !! S j = Some n ->
                   15 # 100 <= time n - time prev.
Proof.
  induction ns as [| a l IH];
    [split; [intros _ j ? ? H; discriminate | intros _; exact I] |].
  destruct l as [| b l].
  - split; [intros _ [| j] ? ? H1 H2; discriminate | intros _; exact I].
  - split.
    + intros [Hab Hrest] [| j] prev n H1 H2.
      * simpl in H1, H2. injection H1 as <-. injection H2 as <-. exact Hab.
      * apply (proj1 IH Hrest j prev n); assumption.
    + intros H. split; [apply (H 0%nat a b); reflexivity |].
      apply IH. intros j prev n H1 H2. apply (H (S j) prev n); assumption.
Qed.

(** A chart with notes that are all in range and far enough apart has no
    issue. *)
Lemma validate_chart_clean (chart : Chart) (audio_duration : Q) :
  notes chart <> [] ->
  Forall (note_in_range audio_duration) (notes chart) ->
  playable_gaps (notes chart) ->
  validate_chart chart audio_duration = [].
Proof.
  intros Hne Hrange Hgaps.
  destruct (validate_chart chart audio_duration) as [| x issues] eqn:E;
    [reflexivity | exfalso].
  assert (In x (validate_chart chart audio_duration)) as Hx
    by (rewrite E; left; reflexivity).
  apply validate_chart_sound in Hx.
  rewrite List.Forall_forall in Hrange.
  assert (forall i n, notes chart !! i = Some n ->
                      note_in_range audio_duration n) as Hr.
  { intros i n Hi. apply Hrange.
    apply list_elem_of_In, list_elem_of_lookup. exists i. exact Hi. }
  destruct x as [| i t | i t d | i v | i ty | j i iv]; simpl in Hx.
  - contradiction.
  - destruct Hx as (n & Hi & -> & Hlt).
    destruct (Hr i n Hi) as (H0 & _). lra.
  - destruct Hx as (n & Hi & -> & _ & Hlt).
    destruct (Hr i n Hi) as (_ & H1 & _). lra.
  - destruct Hx as (n & Hi & -> & Hv).
    destruct (Hr i n Hi) as (_ & _ & H0 & H1 & _). apply Hv. auto.
  - destruct Hx as (n & Hi & -> & Hty).
    destruct (Hr i n Hi) as (_ & _ & _ & _ & Hv). congruence.
  - destruct Hx as (-> & prev & n & Hj & Hi & -> & Hlt).
    pose proof (proj1 (playable_gaps_lookup _) Hgaps j prev n Hj Hi). lra.
Qed.

(** X4.  Every issue the validator returns is justified by the notes:
    [EmptyChart] only for a chart without notes, and every other issue
    names a note (or two consecutive notes) of the chart on which that
    check fails, with the values of that note.  There are at most five
    issues per note. *)
Theorem validator_sound (chart : Chart) (audio_duration : Q) :
  (forall x, In x (validate_chart chart audio_duration) ->
             issue_justified (notes chart) audio_duration x) /\
  (length (validate_chart chart audio_duration)
   <= Nat.max 1 (5 * length (notes chart)))%nat.
Proof.
  split; [intros x; apply validate_chart_sound |].
  unfold validate_chart. destruct (notes chart) as [| n ns] eqn:E;
    [simpl; lia |].
  rewrite <- E.
  pose proof (validate_loop_length (notes chart) audio_duration
                (notes chart) 0 []) as H.
  simpl in H. lia.
Qed.

(** A chart without issue has a note, and all its notes are in range and
    far enough apart. *)
Lemma validate_chart_nil_inv (chart : Chart) (audio_duration : Q) :
  validate_chart chart audio_duration = [] ->
  notes chart <> [] /\
  Forall (note_in_range audio_duration) (notes chart) /\
  playable_gaps (notes chart).
Proof.
  intros Hnil.
  assert (forall i note x, notes chart !! i = Some note ->
            In x (check_note (notes chart) audio_duration [] i note) ->
            False) as Hno.
  { intros i note x Hi Hx.
    pose proof (validate_chart_reports _ _ _ _ _ Hi Hx) as H.
    rewrite Hnil in H. destruct H. }
  split; [| split].
  - intros E. unfold validate_chart in Hnil. rewrite E in Hnil.
    discriminate.
  - apply List.Forall_forall. intros n Hn.
    apply list_elem_of_In, list_elem_of_lookup in Hn. destruct Hn as [i Hi].
    unfold note_in_range.
    assert (~ time n < 0) as H1
      by (intros H; exact (Hno _ _ _ Hi (check_negative_time _ _ i n H))).
    assert (~ audio_duration < time n) as H2
      by (intros H; exact (Hno _ _ _ Hi (check_beyond_duration _ _ i n H))).
    assert (~ ~ (0 <= velocity n /\ velocity n <= 1)) as H3
      by (intros H; exact (Hno _ _ _ Hi (check_velocity _ _ i n H))).
    assert (valid_type (type n) <> false) as H4
      by (intros H; exact (Hno _ _ _ Hi (check_type _ _ i n H))).
    destruct (Qlt_le_dec (time n) 0) as [H | H]; [contradiction |].
    destruct (Qlt_le_dec audio_duration (time n)) as [H' | H'];
      [contradiction |].
    destruct (Qlt_le_dec (velocity n) 0) as [Hv | Hv];
      [exfalso; apply H3; intros [? ?]; lra |].
    destruct (Qlt_le_dec 1 (velocity n)) as [Hw | Hw];
      [exfalso; apply H3; intros [? ?]; lra |].
    destruct (valid_type (type n)); [auto | congruence].
  - apply playable_gaps_lookup. intros j prev n Hj Hi.
    destruct (Qlt_le_dec (time n - time prev) (15 # 100)) as [H | H];
      [| exact H].
    exfalso.
    exact (Hno _ _ _ Hi (check_interval _ audio_duration j prev n Hj H)).
Qed.

Lemma playable_gaps_spaced (ns : list Note) :
  playable_gaps ns <-> Inv.spaced (15 # 100) (time <$> ns).
Proof.
  induction ns as [| a l IH]; [tauto |].
  destruct l as [| b l]; [simpl; tauto |].
  change (15 # 100 <= time b - time a /\ playable_gaps (b :: l) <->
          15 # 100 <= time b - time a /\
          Inv.spaced (15 # 100) (time <$> b :: l)).
  rewrite IH. tauto.
Qed.

Lemma spaced_weaken (m m' : Q) (l : list Q) :
  m' <= m -> Inv.spaced m l -> Inv.spaced m' l.
Proof.
  intros Hm. induction l as [| a l IH]; [tauto |].
  destruct l as [| b l]; [tauto |].
  intros [Hab Hrest]. split; [lra | apply IH; exact Hrest].
Qed.

(** X5.  A chart for which the validator returns no issue has at least
    one note, every note with a time in [0, audio_duration], a velocity
    in [0, 1] and a type among left, right, both, and consecutive notes
    at least 0.149 s apart.  Conversely a chart with these properties
    and consecutive notes at least 0.151 s apart has no issue.  Two
    notes 0.150 s apart are left open: the validator takes the
    difference in binary64, where it can come out just below 0.15 (for
    1.0 and 1.15) or not (for 0.0 and 0.15); one millisecond away from
    0.15, on either side, the rounding cannot change the outcome. *)
Theorem validation_passes (chart : Chart) (audio_duration : Q) :
  (validate_chart chart audio_duration = [] ->
   notes chart <> [] /\
   Forall (note_in_range audio_duration) (notes chart) /\
   Inv.spaced (149 # 1000) (time <$> notes chart)) /\
  (notes chart <> [] ->
   Forall (note_in_range audio_duration) (notes chart) ->
   Inv.spaced (151 # 1000) (time <$> notes chart) ->
   validate_chart chart audio_duration = []).
Proof.
  split.
  - intros Hnil.
    destruct (validate_chart_nil_inv _ _ Hnil) as (Hne & Hrange & Hgaps).
    split; [exact Hne |]. split; [exact Hrange |].
    apply (spaced_weaken (15 # 100)); [lra |].
    apply playable_gaps_spaced. exact Hgaps.
  - intros Hne Hrange Hgaps.
    apply validate_chart_clean; [exact Hne | exact Hrange |].
    apply playable_gaps_spaced.
    apply (spaced_weaken (151 # 1000)); [lra | exact Hgaps].
Qed.

End ValidatorFacts.

(** ** Generated charts against the validator *)

Section GenerateThenValidate.
Import ChartGenerator Inv Pre.

Lemma spaced_playable (m : Q) (ns : list Note) :
  151 # 1000 <= m ->
  forall accepted,
    spaced m accepted ->
    time <$> ns = (fun t => Py.round t 3) <$> accepted ->
    playable_gaps ns.
Proof.
  intros Hm. induction ns as [| a l IH]; intros accepted Hsp Hmap; [exact I |].
  destruct l as [| b l]; [exact I |].
  destruct accepted as [| ta [| tb acc]]; try discriminate.
  simpl in Hmap. injection Hmap as Ha Hb Hrest.
  destruct Hsp as [Hab Hsp]. split.
  - pose proof (round3_error ta). pose proof (round3_error tb).
    rewrite Ha, Hb. lra.
  - apply (IH (tb :: acc) Hsp). simpl. rewrite Hb, Hrest. reflexivity.
Qed.

Lemma source_in_range (kt st ht audio_duration : Q)
    (mapping : gmap string string) (e : gmap string Q) (n : Note) :
  0 <= kt -> 0 <= st -> 0 <= ht ->
  valid_mapping mapping -> norms_at_most_one e ->
  (forall t, e !! "time" = Some t ->
             0 <= t /\ Py.round t 3 <= audio_duration) ->
  note_source kt st ht mapping e n ->
  note_in_range audio_duration n.
Proof.
  intros Hk Hs Hh Hvalid (Nk & Ns & Nh) Htime (t & Ht & Et & _ & Hsrc).
  destruct (Htime t Ht) as [Ht0 Htd].
  unfold note_in_range. rewrite Et.
  split; [apply round3_nonneg; exact Ht0 |]. split; [exact Htd |].
  destruct Hsrc as [(Hm & Hgt & Ev) | [(Hm & Hgt & Ev) | (Hm & Hgt & Ev)]];
    rewrite Ev;
    (split; [apply round2_unit_interval; lra |]);
    (split; [apply round2_unit_interval; lra |]);
    exact (Hvalid _ _ Hm).
Qed.

(** X6.  A chart generated with thresholds that are not negative, a
    minimum interval of at least 0.151 s and labels among left, right,
    both, from events whose normalised energies are at most 1 and whose
    times are not negative and, once rounded, within the audio duration,
    passes the validator: the only possible issue is that the chart has
    no note. *)
Theorem generated_chart_validates (events : list (gmap string Q))
    (cfg : gmap string Q) (mapping : gmap string string)
    (song_id difficulty : string) (chart : Chart)
    (kt st ht m audio_duration : Q)
    (Hrun : generate_chart events cfg mapping song_id difficulty = Py.Ok chart)
    (Hkick : cfg !! "kick_threshold" = Some kt)
    (Hsnare : cfg !! "snare_threshold" = Some st)
    (Hhihat : cfg !! "hihat_threshold" = Some ht)
    (Hmin : cfg !! "min_interval" = Some m)
    (Hkt : 0 <= kt) (Hst : 0 <= st) (Hht : 0 <= ht)
    (Hm : 151 # 1000 <= m)
    (Hvalid : valid_mapping mapping)
    (Hnorm : Forall norms_at_most_one events)
    (Htime : forall e t, In e events -> e !! "time" = Some t ->
                         0 <= t /\ Py.round t 3 <= audio_duration) :
  (notes chart = [] -> validate_chart chart audio_duration = [EmptyChart]) /\
  (notes chart <> [] -> validate_chart chart audio_duration = []).
Proof.
  split.
  - intros E. unfold validate_chart. rewrite E. reflexivity.
  - intros Hne. apply validate_chart_clean; [exact Hne | |].
    + destruct (generate_chart_Ok _ _ _ _ _ _ Hrun)
        as (kt' & st' & ht' & m' & last_time & Hk & Hs & Hh & _ & Hfold & _).
      assert (kt' = kt) as -> by congruence.
      assert (st' = st) as -> by congruence.
      assert (ht' = ht) as -> by congruence.
      destruct (foldM_sources kt st ht m' mapping events events
                  (fun e He => He) ([], - (999 # 1)) _ (List.Forall_nil _)
                  Hfold) as [Hall _].
      simpl in Hall. eapply List.Forall_impl; [| exact Hall].
      intros n (e & He & Hsrc). rewrite List.Forall_forall in Hnorm.
      apply (source_in_range kt st ht audio_duration mapping e n); auto.
      intros t Ht. exact (Htime e t He Ht).
    + destruct (generate_chart_scan _ _ _ _ _ _ _ Hrun Hmin)
        as (accepted & last_time & Hmap & Hsp & _).
      exact (spaced_playable m _ Hm accepted Hsp Hmap).
Qed.

End GenerateThenValidate.

(** ** The density filter: bounds, the loudest note, order *)

Section DensityFacts.
Import ChartGenerator GenerateChart.

Lemma target_count_positive (notes : list Note) (d : Q) :
  (1 <= Z.to_nat (target_count notes d))%nat.
Proof. unfold target_count. lia. Qed.

Lemma density_filter_incl (notes : list Note) (d : Q) (n : Note) :
  In n (apply_density_filter notes d) -> In n notes.
Proof.
  unfold apply_density_filter. destruct (Py.ge d 1); [auto |].
  intros H. apply sorted_In in H.
  apply (sorted_In velocity true).
  rewrite <- (take_drop (Z.to_nat (target_count notes d))).
  apply List.in_or_app. left. exact H.
Qed.

Lemma density_filter_length (notes : list Note) (d : Q) :
  (length (apply_density_filter notes d) <= length notes)%nat /\
  (notes <> [] -> (1 <= length (apply_density_filter notes d))%nat).
Proof.
  unfold apply_density_filter. destruct (Py.ge d 1).
  - split; [lia |]. destruct notes; [congruence | simpl; lia].
  - rewrite sorted_length, length_take, sorted_length.
    pose proof (target_count_positive notes d).
    set (k := Z.to_nat (target_count notes d)) in *. clearbody k.
    split; [lia |]. destruct notes; [congruence | simpl; lia].
Qed.

(** X7.  Whatever the density (also zero or negative), the density filter
    returns notes of its input, no more of them than it was given, and at
    least one when it was given at least one. *)
Theorem density_filter_bounds (notes : list Note) (d : Q) :
  (forall n, In n (apply_density_filter notes d) -> In n notes) /\
  (length (apply_density_filter notes d) <= length notes)%nat /\
  (notes <> [] -> apply_density_filter notes d <> []).
Proof.
  split; [intros n; apply density_filter_incl |].
  destruct (density_filter_length notes d) as [H1 H2].
  split; [exact H1 |]. intros Hne E. specialize (H2 Hne).
  rewrite E in H2. simpl in H2. lia.
Qed.

Lemma int_below_two (x : Q) : x < 2 -> (Py.int x <= 1)%Z.
Proof.
  destruct x as [n d]. unfold Qlt, Py.int. simpl. intros H.
  destruct (Z_lt_le_dec n 0) as [Hneg | Hpos].
  - assert (0 <= Z.quot (- n) (Z.pos d))%Z as Hq
      by (apply Z.quot_pos; lia).
    rewrite Z.quot_opp_l in Hq by lia. lia.
  - assert (Z.quot n (Z.pos d) < 2)%Z
      by (apply Z.quot_lt_upper_bound; lia).
    lia.
Qed.

(** X8.  With a density below 1 that is zero or negative, or so small
    that the binary64 product [len(notes) * d] is below 2, the filter
    keeps exactly one note of a non-empty list, and no note of the list
    has a greater velocity. *)
Theorem density_filter_loudest (notes : list Note) (d : Q)
    (Hne : notes <> []) (Hd : d < 1)
    (Hsmall : d <= 0 \/
              Float.mul (inject_Z (Z.of_nat (length notes))) d < 2) :
  exists n,
    apply_density_filter notes d = [n] /\ In n notes /\
    forall a, In a notes -> velocity a <= velocity n.
Proof.
  unfold apply_density_filter. apply ge_false in Hd. rewrite Hd.
  assert (Z.to_nat (target_count notes d) = 1%nat) as ->.
  { unfold target_count.
    assert (Float.mul (inject_Z (Z.of_nat (length notes))) d < 2) as Hlt.
    { destruct Hsmall as [Hneg | Hlt]; [| exact Hlt].
      assert (0 <= inject_Z (Z.of_nat (length notes))) as Hlen
        by (change 0 with (inject_Z 0); rewrite <- Zle_Qle; lia).
      pose proof (float_mul_nonpos _ _ Hlen Hneg). lra. }
    pose proof (int_below_two _ Hlt) as Hint.
    set (k := Py.int _) in *. clearbody k. lia. }
  pose proof (sorted_Permutation velocity true notes) as Hperm.
  pose proof (sorted_StronglySorted velocity true notes) as Hsorted.
  destruct (Py.sorted velocity true notes) as [| h S] eqn:E.
  - apply Permutation_nil in Hperm. congruence.
  - exists h. split; [reflexivity |]. split.
    + apply (Permutation_in _ Hperm). left. reflexivity.
    + intros a Ha. apply (Permutation_in _ (Permutation_sym Hperm)) in Ha.
      destruct Ha as [<- | Ha]; [apply Qle_refl |].
      inversion Hsorted as [| ? ? _ Hh]; subst.
      rewrite List.Forall_forall in Hh. specialize (Hh a Ha).
      unfold Py.key_le in Hh. apply Qle_bool_iff in Hh. exact Hh.
Qed.

Lemma StronglySorted_sym_Permutation {A} (R : A -> A -> Prop) (l l' : list A) :
  (forall a b, R a b -> R b a) ->
  Permutation l l' -> StronglySorted R l -> StronglySorted R l'.
Proof.
  intros Hsym. induction 1 as [| x l l' Hp IH | x y l | l l' l'' _ IH1 _ IH2];
    intros Hs.
  - exact Hs.
  - inversion Hs as [| ? ? Hl Hx]; subst. constructor; [apply IH; exact Hl |].
    apply (Permutation_Forall Hp). exact Hx.
  - inversion Hs as [| ? ? Hl Hy]; subst.
    inversion Hl as [| ? ? Hl' Hx]; subst.
    inversion Hy as [| ? ? Hyx Hy']; subst.
    constructor; [constructor; assumption |].
    constructor; [apply Hsym; exact Hyx | exact Hx].
  - apply IH2, IH1, Hs.
Qed.

Lemma StronglySorted_app_l {A} (R : A -> A -> Prop) (l k : list A) :
  StronglySorted R (l ++ k) -> StronglySorted R l.
Proof.
  induction l as [| x l IH]; intros H; [constructor |].
  simpl in H. inversion H as [| ? ? Hs Hx]; subst.
  constructor; [apply IH; exact Hs |].
  apply List.Forall_app in Hx. tauto.
Qed.

Lemma StronglySorted_both {A} (R S : A -> A -> Prop) (l : list A) :
  StronglySorted R l -> StronglySorted S l ->
  StronglySorted (fun a b => R a b /\ S a b) l.
Proof.
  induction 1 as [| x l Hs IH Hx]; intros H; [constructor |].
  inversion H as [| ? ? Hs' Hx']; subst. constructor; [apply IH; exact Hs' |].
  rewrite List.Forall_forall in *. intros y Hy. split; auto.
Qed.

(** A strictly ascending list whose elements all are in another strictly
    ascending list is a subsequence of it. *)
Lemma strict_incl_sublist (l2 : list Note) :
  forall l1,
    StronglySorted (fun a b => time a < time b) l1 ->
    StronglySorted (fun a b => time a < time b) l2 ->
    (forall x, In x l1 -> In x l2) ->
    sublist l1 l2.
Proof.
  induction l2 as [| y l2 IH]; intros l1 H1 H2 Hincl.
  - destruct l1 as [| x l1]; [constructor |].
    destruct (Hincl x (or_introl eq_refl)).
  - destruct l1 as [| x l1]; [apply sublist_nil_l |].
    inversion H1 as [| ? ? H1' Hx]; subst.
    inversion H2 as [| ? ? H2' Hy]; subst.
    rewrite List.Forall_forall in Hx, Hy.
    destruct (Hincl x (or_introl eq_refl)) as [<- | Hxin].
    + apply sublist_skip. apply IH; [exact H1' | exact H2' |].
      intros z Hz. destruct (Hincl z (or_intror Hz)) as [<- | H]; [| exact H].
      specialize (Hx _ Hz). lra.
    + apply sublist_cons. apply IH; [exact H1 | exact H2' |].
      intros z Hz. destruct (Hincl z Hz) as [<- | H]; [| exact H].
      exfalso. pose proof (Hy _ Hxin) as Hyx.
      destruct Hz as [<- | Hz]; [lra |]. specialize (Hx _ Hz). lra.
Qed.

Lemma density_filter_is_sublist (notes : list Note) (d : Q) :
  StronglySorted (fun a b => time a < time b) notes ->
  sublist (apply_density_filter notes d) notes.
Proof.
  intros Hasc.
  apply strict_incl_sublist; [| exact Hasc | intros x; apply density_filter_incl].
  unfold apply_density_filter. destruct (Py.ge d 1); [exact Hasc |].
  set (kept := take (Z.to_nat (target_count notes d))
                 (Py.sorted velocity true notes)).
  assert (StronglySorted (fun a b => ~ time a == time b) kept) as Hdist.
  { apply (StronglySorted_app_l _ kept
             (drop (Z.to_nat (target_count notes d))
                (Py.sorted velocity true notes))).
    unfold kept. rewrite take_drop.
    apply (StronglySorted_sym_Permutation _ notes).
    - intros a b H E. apply H. symmetry. exact E.
    - symmetry. apply sorted_Permutation.
    - eapply StronglySorted_impl; [| exact Hasc]. intros a b H E.
      simpl in H. lra. }
  assert (StronglySorted (fun a b => ~ time a == time b)
            (Py.sorted time false kept)) as Hdist'.
  { apply (StronglySorted_sym_Permutation _ kept).
    - intros a b H E. apply H. symmetry. exact E.
    - symmetry. apply sorted_Permutation.
    - exact Hdist. }
  pose proof (sorted_StronglySorted time false kept) as Hsorted.
  eapply StronglySorted_impl;
    [| exact (StronglySorted_both _ _ _ Hsorted Hdist')].
  intros a b [Hle Hne]. unfold Py.key_le in Hle.
  apply Qle_bool_iff in Hle.
  destruct (Qlt_le_dec (time a) (time b)) as [H | H]; [exact H |].
  exfalso. apply Hne. lra.
Qed.

(** X9.  On notes whose times are strictly ascending the density filter
    returns a subsequence: the kept notes stay in their order, whatever
    the density. *)
Theorem density_filter_sublist (notes : list Note) (d : Q)
    (Hasc : StronglySorted (fun a b => time a < time b) notes) :
  sublist (apply_density_filter notes d) notes.
Proof. apply density_filter_is_sublist. exact Hasc. Qed.

(** X10.  The notes [generate_for_difficulty] persists are notes of the
    chart [generate_chart] returned, and there is none exactly when
    [generate_chart] returned none: the density filter cannot empty a
    chart.  The issues are those of the persisted chart. *)
Theorem persisted_notes (events : list (gmap string Q))
    (audio_duration : Q) (cfg : gmap string Q) (mapping : gmap string string)
    (song_id difficulty : string) (generated chart : Chart)
    (issues : list Issue)
    (Hgen : generate_chart events cfg mapping song_id difficulty
            = Py.Ok generated)
    (Hrun : generate_for_difficulty events audio_duration cfg mapping song_id
              difficulty = Py.Ok (chart, issues)) :
  (forall n, In n (notes chart) -> In n (notes generated)) /\
  (notes chart = [] <-> notes generated = []) /\
  (1 <= Py.get cfg "note_density" 1 -> chart = generated) /\
  issues = validate_chart chart audio_duration.
Proof.
  unfold generate_for_difficulty in Hrun. rewrite Hgen in Hrun.
  simpl in Hrun.
  destruct (Py.lt (Py.get cfg "note_density" 1) 1) eqn:Hd;
    injection Hrun as <- <-; simpl.
  - split; [intros n; apply density_filter_incl |].
    split; [| split; [| reflexivity]].
    + split.
      * intros E. destruct (notes generated) as [| n ns] eqn:En;
          [reflexivity |].
        destruct (density_filter_length (n :: ns)
                    (Py.get cfg "note_density" 1)) as [_ H].
        specialize (H ltac:(discriminate)). rewrite E in H. simpl in H. lia.
      * intros ->. destruct (density_filter_length []
                               (Py.get cfg "note_density" 1)) as [H _].
        destruct (apply_density_filter [] _); [reflexivity | simpl in H; lia].
    + intros Hge. apply lt_true in Hd. lra.
  - split; [auto |]. split; [tauto |]. split; reflexivity.
Qed.

Lemma sublist_In {A} (l k : list A) (x : A) : sublist l k -> In x l -> In x k.
Proof.
  induction 1 as [| y l k _ IH | y l k _ IH]; intros Hx.
  - exact Hx.
  - destruct Hx as [<- | Hx]; [left; reflexivity | right; apply IH; exact Hx].
  - right. apply IH. exact Hx.
Qed.

Lemma StronglySorted_sublist {A} (R : A -> A -> Prop) (l k : list A) :
  sublist l k -> StronglySorted R k -> StronglySorted R l.
Proof.
  induction 1 as [| y l k Hsub IH | y l k Hsub IH]; intros Hs.
  - constructor.
  - inversion Hs as [| ? ? Hk Hy]; subst. constructor; [apply IH; exact Hk |].
    rewrite List.Forall_forall in *. intros x Hx. apply Hy.
    apply (sublist_In _ _ _ Hsub Hx).
  - inversion Hs; subst. apply IH. assumption.
Qed.

Lemma playable_gaps_all_pairs (ns : list Note) :
  Pre.playable_gaps ns ->
  StronglySorted (fun a b => 15 # 100 <= time b - time a) ns.
Proof.
  induction ns as [| a l IH]; intros H; [constructor |].
  destruct l as [| b l]; [constructor; constructor |].
  destruct H as [Hab Hrest]. specialize (IH Hrest).
  constructor; [exact IH |].
  inversion IH as [| ? ? _ Hb]; subst.
  constructor; [exact Hab |].
  eapply List.Forall_impl; [| exact Hb]. intros c Hc. simpl in Hc. lra.
Qed.

Lemma all_pairs_playable_gaps (ns : list Note) :
  StronglySorted (fun a b => 15 # 100 <= time b - time a) ns ->
  Pre.playable_gaps ns.
Proof.
  induction 1 as [| a l Hs IH Ha]; [exact I |].
  destruct l as [| b l]; [exact I |].
  split; [| exact IH]. inversion Ha; subst. assumption.
Qed.

(** X26.  Thinning a chart cannot spoil it: when the chart returned by
    [generate_chart] has no validation issue, the chart persisted by
    [generate_for_difficulty], with or without density filter, has
    none. *)
Theorem density_filter_keeps_clean (events : list (gmap string Q))
    (audio_duration : Q) (cfg : gmap string Q) (mapping : gmap string string)
    (song_id difficulty : string) (generated chart : Chart)
    (issues : list Issue)
    (Hgen : generate_chart events cfg mapping song_id difficulty
            = Py.Ok generated)
    (Hrun : generate_for_difficulty events audio_duration cfg mapping song_id
              difficulty = Py.Ok (chart, issues))
    (Hclean : validate_chart generated audio_duration = []) :
  issues = [].
Proof.
  unfold generate_for_difficulty in Hrun. rewrite Hgen in Hrun.
  simpl in Hrun.
  destruct (Py.lt (Py.get cfg "note_density" 1) 1) eqn:Hd;
    injection Hrun as <- <-; [| exact Hclean].
  destruct (validate_chart_nil_inv _ _ Hclean) as (Hne & Hrange & Hgaps).
  pose proof (playable_gaps_all_pairs _ Hgaps) as Hpairs.
  assert (StronglySorted (fun a b => time a < time b) (notes generated))
    as Hasc.
  { eapply StronglySorted_impl; [| exact Hpairs]. intros a b H.
    simpl in H. lra. }
  pose proof (density_filter_is_sublist (notes generated)
                (Py.get cfg "note_density" 1) Hasc) as Hsub.
  apply validate_chart_clean; simpl.
  - intros E. destruct (density_filter_length (notes generated)
                          (Py.get cfg "note_density" 1)) as [_ H].
    specialize (H Hne). rewrite E in H. simpl in H. lia.
  - rewrite List.Forall_forall in *. intros n Hn. apply Hrange.
    apply (density_filter_incl _ _ _ Hn).
  - apply all_pairs_playable_gaps.
    apply (StronglySorted_sublist _ _ _ Hsub Hpairs).
Qed.

End DensityFacts.

(** ** The fuser: members, gaps, order of the inputs *)

Section FuserFacts.
Import BeatDetection.

Local Abbreviation round3 := (fun x : Q => Py.round x 3).

Lemma has_nearby_onset_false (onset_times : list Q) (tolerance b : Q) :
  has_nearby_onset onset_times tolerance b = false <->
  forall o, In o onset_times ->
            Float.fl tolerance <= Qabs (Float.sub b o).
Proof.
  unfold has_nearby_onset. rewrite <- not_true_iff_false, List.existsb_exists.
  split.
  - intros H o Ho.
    destruct (Qlt_le_dec (Qabs (Float.sub b o)) (Float.fl tolerance))
      as [Hlt | Hle]; [| exact Hle].
    exfalso. apply H. exists o. split; [exact Ho | apply lt_true; exact Hlt].
  - intros H (o & Ho & Hlt). apply lt_true in Hlt. specialize (H o Ho). lra.
Qed.

Lemma set_round_In (y : Q) (l : list Q) :
  In y l -> In (Py.round y 3) (Py.set (map round3 l)).
Proof.
  intros Hy.
  assert (In (round3 y) (map round3 l)) as Hin
    by (apply List.in_map_iff; exists y; auto).
  destruct (set_representative _ _ Hin) as (z & Hz & Hzy).
  pose proof (set_In _ _ Hz) as Hz'. apply List.in_map_iff in Hz'.
  destruct Hz' as (z0 & <- & _).
  simpl in Hzy. rewrite <- (round_canonical _ _ _ Hzy). exact Hz.
Qed.

Lemma combine_In_iff (beat_times onset_times : list Q) (tolerance x : Q) :
  In x (combine_beats_and_onsets beat_times onset_times tolerance) <->
  exists y,
    x = Py.round y 3 /\
    (In y onset_times \/
     (In y beat_times /\
      forall o, In o onset_times ->
                Float.fl tolerance <= Qabs (Float.sub y o))).
Proof.
  rewrite combine_unfold, sorted_In. split.
  - intros H. apply set_In, List.in_map_iff in H.
    destruct H as (y & <- & Hy). exists y. split; [reflexivity |].
    apply List.in_app_iff in Hy. destruct Hy as [Hy | Hy]; [left; exact Hy |].
    apply List.filter_In in Hy. destruct Hy as [Hy Hn].
    apply negb_true_iff in Hn.
    pose proof (proj1 (has_nearby_onset_false _ _ _) Hn) as Hfar.
    right. auto.
  - intros (y & -> & Hy). apply set_round_In, List.in_app_iff.
    destruct Hy as [Hy | [Hy Hn]]; [left; exact Hy | right].
    apply List.filter_In. split; [exact Hy |].
    apply negb_true_iff, has_nearby_onset_false. exact Hn.
Qed.

(** X11.  The fused result holds exactly the millisecond roundings of
    the onset times and of the beat times that have no onset strictly
    within the tolerance, the distance to an onset being the absolute
    value of the binary64 difference: a beat with an onset nearer than
    the tolerance contributes nothing. *)
Theorem fused_members (beat_times onset_times : list Q) (tolerance x : Q) :
  In x (combine_beats_and_onsets beat_times onset_times tolerance) <->
  exists y,
    x = Py.round y 3 /\
    (In y onset_times \/
     (In y beat_times /\
      forall o, In o onset_times ->
                Float.fl tolerance <= Qabs (Float.sub y o))).
Proof. apply combine_In_iff. Qed.

(** A beat at 0.6 s is dropped for an onset at 0.5 s and a tolerance of
    0.1 s, the binary64 difference being below 0.1; a beat at 0.108 s is
    kept for an onset at 0.008 s. *)
Example fused_boundary :
  combine_beats_and_onsets [6 # 10] [5 # 10] (1 # 10) = [1 # 2] /\
  combine_beats_and_onsets [108 # 1000] [8 # 1000] (1 # 10)
  = [1 # 125; 27 # 250].
Proof. vm_compute. auto. Qed.

(** X12.  With a tolerance of zero or below no beat is dropped: the
    result is the sorted set of the rounded onsets and beats. *)
Theorem fusion_zero_tolerance (beat_times onset_times : list Q) (tolerance : Q)
    (Htol : tolerance <= 0) :
  combine_beats_and_onsets beat_times onset_times tolerance =
  Py.sorted (fun x => x) false
    (Py.set (map (fun x => Py.round x 3) (onset_times ++ beat_times))).
Proof.
  rewrite combine_unfold. rewrite filter_all; [reflexivity |].
  intros b _. apply negb_true_iff, has_nearby_onset_false.
  intros o _. pose proof (Qabs_nonneg (Float.sub b o)).
  pose proof (fl_nonpos tolerance Htol). lra.
Qed.

Lemma round3_step (x y : Q) :
  Py.round x 3 < Py.round y 3 -> Py.round x 3 + (1 # 1000) <= Py.round y 3.
Proof.
  unfold Py.round. rewrite !Qred_correct.
  change (Py.pow10 3) with 1000%positive.
  unfold Qlt, Qle, Qplus. simpl. lia.
Qed.

(** X13.  Two different times of a fused result are at least one
    millisecond apart. *)
Theorem fused_gap (beat_times onset_times : list Q) (tolerance : Q) :
  StronglySorted (fun a b => a + (1 # 1000) <= b)
    (combine_beats_and_onsets beat_times onset_times tolerance).
Proof.
  pose proof (combine_strict beat_times onset_times tolerance) as Hs.
  assert (Forall (fun x => exists y, x = Py.round y 3)
            (combine_beats_and_onsets beat_times onset_times tolerance)) as Hr.
  { apply List.Forall_forall. intros x Hx.
    destruct (combine_rounded _ _ _ _ Hx) as (y & _ & ->). eauto. }
  induction Hs as [| a l Hs IH Ha]; [constructor |].
  inversion Hr as [| ? ? [ya ->] Hl]; subst.
  constructor; [apply IH; exact Hl |].
  rewrite List.Forall_forall in *. intros b Hb.
  destruct (Hl b Hb) as [yb ->]. apply round3_step. apply Ha. exact Hb.
Qed.

(** Two strictly ascending lists with the same elements are equal. *)
Lemma strict_ext (l : list Q) :
  forall k,
    StronglySorted Qlt l -> StronglySorted Qlt k ->
    (forall x, In x l <-> In x k) -> l = k.
Proof.
  induction l as [| a l IH]; intros k Hl Hk Hext.
  - destruct k as [| b k]; [reflexivity |].
    destruct (proj2 (Hext b) (or_introl eq_refl)).
  - destruct k as [| b k];
      [destruct (proj1 (Hext a) (or_introl eq_refl)) |].
    inversion Hl as [| ? ? Hl' Ha]; subst.
    inversion Hk as [| ? ? Hk' Hb]; subst.
    rewrite List.Forall_forall in Ha, Hb.
    assert (a = b) as ->.
    { destruct (proj1 (Hext a) (or_introl eq_refl)) as [E | Hin];
        [symmetry; exact E |].
      destruct (proj2 (Hext b) (or_introl eq_refl)) as [E | Hin'];
        [exact E |].
      specialize (Ha _ Hin'). specialize (Hb _ Hin). lra. }
    f_equal. apply IH; [exact Hl' | exact Hk' |].
    intros x. split; intros Hx.
    + destruct (proj1 (Hext x) (or_intror Hx)) as [<- | H]; [| exact H].
      specialize (Ha _ Hx). lra.
    + destruct (proj2 (Hext x) (or_intror Hx)) as [<- | H]; [| exact H].
      specialize (Hb _ Hx). lra.
Qed.

(** X14.  The fused result depends on which times the two inputs hold,
    not on their order: permuting the beats or the onsets gives the same
    list. *)
Theorem fusion_order_independent (beat_times beat_times' onset_times
    onset_times' : list Q) (tolerance : Q)
    (Hbeats : Permutation beat_times beat_times')
    (Honsets : Permutation onset_times onset_times') :
  combine_beats_and_onsets beat_times onset_times tolerance =
  combine_beats_and_onsets beat_times' onset_times' tolerance.
Proof.
  apply strict_ext; try apply combine_strict.
  intros x. rewrite !combine_In_iff.
  assert (forall y, In y beat_times <-> In y beat_times') as Eb.
  { intros y. split; apply Permutation_in;
      [exact Hbeats | symmetry; exact Hbeats]. }
  assert (forall y, In y onset_times <-> In y onset_times') as Eo.
  { intros y. split; apply Permutation_in;
      [exact Honsets | symmetry; exact Honsets]. }
  split; intros (y & -> & [Hy | [Hy Hn]]); exists y;
    (split; [reflexivity |]).
  - left. apply Eo. exact Hy.
  - right. split; [apply Eb; exact Hy |]. intros o Ho. apply Hn, Eo, Ho.
  - left. apply Eo. exact Hy.
  - right. split; [apply Eb; exact Hy |]. intros o Ho. apply Hn, Eo, Ho.
Qed.

End FuserFacts.

(** ** Normalisation: missing fields, untouched fields, a second pass *)

Section NormaliseFacts.
Import BeatDetection.

Lemma mapM_Ok_inv {A B} (f : A -> Py.result B) (l : list A) :
  forall k, mapM f l = Py.Ok k -> Forall2 (fun x y => f x = Py.Ok y) l k.
Proof.
  induction l as [| x l IH]; intros k H; simpl in H.
  - injection H as <-. constructor.
  - destruct (f x) as [y | e] eqn:Hx; simpl in H; [| discriminate].
    destruct (mapM f l) as [k' | e] eqn:Hl; simpl in H; [| discriminate].
    injection H as <-. constructor; [exact Hx | apply IH; reflexivity].
Qed.

Lemma mapM_Ok_intro {A B} (f : A -> Py.result B) (l : list A) (k : list B) :
  Forall2 (fun x y => f x = Py.Ok y) l k -> mapM f l = Py.Ok k.
Proof.
  induction 1 as [| x y l k Hx _ IH]; [reflexivity |].
  simpl. rewrite Hx. simpl. rewrite IH. reflexivity.
Qed.

(** A traversal whose steps can only raise [e0] raises [e0] when a step
    raises. *)
Lemma mapM_raises {A B} (f : A -> Py.result B) (e0 : Py.exn) (l : list A) :
  (forall x e, f x = Py.Raise e -> e = e0) ->
  Exists (fun x => exists e, f x = Py.Raise e) l ->
  mapM f l = Py.Raise e0.
Proof.
  intros Hf. induction l as [| x l IH]; intros Hex; [inversion Hex |].
  simpl. destruct (f x) as [y | e] eqn:Hx; simpl.
  - rewrite IH; [reflexivity |].
    inversion Hex as [? ? [e He] | ? ? H]; subst; [congruence | exact H].
  - rewrite (Hf x e Hx). reflexivity.
Qed.

(** The generator over the events stops at the first event without the
    field. *)
Lemma mapM_getitem_raises (band : string) (events : list (gmap string Q)) :
  Exists (fun e => e !! band = None) events ->
  mapM (fun e => Py.getitem e band) events = Py.Raise (Py.KeyError band).
Proof.
  intros Hex. apply mapM_raises.
  - intros e err. unfold Py.getitem. destruct (e !! band); congruence.
  - eapply List.Exists_impl; [| exact Hex]. intros e He.
    exists (Py.KeyError band). unfold Py.getitem. rewrite He. reflexivity.
Qed.

Lemma band_max_raises (band : string) (events : list (gmap string Q)) :
  Exists (fun e => e !! band = None) events ->
  band_max band events = Py.Raise (Py.KeyError band).
Proof.
  intros H. unfold band_max. rewrite (mapM_getitem_raises _ _ H). reflexivity.
Qed.

Lemma band_max_returns (band : string) (events : list (gmap string Q)) :
  events <> [] -> Forall (fun e => is_Some (e !! band)) events ->
  exists d, band_max band events = Py.Ok d.
Proof.
  intros Hne Hall.
  assert (Forall (fun e => exists y, Py.getitem e band = Py.Ok y) events) as H.
  { eapply List.Forall_impl; [| exact Hall]. intros e [v Hv]. exists v.
    unfold Py.getitem. rewrite Hv. reflexivity. }
  destruct (mapM_Ok _ _ H) as (energies & Hmap & Hall2).
  unfold band_max. rewrite Hmap. simpl.
  destruct energies as [| x energies].
  - inversion Hall2; subst. congruence.
  - eexists. reflexivity.
Qed.

(** X15.  [normalize_energies] raises [KeyError] with the name of the
    first raw field, in the order kick, snare, hihat, that some event of
    a non-empty list lacks. *)
Theorem normalize_missing_field (events : list (gmap string Q)) :
  (Exists (fun e => e !! "kick_energy" = None) events ->
   normalize_energies events = Py.Raise (Py.KeyError "kick_energy")) /\
  (Forall (fun e => is_Some (e !! "kick_energy")) events ->
   Exists (fun e => e !! "snare_energy" = None) events ->
   normalize_energies events = Py.Raise (Py.KeyError "snare_energy")) /\
  (Forall (fun e => is_Some (e !! "kick_energy")) events ->
   Forall (fun e => is_Some (e !! "snare_energy")) events ->
   Exists (fun e => e !! "hihat_energy" = None) events ->
   normalize_energies events = Py.Raise (Py.KeyError "hihat_energy")).
Proof.
  assert (forall band, Exists (fun e => e !! band = None) events ->
                       events <> []) as Hne
    by (intros band H E; rewrite E in H; inversion H).
  unfold normalize_energies. repeat split.
  - intros H. rewrite (band_max_raises _ _ H). reflexivity.
  - intros Hk H.
    destruct (band_max_returns _ _ (Hne _ H) Hk) as [mk ->]. simpl.
    rewrite (band_max_raises _ _ H). reflexivity.
  - intros Hk Hs H.
    destruct (band_max_returns _ _ (Hne _ H) Hk) as [mk ->]. simpl.
    destruct (band_max_returns _ _ (Hne _ H) Hs) as [ms ->]. simpl.
    rewrite (band_max_raises _ _ H). reflexivity.
Qed.

Lemma normalize_event_inv (mk ms mh : Q) (e e' : gmap string Q) :
  normalize_event mk ms mh e = Py.Ok e' ->
  exists k s h,
    e !! "kick_energy" = Some k /\ e !! "snare_energy" = Some s /\
    e !! "hihat_energy" = Some h /\
    e' = <["hihat_energy_norm" := h / mh]>
           (<["snare_energy_norm" := s / ms]>
              (<["kick_energy_norm" := k / mk]> e)).
Proof.
  unfold normalize_event, Py.getitem.
  destruct (e !! "kick_energy") as [k |] eqn:Hk; simpl; [| discriminate].
  rewrite lookup_insert_ne by discriminate.
  destruct (e !! "snare_energy") as [s |] eqn:Hs; simpl; [| discriminate].
  rewrite !lookup_insert_ne by discriminate.
  destruct (e !! "hihat_energy") as [h |] eqn:Hh; simpl; [| discriminate].
  intros [= <-]. exists k, s, h. auto.
Qed.

Lemma normalize_energies_inv (events events' : list (gmap string Q)) :
  normalize_energies events = Py.Ok events' ->
  exists mk ms mh,
    band_max "kick_energy" events = Py.Ok mk /\
    band_max "snare_energy" events = Py.Ok ms /\
    band_max "hihat_energy" events = Py.Ok mh /\
    Forall2 (fun e e' => normalize_event mk ms mh e = Py.Ok e') events events'.
Proof.
  unfold normalize_energies.
  destruct (band_max "kick_energy" events) as [mk |]; simpl; [| discriminate].
  destruct (band_max "snare_energy" events) as [ms |]; simpl; [| discriminate].
  destruct (band_max "hihat_energy" events) as [mh |]; simpl; [| discriminate].
  intros H. exists mk, ms, mh. repeat split. apply mapM_Ok_inv. exact H.
Qed.

(** X16.  When [normalize_energies] returns, its result has one event per
    input event, in the same order; each carries the three normalised
    fields and agrees with its input on every other field, so times and
    raw energies are untouched. *)
Theorem normalize_preserves (events events' : list (gmap string Q))
    (Hrun : normalize_energies events = Py.Ok events') :
  length events' = length events /\
  forall i e e', events !! i = Some e -> events' !! i = Some e' ->
    is_Some (e' !! "kick_energy_norm") /\
    is_Some (e' !! "snare_energy_norm") /\
    is_Some (e' !! "hihat_energy_norm") /\
    forall key, key <> "kick_energy_norm" -> key <> "snare_energy_norm" ->
                key <> "hihat_energy_norm" -> e' !! key = e !! key.
Proof.
  destruct (normalize_energies_inv _ _ Hrun) as (mk & ms & mh & _ & _ & _ & Hall).
  split; [symmetry; eapply Forall2_length; exact Hall |].
  intros i e e' Hi Hi'.
  pose proof (Forall2_lookup_lr _ _ _ _ _ _ Hall Hi Hi') as Hstep.
  destruct (normalize_event_inv _ _ _ _ _ Hstep) as (k & s & h & _ & _ & _ & ->).
  split; [| split; [| split]].
  - rewrite !lookup_insert_ne by discriminate. rewrite lookup_insert_eq. eauto.
  - rewrite lookup_insert_ne by discriminate. rewrite lookup_insert_eq. eauto.
  - rewrite lookup_insert_eq. eauto.
  - intros key Nk Ns Nh. rewrite !lookup_insert_ne by congruence. reflexivity.
Qed.

Lemma mapM_same {A A' B} (f : A -> Py.result B) (g : A' -> Py.result B)
    (l : list A) (l' : list A') :
  Forall2 (fun x x' => g x' = f x) l l' -> mapM g l' = mapM f l.
Proof.
  induction 1 as [| x x' l l' Hx _ IH]; [reflexivity |].
  simpl. rewrite Hx, IH. reflexivity.
Qed.

Lemma mapM_getitem_same (band : string) (events events' : list (gmap string Q)) :
  Forall2 (fun e e' => e' !! band = e !! band) events events' ->
  mapM (fun e => Py.getitem e band) events'
  = mapM (fun e => Py.getitem e band) events.
Proof.
  intros H. apply mapM_same. eapply Forall2_impl; [exact H |].
  intros e e' He. unfold Py.getitem. rewrite He. reflexivity.
Qed.

(** X17.  Normalising a normalised list changes nothing: the second pass
    returns the list it was given. *)
Theorem normalize_idempotent (events events' : list (gmap string Q))
    (Hrun : normalize_energies events = Py.Ok events') :
  normalize_energies events' = Py.Ok events'.
Proof.
  destruct (normalize_energies_inv _ _ Hrun)
    as (mk & ms & mh & Hk & Hs & Hh & Hall).
  assert (forall band,
            band <> "kick_energy_norm" -> band <> "snare_energy_norm" ->
            band <> "hihat_energy_norm" ->
            band_max band events' = band_max band events) as Hsame.
  { intros band Nk Ns Nh. unfold band_max. rewrite (mapM_getitem_same band events events');
      [reflexivity |].
    eapply Forall2_impl; [exact Hall |]. intros e e' Hstep.
    destruct (normalize_event_inv _ _ _ _ _ Hstep)
      as (k & s & h & _ & _ & _ & ->).
    rewrite !lookup_insert_ne by congruence. reflexivity. }
  unfold normalize_energies.
  rewrite !Hsame by discriminate. rewrite Hk, Hs, Hh. simpl.
  apply mapM_Ok_intro.
  assert (Forall (fun e' => normalize_event mk ms mh e' = Py.Ok e') events')
    as Hfix.
  { apply List.Forall_forall. intros e' He'.
    destruct (Forall2_In_r _ _ _ Hall e' He') as (e & _ & Hstep).
    destruct (normalize_event_inv _ _ _ _ _ Hstep)
      as (k & s & h & Ek & Es & Eh & ->).
    unfold normalize_event, Py.getitem.
    rewrite !lookup_insert_ne by discriminate. rewrite Ek. simpl.
    rewrite !lookup_insert_ne by discriminate. rewrite Es. simpl.
    rewrite !lookup_insert_ne by discriminate. rewrite Eh. simpl.
    f_equal. apply map_eq. intros key.
    destruct (decide (key = "hihat_energy_norm")) as [-> | Nh];
      [rewrite !lookup_insert_eq; reflexivity |].
    rewrite (lookup_insert_ne _ "hihat_energy_norm") by congruence.
    destruct (decide (key = "snare_energy_norm")) as [-> | Ns].
    { rewrite lookup_insert_eq.
      rewrite (lookup_insert_ne _ "hihat_energy_norm") by discriminate.
      rewrite lookup_insert_eq. reflexivity. }
    rewrite (lookup_insert_ne _ "snare_energy_norm") by congruence.
    destruct (decide (key = "kick_energy_norm")) as [-> | Nk].
    { rewrite lookup_insert_eq.
      rewrite !lookup_insert_ne by discriminate.
      rewrite lookup_insert_eq. reflexivity. }
    rewrite (lookup_insert_ne _ "kick_energy_norm") by congruence.
    reflexivity. }
  clear -Hfix. induction Hfix; constructor; assumption.
Qed.

End NormaliseFacts.

(** ** [analyze_drum_hits], and from the analysis to the chart *)

Section AnalysisFacts.
Import DrumAnalysis BeatDetection ChartGenerator Inv Pre.

Variable S : Spectrogram.
Variable freqs : nat -> Q.
Variable time_to_frames : Q -> Z.

Lemma mapM_Done {A B} (f : A -> PyX.outcome B) (l : list A) :
  Forall (fun x => exists y, f x = PyX.Done y) l ->
  exists k, mapM f l = PyX.Done k /\
            Forall2 (fun x y => f x = PyX.Done y) l k.
Proof.
  induction 1 as [| x l [y Hy] _ (k & Hk & Hall)].
  - exists []. split; [reflexivity | constructor].
  - exists (y :: k). split.
    + simpl. rewrite Hy. simpl. rewrite Hk. reflexivity.
    + constructor; assumption.
Qed.

Lemma band_mask_returns (freq_bands : gmap string (gmap string Q))
    (name : string) :
  complete_bands freq_bands -> In name ["kick"; "snare"; "hihat"] ->
  exists mask, band_mask freqs freq_bands name = PyX.Done mask.
Proof.
  intros Hb Hin. unfold complete_bands in Hb.
  rewrite List.Forall_forall in Hb.
  destruct (Hb name Hin) as (band & lo & hi & Hband & Hlo & Hhi).
  unfold band_mask, PyX.getitem, Py.getitem. rewrite Hband. simpl.
  rewrite Hlo. simpl. rewrite Hhi. simpl. eexists. reflexivity.
Qed.

Lemma sum_nonneg (l : list Q) : Forall (fun x => 0 <= x) l -> 0 <= Py.sum l.
Proof.
  unfold Py.sum. assert (forall a, 0 <= a -> Forall (fun x => 0 <= x) l ->
                                   0 <= fold_left Qplus l a) as H.
  { induction l as [| x l IH]; intros a Ha Hl; simpl; [exact Ha |].
    inversion Hl; subst. apply IH; [lra | assumption]. }
  apply H. lra.
Qed.

Lemma band_energy_nonneg (mask : nat -> bool) (col : nat) :
  (forall i j, 0 <= magnitude S i j) -> 0 <= band_energy S mask col.
Proof.
  intros Hmag. unfold band_energy. apply sum_nonneg.
  apply List.Forall_forall. intros x Hx. apply List.in_map_iff in Hx.
  destruct Hx as (i & <- & _). apply Hmag.
Qed.

(** The frame that is read: the frame of the time, or the last one. *)
Lemma analyze_beat_returns (kick_mask snare_mask hihat_mask : nat -> bool)
    (b : Q) :
  (0 < n_frames S)%nat -> (0 <= time_to_frames b)%Z ->
  let col := Z.to_nat (Z.min (time_to_frames b) (Z.of_nat (n_frames S) - 1)) in
  analyze_beat S time_to_frames kick_mask snare_mask hihat_mask b =
  PyX.Done
    (<["time" := b]>
       (<["kick_energy" := band_energy S kick_mask col]>
          (<["snare_energy" := band_energy S snare_mask col]>
             (<["hihat_energy" := band_energy S hihat_mask col]> ∅)))).
Proof.
  intros Hn Hf col. unfold analyze_beat, column.
  destruct (Z.leb_spec (Z.of_nat (n_frames S)) (time_to_frames b)) as [H | H].
  - assert (col = Z.to_nat (Z.of_nat (n_frames S) - 1)) as -> by (unfold col; lia).
    replace ((0 <=? Z.of_nat (n_frames S) - 1)%Z
             && (Z.of_nat (n_frames S) - 1 <? Z.of_nat (n_frames S))%Z)
      with true by (symmetry; apply andb_true_iff; split; lia).
    reflexivity.
  - assert (col = Z.to_nat (time_to_frames b)) as -> by (unfold col; lia).
    replace ((0 <=? time_to_frames b)%Z
             && (time_to_frames b <? Z.of_nat (n_frames S))%Z)
      with true by (symmetry; apply andb_true_iff; split; lia).
    reflexivity.
Qed.

Lemma analyzed_event_ok (t k s h : Q) :
  0 <= k -> 0 <= s -> 0 <= h ->
  raw_event_ok
    (<["time" := t]>
       (<["kick_energy" := k]>
          (<["snare_energy" := s]> (<["hihat_energy" := h]> ∅)))).
Proof.
  intros Hk Hs Hh raw norm [[= <- <-] | [[= <- <-] | [[= <- <-] | []]]];
    eexists; (split; [reflexivity | assumption]).
Qed.

Lemma analyze_drum_hits_run (beat_times : list Q)
    (freq_bands : gmap string (gmap string Q)) :
  complete_bands freq_bands ->
  (0 < n_frames S)%nat ->
  (forall b, In b beat_times -> (0 <= time_to_frames b)%Z) ->
  (forall i j, 0 <= magnitude S i j) ->
  exists events,
    analyze_drum_hits S freqs time_to_frames beat_times freq_bands
    = PyX.Done events /\
    Forall2 (fun b e => e !! "time" = Some b /\ raw_event_ok e)
      beat_times events.
Proof.
  intros Hb Hn Hf Hmag. unfold analyze_drum_hits.
  destruct (band_mask_returns freq_bands "kick" Hb ltac:(simpl; auto))
    as [km ->].
  destruct (band_mask_returns freq_bands "snare" Hb ltac:(simpl; auto))
    as [sm ->].
  destruct (band_mask_returns freq_bands "hihat" Hb ltac:(simpl; auto))
    as [hm ->].
  simpl.
  assert (Forall (fun b => exists e,
                    analyze_beat S time_to_frames km sm hm b = PyX.Done e)
            beat_times) as Hall.
  { apply List.Forall_forall. intros b Hin.
    rewrite (analyze_beat_returns km sm hm b Hn (Hf b Hin)). eauto. }
  destruct (mapM_Done _ _ Hall) as (events & -> & H2).
  exists events. split; [reflexivity |].
  clear Hall. induction H2 as [| b e bs es He _ IH]; [constructor |].
  constructor.
  - rewrite (analyze_beat_returns km sm hm b Hn (Hf b (or_introl eq_refl)))
      in He. injection He as <-.
    split; [reflexivity |].
    apply analyzed_event_ok; apply band_energy_nonneg; exact Hmag.
  - apply IH. intros b' Hb'. apply Hf. right. exact Hb'.
Qed.

(** X18.  With the three bands configured, at least one frame, no
    negative frame index and magnitudes that are not negative,
    [analyze_drum_hits] returns one event per beat time, in order, each
    with that time and with three raw energies that are present and not
    negative. *)
Theorem analyze_drum_hits_events (beat_times : list Q)
    (freq_bands : gmap string (gmap string Q))
    (Hbands : complete_bands freq_bands)
    (Hframes : (0 < n_frames S)%nat)
    (Hindex : forall b, In b beat_times -> (0 <= time_to_frames b)%Z)
    (Hmag : forall i j, 0 <= magnitude S i j) :
  exists events,
    analyze_drum_hits S freqs time_to_frames beat_times freq_bands
    = PyX.Done events /\
    (fun e : gmap string Q => e !! "time") <$> events = Some <$> beat_times /\
    Forall raw_event_ok events.
Proof.
  destruct (analyze_drum_hits_run beat_times freq_bands Hbands Hframes Hindex
              Hmag) as (events & Hrun & Hall).
  exists events. split; [exact Hrun |].
  clear Hrun Hindex. induction Hall as [| b e bs es [Ht Hok] _ [IH1 IH2]];
    [split; [reflexivity | constructor] |].
  split; [| constructor; assumption].
  rewrite !fmap_cons, Ht, IH1. reflexivity.
Qed.

(** X19.  A beat whose frame lies after the last frame is given the
    energies of the last frame: its event is that of a beat on the last
    frame, with its own time. *)
Theorem analyze_beat_clamped (kick_mask snare_mask hihat_mask : nat -> bool)
    (b b' : Q)
    (Hframes : (0 < n_frames S)%nat)
    (Hafter : (Z.of_nat (n_frames S) <= time_to_frames b)%Z)
    (Hlast : time_to_frames b' = (Z.of_nat (n_frames S) - 1)%Z) :
  exists e e',
    analyze_beat S time_to_frames kick_mask snare_mask hihat_mask b
    = PyX.Done e /\
    analyze_beat S time_to_frames kick_mask snare_mask hihat_mask b'
    = PyX.Done e' /\
    e = <["time" := b]> e'.
Proof.
  rewrite (analyze_beat_returns kick_mask snare_mask hihat_mask b Hframes)
    by lia.
  rewrite (analyze_beat_returns kick_mask snare_mask hihat_mask b' Hframes)
    by lia.
  do 2 eexists. split; [reflexivity |]. split; [reflexivity |].
  rewrite insert_insert_eq.
  replace (Z.min (time_to_frames b) (Z.of_nat (n_frames S) - 1))
    with (Z.min (time_to_frames b') (Z.of_nat (n_frames S) - 1)) by lia.
  reflexivity.
Qed.

End AnalysisFacts.

Section Pipeline.
Import DrumAnalysis BeatDetection ChartGenerator Inv Pre.

Lemma unit_quotient (v d : Q) : 0 <= v -> v <= d -> 0 < d -> 0 <= v / d <= 1.
Proof.
  intros H0 H1 Hd. split.
  - apply Qle_shift_div_l; [exact Hd | lra].
  - apply Qle_shift_div_r; [exact Hd | lra].
Qed.

Lemma get_Some {V} (d : gmap string V) (k : string) (v dflt : V) :
  d !! k = Some v -> Py.get d k dflt = v.
Proof. unfold Py.get. intros ->. reflexivity. Qed.

(** Normalisation returns on analysed events, keeps the times and gives
    energies in [0, 1]. *)
Lemma normalize_energies_run (events : list (gmap string Q)) :
  events <> [] -> Forall raw_event_ok events ->
  exists events',
    normalize_energies events = Py.Ok events' /\
    Forall2 (fun e e' => e' !! "time" = e !! "time" /\
                         norms_nonneg e' /\ norms_at_most_one e')
      events events'.
Proof.
  intros Hne Hraw.
  pose proof (raw_event_ok_band events "kick_energy" "kick_energy_norm" Hraw
                ltac:(simpl; auto)) as Rk.
  pose proof (raw_event_ok_band events "snare_energy" "snare_energy_norm" Hraw
                ltac:(simpl; auto)) as Rs.
  pose proof (raw_event_ok_band events "hihat_energy" "hihat_energy_norm" Hraw
                ltac:(simpl; auto)) as Rh.
  destruct (band_max_spec _ _ Hne Rk) as (mk & Ek & Pk & Lk & _).
  destruct (band_max_spec _ _ Hne Rs) as (ms & Es & Ps & Ls & _).
  destruct (band_max_spec _ _ Hne Rh) as (mh & Eh & Ph & Lh & _).
  assert (Forall (fun e => exists y, normalize_event mk ms mh e = Py.Ok y)
            events) as Hbody.
  { eapply List.Forall_impl; [| exact Hraw]. intros e He.
    destruct (raw_event_ok_fields e He) as (k & s & h & [Hk _] & [Hs _] & [Hh _]).
    destruct (normalize_event_Ok mk ms mh k s h e Hk Hs Hh) as (e' & He' & _).
    exists e'. exact He'. }
  destruct (mapM_Ok _ _ Hbody) as (events' & Hrun & Hall).
  exists events'. split.
  { unfold normalize_energies. rewrite Ek, Es, Eh. exact Hrun. }
  assert (forall e, In e events ->
            forall e', normalize_event mk ms mh e = Py.Ok e' ->
              e' !! "time" = e !! "time" /\
              norms_nonneg e' /\ norms_at_most_one e') as Hstep.
  { intros e Hin e' He'. rewrite List.Forall_forall in Hraw.
    destruct (raw_event_ok_fields e (Hraw e Hin))
      as (k & s & h & [Hk Hk0] & [Hs Hs0] & [Hh Hh0]).
    destruct (normalize_event_Ok mk ms mh k s h e Hk Hs Hh)
      as (e'' & He'' & Nk & Ns & Nh).
    assert (e'' = e') as -> by congruence.
    destruct (normalize_event_inv _ _ _ _ _ He')
      as (k' & s' & h' & _ & _ & _ & Eq).
    pose proof (unit_quotient k mk Hk0 (Lk e k Hin Hk) Pk) as Bk.
    pose proof (unit_quotient s ms Hs0 (Ls e s Hin Hs) Ps) as Bs.
    pose proof (unit_quotient h mh Hh0 (Lh e h Hin Hh) Ph) as Bh.
    split; [| split].
    - rewrite Eq. rewrite !lookup_insert_ne by discriminate. reflexivity.
    - unfold norms_nonneg.
      rewrite (get_Some _ _ _ _ Nk), (get_Some _ _ _ _ Ns),
        (get_Some _ _ _ _ Nh). tauto.
    - unfold norms_at_most_one.
      rewrite (get_Some _ _ _ _ Nk), (get_Some _ _ _ _ Ns),
        (get_Some _ _ _ _ Nh). tauto. }
  clear -Hall Hstep. induction Hall as [| e e' es es' He _ IH]; [constructor |].
  constructor.
  - apply Hstep; [left; reflexivity | exact He].
  - apply IH. intros x Hx. apply Hstep. right. exact Hx.
Qed.

(** X20.  From beat times to the chart.  With the three bands, the four
    entries of the difficulty and the three labels of the mapping
    configured, a spectrogram with at least one frame and magnitudes that
    are not negative, and beat times (at least one) none of which has a
    negative frame: [analyze_drum_hits], [normalize_energies] and
    [generate_chart] all return; there is one normalised event per beat
    time; the chart has at most as many notes as there are beat times;
    and each note has the rounded time of a beat and a velocity in
    [0, 1]. *)
Theorem analysis_to_chart (S : Spectrogram) (freqs : nat -> Q)
    (time_to_frames : Q -> Z) (beat_times : list Q)
    (freq_bands : gmap string (gmap string Q))
    (cfg : gmap string Q) (mapping : gmap string string)
    (song_id difficulty : string)
    (Hbands : complete_bands freq_bands)
    (Hframes : (0 < n_frames S)%nat)
    (Hindex : forall b, In b beat_times -> (0 <= time_to_frames b)%Z)
    (Hmag : forall i j, 0 <= magnitude S i j)
    (Hbeats : beat_times <> [])
    (Hcfg : complete_config cfg)
    (Hmap : complete_mapping mapping) :
  exists events events' chart,
    analyze_drum_hits S freqs time_to_frames beat_times freq_bands
    = PyX.Done events /\
    normalize_energies events = Py.Ok events' /\
    generate_chart events' cfg mapping song_id difficulty = Py.Ok chart /\
    length events' = length beat_times /\
    (length (notes chart) <= length beat_times)%nat /\
    forall n, In n (notes chart) ->
      (exists b, In b beat_times /\ time n = Py.round b 3) /\
      0 <= velocity n /\ velocity n <= 1.
Proof.
  destruct (analyze_drum_hits_run S freqs time_to_frames beat_times freq_bands
              Hbands Hframes Hindex Hmag) as (events & Hana & Hev).
  assert (events <> []) as Hne.
  { intros ->. apply Forall2_length in Hev. destruct beat_times;
      [congruence | discriminate]. }
  assert (Forall raw_event_ok events) as Hraw.
  { clear -Hev. induction Hev as [| b e bs es [_ H] _ IH];
      constructor; assumption. }
  destruct (normalize_energies_run events Hne Hraw) as (events' & Hnorm & Hn2).
  assert (Forall (fun e' => is_Some (e' !! "time")) events') as Htimed.
  { apply List.Forall_forall. intros e' He'.
    destruct (Forall2_In_r _ _ _ Hn2 e' He') as (e & He & Ht & _).
    destruct (Forall2_In_r _ _ _ Hev e He) as (b & _ & Hb & _).
    rewrite Ht, Hb. eauto. }
  destruct (complete_config_lookup cfg Hcfg)
    as (kt & st & ht & m & Hk & Hs & Hh & Hm).
  assert (exists chart, generate_chart events' cfg mapping song_id difficulty
                        = Py.Ok chart) as [chart Hgen].
  { unfold generate_chart, Py.getitem. rewrite Hk, Hs, Hh, Hm. simpl.
    destruct (foldM_returns kt st ht m mapping events' Hmap Htimed
                ([], - (999 # 1))) as [[ns last_time] ->].
    simpl. eexists. reflexivity. }
  exists events, events', chart.
  split; [exact Hana |]. split; [exact Hnorm |]. split; [exact Hgen |].
  assert (length events' = length beat_times) as Hlen.
  { apply Forall2_length in Hn2. apply Forall2_length in Hev. lia. }
  split; [exact Hlen |].
  destruct (generate_chart_Ok _ _ _ _ _ _ Hgen)
    as (kt' & st' & ht' & m' & last_time & _ & _ & _ & _ & Hfold & _).
  destruct (foldM_sources kt' st' ht' m' mapping events' events'
              (fun e He => He) ([], - (999 # 1)) _ (List.Forall_nil _) Hfold)
    as [Hall Hcount].
  simpl in Hall, Hcount. split; [lia |].
  intros n Hn. rewrite List.Forall_forall in Hall.
  destruct (Hall n Hn) as (e' & He' & t & Ht & Etime & _ & Hsrc).
  destruct (Forall2_In_r _ _ _ Hn2 e' He')
    as (e & He & Hte & (N0k & N0s & N0h) & (N1k & N1s & N1h)).
  destruct (Forall2_In_r _ _ _ Hev e He) as (b & Hb & Htb & _).
  split.
  - exists b. split; [exact Hb |]. rewrite Etime. f_equal. congruence.
  - destruct Hsrc as [(_ & _ & ->) | [(_ & _ & ->) | (_ & _ & ->)]];
      apply round2_unit_interval; assumption.
Qed.

End Pipeline.

(** ** [velocity_gain_db] *)

Section RenderFacts.
Import RenderChartAudio.

(** [max(lo, min(hi, x))] is [x] brought into [lo, hi]. *)
Lemma clamp_spec (lo hi x : Q) :
  lo <= hi ->
  lo <= PyX.max lo (PyX.min hi x) /\ PyX.max lo (PyX.min hi x) <= hi /\
  (lo <= x -> x <= hi -> PyX.max lo (PyX.min hi x) == x) /\
  (x <= lo -> PyX.max lo (PyX.min hi x) == lo) /\
  (hi <= x -> PyX.max lo (PyX.min hi x) == hi).
Proof.
  intros Hlh. unfold PyX.max, PyX.min.
  destruct (Py.lt x hi) eqn:E1;
    [apply lt_true in E1 | apply lt_false in E1];
    match goal with
    | |- context [Py.gt ?a ?b] =>
        destruct (Py.gt a b) eqn:E2;
        [apply gt_true in E2 | apply gt_false in E2]
    end;
    repeat split; intros; lra.
Qed.

Lemma clamp_mono (lo hi x y : Q) :
  lo <= hi -> x <= y ->
  PyX.max lo (PyX.min hi x) <= PyX.max lo (PyX.min hi y).
Proof.
  intros Hlh Hxy. unfold PyX.max, PyX.min.
  destruct (Py.lt x hi) eqn:E1;
    [apply lt_true in E1 | apply lt_false in E1];
    destruct (Py.lt y hi) eqn:E2;
    [apply lt_true in E2 | apply lt_false in E2 | apply lt_true in E2
    | apply lt_false in E2];
    repeat match goal with
           | |- context [Py.gt ?a ?b] =>
               let E := fresh "E" in
               destruct (Py.gt a b) eqn:E;
               [apply gt_true in E | apply gt_false in E]
           end;
    lra.
Qed.

(** X21.  The gain of a hit is between -12 dB and 0 dB for every velocity,
    also outside [0, 1]; it is 0 dB without a velocity and from velocity 1
    on, -12 dB up to velocity 0, and it never decreases when the velocity
    grows. *)
Theorem velocity_gain_db_range (velocity : option Q) :
  (- (12 # 1) <= velocity_gain_db velocity /\ velocity_gain_db velocity <= 0) /\
  velocity_gain_db None = 0 /\
  (forall v, 1 <= v -> velocity_gain_db (Some v) == 0) /\
  (forall v, v <= 0 -> velocity_gain_db (Some v) == - (12 # 1)) /\
  (forall v w, v <= w ->
     velocity_gain_db (Some v) <= velocity_gain_db (Some w)).
Proof.
  assert (0 <= 1) as H01 by lra.
  split; [| split; [reflexivity | split; [| split]]].
  - destruct velocity as [v |]; simpl; [| lra].
    destruct (clamp_spec 0 1 v H01) as (H0 & H1 & _). lra.
  - intros v Hv. simpl.
    destruct (clamp_spec 0 1 v H01) as (_ & _ & _ & _ & H). rewrite (H Hv). ring.
  - intros v Hv. simpl.
    destruct (clamp_spec 0 1 v H01) as (_ & _ & _ & H & _). rewrite (H Hv). ring.
  - intros v w Hvw. simpl. pose proof (clamp_mono 0 1 v w H01 Hvw). lra.
Qed.

End RenderFacts.

(** ** Cleaning the notes of the answer *)

Section LlmFacts.
Import LlmChart.

Variable parse_float : string -> option Q.
Variable str : json -> string.
Variable lower : string -> string.

Local Abbreviation clean := (clean_note parse_float str lower).

Lemma clean_note_range (duration : Q) (j : json) (n : Note) :
  clean duration j = Some n ->
  0 <= time n /\ (0 <= duration -> time n <= duration) /\
  In (drum n) allowed_drums /\
  (forall v, velocity n = Some v -> 0 <= v /\ v <= 1).
Proof.
  unfold clean_note. destruct j as [| | | | | o]; try discriminate.
  destruct (float parse_float (get o "time" (JNum 0))) as [t |];
    [| discriminate].
  cbn [mbind option_bind].
  set (d := lower (str (get o "drum" (JStr "")))).
  destruct (existsb (String.eqb d) allowed_drums) eqn:Hdrum; cbn [negb];
    [| discriminate].
  assert (In d allowed_drums) as Hin.
  { apply List.existsb_exists in Hdrum. destruct Hdrum as (d' & Hd & E).
    apply String.eqb_eq in E. rewrite E. exact Hd. }
  assert (0 <= PyX.max 0 (PyX.min duration t) /\
          (0 <= duration -> PyX.max 0 (PyX.min duration t) <= duration))
    as [Ht0 Ht1].
  { unfold PyX.max, PyX.min.
    destruct (Py.lt t duration) eqn:E1;
      [apply lt_true in E1 | apply lt_false in E1];
      match goal with
      | |- context [Py.gt ?a ?b] =>
          destruct (Py.gt a b) eqn:E2;
          [apply gt_true in E2 | apply gt_false in E2]
      end; split; intros; lra. }
  assert (0 <= 1) as H01 by lra.
  assert (forall vel m,
            Some (mkNote (PyX.max 0 (PyX.min duration t)) d
                    (str (get o "hand" (JStr "right")))
                    (Some (PyX.max 0 (PyX.min 1 vel)))) = Some m ->
            0 <= time m /\ (0 <= duration -> time m <= duration) /\
            In (drum m) allowed_drums /\
            (forall v, velocity m = Some v -> 0 <= v /\ v <= 1)) as Hsome.
  { intros vel m [= <-]. simpl. repeat split; try assumption;
      injection H as <-; destruct (clamp_spec 0 1 vel H01) as (H0 & H1 & _);
      assumption. }
  destruct (get o "velocity" JNull) as [| b | q | s | l | o'].
  - intros [= <-]. simpl. repeat split; try assumption; discriminate.
  - apply Hsome.
  - apply Hsome.
  - cbn [float]. destruct (parse_float s) as [vel |]; [| discriminate].
    apply Hsome.
  - discriminate.
  - discriminate.
Qed.

Lemma omap_In {A B} (f : A -> option B) (l : list A) (y : B) :
  In y (omap f l) -> exists x, In x l /\ f x = Some y.
Proof.
  induction l as [| x l IH]; [intros [] |].
  change (omap f (x :: l))
    with (match f x with Some z => z :: omap f l | None => omap f l end).
  destruct (f x) as [z |] eqn:E.
  - intros [<- | H]; [exists x; split; [left; reflexivity | exact E] |].
    destruct (IH H) as (x' & Hx' & E'). exists x'.
    split; [right; exact Hx' | exact E'].
  - intros H. destruct (IH H) as (x' & Hx' & E'). exists x'.
    split; [right; exact Hx' | exact E'].
Qed.

Lemma omap_length {A B} (f : A -> option B) (l : list A) :
  (length (omap f l) <= length l)%nat.
Proof.
  induction l as [| x l IH]; [reflexivity |].
  change (omap f (x :: l))
    with (match f x with Some z => z :: omap f l | None => omap f l end).
  destruct (f x); simpl length; lia.
Qed.

Lemma post_process_cleaned (duration : Q) (data : json) (cleaned : list Note) :
  post_process parse_float str lower duration data = PyX.Done cleaned ->
  exists answer,
    Permutation cleaned (omap (clean duration) answer) /\
    cleaned = Py.sorted time false (omap (clean duration) answer) /\
    (forall o notes, data = JObj o -> o !! "notes" = Some (JArr notes) ->
                     answer = notes).
Proof.
  unfold post_process. destruct data as [| | | | | o]; try discriminate.
  unfold get at 1.
  destruct (o !! "notes") as [[| b | q | s | l | o'] |] eqn:Hn; simpl;
    try discriminate; intros [= <-].
  - exists []. repeat split; try reflexivity. intros ? ? [= <-]. congruence.
  - exists l. split; [apply sorted_Permutation |]. split; [reflexivity |].
    intros ? ? [= <-]. congruence.
  - exists []. repeat split; try reflexivity. intros ? ? [= <-]. congruence.
  - exists []. repeat split; try reflexivity. intros ? ? [= <-]. congruence.
Qed.

(** X22.  Every note that the cleaning keeps has a time that is not
    negative and, for a duration that is not negative, at most the
    duration; a drum among kick, snare, hihat, crash, ride and tom; and a
    velocity, when it has one, in [0, 1] — whatever the answer held. *)
Theorem cleaned_notes_in_range (duration : Q) (data : json)
    (cleaned : list Note)
    (Hrun : post_process parse_float str lower duration data
            = PyX.Done cleaned) :
  forall n, In n cleaned ->
    0 <= time n /\ (0 <= duration -> time n <= duration) /\
    In (drum n) allowed_drums /\
    (forall v, velocity n = Some v -> 0 <= v /\ v <= 1).
Proof.
  destruct (post_process_cleaned _ _ _ Hrun) as (answer & Hperm & _ & _).
  intros n Hn. apply (Permutation_in _ Hperm) in Hn.
  destruct (omap_In _ _ _ Hn) as (j & _ & Hj).
  exact (clean_note_range duration j n Hj).
Qed.

(** X23.  The cleaned notes are in ascending order of time, notes of
    equal time in the order of the answer; there are at most as many as
    the answer has notes, and each is the cleaning of one of them. *)
Theorem cleaned_notes_sorted (duration : Q) (o : gmap string json)
    (notes : list json) (cleaned : list Note)
    (Hnotes : o !! "notes" = Some (JArr notes))
    (Hrun : post_process parse_float str lower duration (JObj o)
            = PyX.Done cleaned) :
  StronglySorted (fun a b => time a <= time b) cleaned /\
  (length cleaned <= length notes)%nat /\
  (forall n, In n cleaned ->
     exists j, In j notes /\ clean duration j = Some n) /\
  (forall t,
     List.filter (fun n => Qeq_bool (time n) t) cleaned =
     List.filter (fun n => Qeq_bool (time n) t) (omap (clean duration) notes)).
Proof.
  destruct (post_process_cleaned _ _ _ Hrun) as (answer & Hperm & -> & Hans).
  rewrite (Hans o notes eq_refl Hnotes) in *.
  split; [| split; [| split]].
  - eapply StronglySorted_impl; [| apply sorted_StronglySorted].
    intros a b. unfold Py.key_le. apply Qle_bool_iff.
  - rewrite sorted_length. apply omap_length.
  - intros n Hn. apply sorted_In in Hn. apply omap_In. exact Hn.
  - intros t. apply sorted_stable.
Qed.


End LlmFacts.

(** ** The visualiser *)

Section VisualizeFacts.
Import ChartGenerator VisualizeChart.

Lemma color_valid (t : string) :
  valid_type t = true -> exists c, color t = PyX.Done c.
Proof.
  unfold valid_type, color. intros H.
  destruct (String.eqb t "left"); [eexists; reflexivity |].
  destruct (String.eqb t "right"); [eexists; reflexivity |].
  destruct (String.eqb t "both"); [eexists; reflexivity | discriminate].
Qed.

Lemma color_invalid (t : string) :
  valid_type t = false -> color t = PyX.Fail (PyX.Base (Py.KeyError t)).
Proof.
  unfold valid_type, color. intros H.
  destruct (String.eqb t "left"); [discriminate |].
  destruct (String.eqb t "right"); [discriminate |].
  destruct (String.eqb t "both"); [discriminate | reflexivity].
Qed.

Lemma mapM_color_invalid (types : list string) :
  Exists (fun t => valid_type t = false) types ->
  exists t, In t types /\ valid_type t = false /\
            mapM color types = PyX.Fail (PyX.Base (Py.KeyError t)).
Proof.
  induction types as [| t types IH]; intros Hex; [inversion Hex |].
  destruct (valid_type t) eqn:Hv.
  - assert (Exists (fun t => valid_type t = false) types) as Hex'
      by (inversion Hex; subst; [congruence | assumption]).
    destruct (IH Hex') as (t' & Hin & Hbad & Hrun).
    exists t'. split; [right; exact Hin |]. split; [exact Hbad |].
    destruct (color_valid t Hv) as [c Hc].
    change (mapM color (t :: types))
      with (y ← color t; k ← mapM color types; mret (y :: k)).
    rewrite Hc. simpl. rewrite Hrun. reflexivity.
  - exists t. split; [left; reflexivity |]. split; [exact Hv |].
    change (mapM color (t :: types))
      with (y ← color t; k ← mapM color types; mret (y :: k)).
    rewrite (color_invalid t Hv). reflexivity.
Qed.

(** X25.  On a chart with notes, [visualize_chart] raises [KeyError] with
    the type of a note when some type is not left, right or both.  With
    valid types it raises [ZeroDivisionError] when the greatest note time
    is zero (notes per second are computed as [len(notes) / max(times)]),
    and otherwise returns the statistics, with that greatest time as
    duration. *)
Theorem visualize_chart_outcome (notes : list Note) (Hne : notes <> []) :
  (Exists (fun n => valid_type (type n) = false) notes ->
   exists n, In n notes /\ valid_type (type n) = false /\
             visualize_chart notes
             = PyX.Fail (PyX.Base (Py.KeyError (type n)))) /\
  (Forall (fun n => valid_type (type n) = true) notes ->
   exists latest,
     In latest (map time notes) /\
     Forall (fun t => t <= latest) (map time notes) /\
     (latest == 0 -> visualize_chart notes = PyX.Fail PyX.ZeroDivisionError) /\
     (~ latest == 0 ->
      exists stats,
        visualize_chart notes = PyX.Done (Some stats) /\
        total stats = length notes /\ duration stats = latest /\
        density stats = inject_Z (Z.of_nat (length notes)) / latest)).
Proof.
  destruct notes as [| first others]; [congruence |]. split.
  - intros Hex.
    assert (Exists (fun t => valid_type t = false)
              (map type (first :: others))) as Hex'.
    { apply List.Exists_exists in Hex. destruct Hex as (n & Hn & Hbad).
      apply List.Exists_exists. exists (type n).
      split; [apply List.in_map; exact Hn | exact Hbad]. }
    destruct (mapM_color_invalid _ Hex') as (t & Hin & Hbad & Hrun).
    apply List.in_map_iff in Hin. destruct Hin as (n & <- & Hn).
    exists n. split; [exact Hn |]. split; [exact Hbad |].
    unfold visualize_chart. rewrite Hrun. reflexivity.
  - intros Hvalid.
    assert (Forall (fun t => exists c, color t = PyX.Done c)
              (map type (first :: others))) as Hcol.
    { apply List.Forall_forall. intros t Ht. apply List.in_map_iff in Ht.
      destruct Ht as (n & <- & Hn). apply color_valid.
      rewrite List.Forall_forall in Hvalid. apply Hvalid. exact Hn. }
    destruct (mapM_Done _ _ Hcol) as (cs & Hrun & _).
    assert ((max_of (time first) (map time others) = time first \/
             In (max_of (time first) (map time others)) (map time others)) /\
            time first <= max_of (time first) (map time others) /\
            Forall (fun y => y <= max_of (time first) (map time others))
              (map time others)) as (Hin & Hfirst & Hall)
      by (apply (max_fold_spec (map time others) (time first))).
    set (latest := max_of (time first) (map time others)) in *.
    exists latest. split; [| split; [| split]].
    + simpl. destruct Hin as [-> | Hin]; [left; reflexivity | right; exact Hin].
    + simpl. constructor; assumption.
    + intros Hzero. unfold visualize_chart. rewrite Hrun. simpl.
      fold latest. unfold div.
      apply Qeq_bool_iff in Hzero. rewrite Hzero. reflexivity.
    + intros Hnz. unfold visualize_chart. rewrite Hrun. simpl.
      fold latest. unfold div.
      destruct (Qeq_bool latest 0) eqn:E;
        [apply Qeq_bool_iff in E; contradiction |].
      simpl. eexists. split; [reflexivity |]. simpl. auto.
Qed.

End VisualizeFacts.

(** ** More concrete runs *)

Section MoreRuns.
Import ChartGenerator GenerateChart BeatDetection DrumAnalysis Inv Pre
  Examples MoreExamples.

Lemma mapping_complete : complete_mapping mapping.
Proof. repeat constructor; eexists; reflexivity. Defined.

Lemma config_easy_complete : complete_config config_easy.
Proof. repeat constructor; eexists; reflexivity. Defined.

Lemma mapping_valid : valid_mapping mapping.
Proof.
  intros cat ty H. unfold mapping in H.
  destruct (decide (cat = "kick")) as [-> | N1];
    [vm_compute in H; injection H as <-; reflexivity |].
  rewrite lookup_insert_ne in H by congruence.
  destruct (decide (cat = "snare")) as [-> | N2];
    [vm_compute in H; injection H as <-; reflexivity |].
  rewrite lookup_insert_ne in H by congruence.
  destruct (decide (cat = "hihat")) as [-> | N3];
    [vm_compute in H; injection H as <-; reflexivity |].
  rewrite lookup_insert_ne in H by congruence.
  rewrite lookup_empty in H. discriminate.
Defined.

Example spaced_events_chart :
  generate_chart four_events config_spaced mapping "demo" "easy"
  = Py.Ok four_chart.
Proof. vm_compute. reflexivity. Defined.

Lemma generate_chart_returns_witness :
  complete_config config_easy /\ complete_mapping mapping /\
  (exists chart,
     generate_chart four_events config_easy mapping "demo" "easy"
     = Py.Ok chart) /\
  generate_chart [close_event; ∅] config_easy mapping "demo" "easy"
  = Py.Raise (Py.KeyError "time").
Proof.
  split; [exact config_easy_complete |]. split; [exact mapping_complete |].
  split.
  - apply (proj1 (generate_chart_returns four_events config_easy mapping
                    "demo" "easy" config_easy_complete mapping_complete)).
    repeat constructor; eexists; reflexivity.
  - apply (proj2 (generate_chart_returns [close_event; ∅] config_easy mapping
                    "demo" "easy" config_easy_complete mapping_complete)).
    apply Exists_cons_tl, Exists_cons_hd. reflexivity.
Defined.

Lemma notes_ascending_witness :
  config_easy !! "min_interval" = Some (1 # 10) /\ 0 <= 1 # 10 /\
  StronglySorted (fun a b => time a <= time b) (notes four_chart).
Proof.
  assert (0 <= 1 # 10) as Hpos by (vm_compute; discriminate).
  split; [reflexivity |]. split; [exact Hpos |].
  exact (notes_ascending four_events config_easy mapping "demo" "easy"
           four_chart (1 # 10) four_events_chart eq_refl Hpos).
Defined.

Lemma note_provenance_witness :
  generate_chart four_events config_easy mapping "demo" "easy"
    = Py.Ok four_chart /\
  (length (notes four_chart) <= length four_events)%nat.
Proof.
  split; [exact four_events_chart |].
  exact (proj2 (note_provenance four_events config_easy mapping "demo" "easy"
                  four_chart (1 # 2) (1 # 2) (1 # 2) four_events_chart
                  eq_refl eq_refl eq_refl)).
Defined.

Lemma generated_chart_validates_witness :
  151 # 1000 <= 2 # 10 /\ valid_mapping mapping /\
  Forall norms_at_most_one four_events /\
  validate_chart four_chart 1 = [].
Proof.
  assert (0 <= 1 # 2) as Hth by (vm_compute; discriminate).
  assert (151 # 1000 <= 2 # 10) as Hm by (vm_compute; discriminate).
  assert (Forall norms_at_most_one four_events) as Hnorm.
  { apply List.Forall_forall. intros e He.
    repeat (destruct He as [<- | He]); [.. | destruct He];
      (split; [| split]); vm_compute; discriminate. }
  assert (forall e t, In e four_events -> e !! "time" = Some t ->
                      0 <= t /\ Py.round t 3 <= 1) as Htime.
  { intros e t He Ht.
    repeat (destruct He as [<- | He]); [.. | destruct He];
      vm_compute in Ht; injection Ht as <-; split; vm_compute; discriminate. }
  split; [exact Hm |]. split; [exact mapping_valid |]. split; [exact Hnorm |].
  apply (proj2 (generated_chart_validates four_events config_spaced mapping
                  "demo" "easy" four_chart (1 # 2) (1 # 2) (1 # 2) (2 # 10) 1
                  spaced_events_chart eq_refl eq_refl eq_refl eq_refl
                  Hth Hth Hth Hm mapping_valid Hnorm Htime)).
  discriminate.
Defined.

Lemma density_filter_loudest_witness :
  three_notes <> [] /\ 1 # 2 < 1 /\
  Float.mul (inject_Z (Z.of_nat (length three_notes))) (1 # 2) < 2 /\
  exists n,
    apply_density_filter three_notes (1 # 2) = [n] /\ In n three_notes /\
    forall a, In a three_notes -> velocity a <= velocity n.
Proof.
  assert (three_notes <> []) as Hne by discriminate.
  assert (1 # 2 < 1) as Hd by reflexivity.
  assert (Float.mul (inject_Z (Z.of_nat (length three_notes))) (1 # 2) < 2)
    as Hsmall by (vm_compute; reflexivity).
  split; [exact Hne |]. split; [exact Hd |]. split; [exact Hsmall |].
  exact (density_filter_loudest three_notes (1 # 2) Hne Hd
           (or_intror Hsmall)).
Defined.

(** Of three notes the density 0.6666666666666666 keeps two: the exact
    product is below 2, the binary64 product is 2. *)
Example density_two_thirds :
  inject_Z 3 * (6004799503160661 # 9007199254740992) < 2 /\
  length (apply_density_filter three_notes
            (6004799503160661 # 9007199254740992)) = 2%nat.
Proof. split; vm_compute; reflexivity. Qed.

Lemma density_filter_sublist_witness :
  StronglySorted (fun a b => time a < time b) three_notes /\
  sublist (apply_density_filter three_notes (2 # 3)) three_notes.
Proof.
  assert (StronglySorted (fun a b => time a < time b) three_notes) as Hasc
    by (repeat constructor).
  split; [exact Hasc |].
  exact (density_filter_sublist three_notes (2 # 3) Hasc).
Defined.

Example sparse_events_chart :
  generate_chart four_events config_sparse mapping "demo" "easy"
  = Py.Ok four_chart.
Proof. vm_compute. reflexivity. Defined.

Lemma persisted_notes_witness :
  generate_for_difficulty four_events 1 config_sparse mapping "demo" "easy"
    = Py.Ok (sparse_chart, []) /\
  (forall n, In n (notes sparse_chart) -> In n (notes four_chart)) /\
  (notes sparse_chart = [] <-> notes four_chart = []).
Proof.
  split; [exact four_events_sparse |].
  destruct (persisted_notes four_events 1 config_sparse mapping "demo" "easy"
              four_chart sparse_chart [] sparse_events_chart
              four_events_sparse) as (H1 & H2 & _).
  split; assumption.
Defined.

Lemma fusion_zero_tolerance_witness :
  0 <= 0 /\
  combine_beats_and_onsets [1 # 2] [5004 # 10000] 0 =
  Py.sorted (fun x => x) false
    (Py.set (map (fun x => Py.round x 3) ([5004 # 10000] ++ [1 # 2]))).
Proof.
  assert (0 <= 0) as H by (vm_compute; discriminate).
  split; [exact H |].
  exact (fusion_zero_tolerance [1 # 2] [5004 # 10000] 0 H).
Defined.

Lemma fusion_order_independent_witness :
  Permutation [1; 2] [2; 1] /\ Permutation [3 # 2] [3 # 2] /\
  combine_beats_and_onsets [1; 2] [3 # 2] (1 # 10) =
  combine_beats_and_onsets [2; 1] [3 # 2] (1 # 10).
Proof.
  assert (Permutation [1; 2] [2; 1]) as Hb by apply perm_swap.
  assert (Permutation [3 # 2] [3 # 2]) as Ho by apply Permutation_refl.
  split; [exact Hb |]. split; [exact Ho |].
  exact (fusion_order_independent [1; 2] [2; 1] [3 # 2] [3 # 2] (1 # 10) Hb Ho).
Defined.

Example raw_events_normalized :
  normalize_energies raw_events = Py.Ok normalized_events.
Proof. vm_compute. reflexivity. Defined.

Lemma normalize_preserves_witness :
  normalize_energies raw_events = Py.Ok normalized_events /\
  length normalized_events = length raw_events.
Proof.
  split; [exact raw_events_normalized |].
  exact (proj1 (normalize_preserves raw_events normalized_events
                  raw_events_normalized)).
Defined.

Lemma normalize_idempotent_witness :
  normalize_energies raw_events = Py.Ok normalized_events /\
  normalize_energies normalized_events = Py.Ok normalized_events.
Proof.
  split; [exact raw_events_normalized |].
  exact (normalize_idempotent raw_events normalized_events
           raw_events_normalized).
Defined.

Lemma freq_bands_complete : complete_bands freq_bands.
Proof.
  apply List.Forall_forall. intros name Hin.
  repeat (destruct Hin as [<- | Hin]); [.. | destruct Hin];
    do 3 eexists; (split; [reflexivity | split; reflexivity]).
Defined.

Lemma spectrogram_nonneg : forall i j, 0 <= magnitude spectrogram i j.
Proof.
  intros i j. simpl. change 0 with (inject_Z 0). rewrite <- Zle_Qle. lia.
Defined.

Lemma beat_frames_nonneg : forall b, In b beat_times -> (0 <= frame_of b)%Z.
Proof.
  intros b Hb. repeat (destruct Hb as [<- | Hb]); [.. | destruct Hb];
    vm_compute; discriminate.
Defined.

Lemma analyze_drum_hits_events_witness :
  complete_bands freq_bands /\ (0 < n_frames spectrogram)%nat /\
  exists events,
    analyze_drum_hits spectrogram bin_frequency frame_of beat_times freq_bands
    = PyX.Done events /\
    (fun e : gmap string Q => e !! "time") <$> events = Some <$> beat_times /\
    Forall raw_event_ok events.
Proof.
  assert (0 < n_frames spectrogram)%nat as Hn by (simpl; lia).
  split; [exact freq_bands_complete |]. split; [exact Hn |].
  exact (analyze_drum_hits_events spectrogram bin_frequency frame_of
           beat_times freq_bands freq_bands_complete Hn beat_frames_nonneg
           spectrogram_nonneg).
Defined.

Lemma analyze_beat_clamped_witness :
  (Z.of_nat (n_frames spectrogram) <= frame_of 3)%Z /\
  frame_of (1 # 2) = (Z.of_nat (n_frames spectrogram) - 1)%Z /\
  exists e e',
    analyze_beat spectrogram frame_of (fun _ => true) (fun _ => true)
      (fun _ => false) 3 = PyX.Done e /\
    analyze_beat spectrogram frame_of (fun _ => true) (fun _ => true)
      (fun _ => false) (1 # 2) = PyX.Done e' /\
    e = <["time" := 3]> e'.
Proof.
  assert (0 < n_frames spectrogram)%nat as Hn by (simpl; lia).
  assert (Z.of_nat (n_frames spectrogram) <= frame_of 3)%Z as Hafter
    by (vm_compute; discriminate).
  assert (frame_of (1 # 2) = (Z.of_nat (n_frames spectrogram) - 1)%Z) as Hlast
    by reflexivity.
  split; [exact Hafter |]. split; [exact Hlast |].
  exact (analyze_beat_clamped spectrogram frame_of (fun _ => true)
           (fun _ => true) (fun _ => false) 3 (1 # 2) Hn Hafter Hlast).
Defined.

Lemma analysis_to_chart_witness :
  beat_times <> [] /\
  exists events events' chart,
    analyze_drum_hits spectrogram bin_frequency frame_of beat_times freq_bands
    = PyX.Done events /\
    normalize_energies events = Py.Ok events' /\
    generate_chart events' config_easy mapping "demo" "easy" = Py.Ok chart /\
    length events' = length beat_times /\
    (length (notes chart) <= length beat_times)%nat /\
    forall n, In n (notes chart) ->
      (exists b, In b beat_times /\ time n = Py.round b 3) /\
      0 <= velocity n /\ velocity n <= 1.
Proof.
  assert (0 < n_frames spectrogram)%nat as Hn by (simpl; lia).
  assert (beat_times <> []) as Hne by discriminate.
  split; [exact Hne |].
  exact (analysis_to_chart spectrogram bin_frequency frame_of beat_times
           freq_bands config_easy mapping "demo" "easy" freq_bands_complete
           Hn beat_frames_nonneg spectrogram_nonneg Hne config_easy_complete
           mapping_complete).
Defined.

Example answer_post_processed :
  LlmChart.post_process parse_float str lower 1 (LlmChart.JObj answer_object)
  = PyX.Done answer_cleaned.
Proof. vm_compute. reflexivity. Defined.

Lemma cleaned_notes_in_range_witness :
  LlmChart.post_process parse_float str lower 1 (LlmChart.JObj answer_object)
    = PyX.Done answer_cleaned /\
  forall n, In n answer_cleaned ->
    0 <= LlmChart.time n /\ (0 <= 1 -> LlmChart.time n <= 1) /\
    In (LlmChart.drum n) LlmChart.allowed_drums /\
    (forall v, LlmChart.velocity n = Some v -> 0 <= v /\ v <= 1).
Proof.
  split; [exact answer_post_processed |].
  exact (cleaned_notes_in_range parse_float str lower 1
           (LlmChart.JObj answer_object) answer_cleaned answer_post_processed).
Defined.

Lemma cleaned_notes_sorted_witness :
  answer_object !! "notes" = Some (LlmChart.JArr answer_notes) /\
  StronglySorted (fun a b => LlmChart.time a <= LlmChart.time b)
    answer_cleaned /\
  (length answer_cleaned <= length answer_notes)%nat.
Proof.
  assert (answer_object !! "notes" = Some (LlmChart.JArr answer_notes))
    as Hnotes by reflexivity.
  split; [exact Hnotes |].
  destruct (cleaned_notes_sorted parse_float str lower 1 answer_object
              answer_notes answer_cleaned Hnotes answer_post_processed)
    as (H1 & H2 & _).
  split; assumption.
Defined.

Lemma visualize_chart_outcome_witness :
  [first_note] <> [] /\
  VisualizeChart.visualize_chart [first_note]
  = PyX.Fail PyX.ZeroDivisionError.
Proof.
  assert ([first_note] <> []) as Hne by discriminate.
  split; [exact Hne |].
  destruct (proj2 (visualize_chart_outcome [first_note] Hne)
              ltac:(repeat constructor))
    as (latest & Hin & _ & Hzero & _).
  apply Hzero. destruct Hin as [<- | []]. reflexivity.
Defined.

(** The visualiser on the four generated notes. *)
Example four_notes_statistics :
  exists stats,
    VisualizeChart.visualize_chart four_notes = PyX.Done (Some stats) /\
    VisualizeChart.total stats = 4%nat /\
    VisualizeChart.duration stats = 4 # 5 /\
    VisualizeChart.density stats == 5.
Proof. eexists. split; [vm_compute; reflexivity |]. repeat split. Qed.

Lemma density_filter_keeps_clean_witness :
  validate_chart four_chart 1 = [] /\
  generate_for_difficulty four_events 1 config_sparse mapping "demo" "easy"
    = Py.Ok (sparse_chart, validate_chart sparse_chart 1) /\
  validate_chart sparse_chart 1 = [].
Proof.
  assert (validate_chart four_chart 1 = []) as Hclean
    by (vm_compute; reflexivity).
  assert (generate_for_difficulty four_events 1 config_sparse mapping "demo"
            "easy" = Py.Ok (sparse_chart, validate_chart sparse_chart 1))
    as Hrun by (vm_compute; reflexivity).
  split; [exact Hclean |]. split; [exact Hrun |].
  exact (density_filter_keeps_clean four_events 1 config_sparse mapping
           "demo" "easy" four_chart sparse_chart
           (validate_chart sparse_chart 1) sparse_events_chart Hrun Hclean).
Defined.

(** An event without its kick energy stops the normalisation, also when
    it is not the first one. *)
Example normalize_without_kick :
  normalize_energies [raw_event 0 1 1 1; bare_event]
  = Py.Raise (Py.KeyError "kick_energy").
Proof. vm_compute. reflexivity. Qed.

End MoreRuns.
